(** * Graph Explorer: the curve-analysis core of [main.py]

    A shallow embedding of [safe_eval_expression], [slope_at_point],
    [XYTable.get_data], [GraphApp._plot_points] and [GraphApp.draw_chart],
    together with the properties of the specification that concern them.

    Floating point numbers are IEEE 754 binary64 values ([spec_float] with
    precision 53 and maximal exponent 1024).  NumPy arrays of dtype float64
    are lists of such values.  Python exceptions are values of [exn]; code
    that may raise returns a [result]. *)

From Stdlib Require Import ZArith List Bool Ascii Lia Sorting.Permutation Sorting.Sorted.
From Stdlib Require Import Floats.SpecFloat.
From stdpp Require Import base option list strings gmap.

Local Open Scope Z_scope.

(** ** binary64 *)

Module F64.

Definition prec : Z := 53.
Definition emax : Z := 1024.

Definition float : Type := spec_float.

Definition nan : float := S754_nan.
Definition inf : float := S754_infinity false.
Definition zero : float := S754_zero false.

Definition sub : float -> float -> float := SFsub prec emax.
Definition add : float -> float -> float := SFadd prec emax.
Definition mul : float -> float -> float := SFmul prec emax.
Definition div : float -> float -> float := SFdiv prec emax.
Definition abs : float -> float := SFabs.
Definition opp : float -> float := SFopp.
Definition leb : float -> float -> bool := SFleb.
Definition ltb : float -> float -> bool := SFltb.
Definition eqb : float -> float -> bool := SFeqb.

Definition is_nan (f : float) : bool :=
  match f with S754_nan => true | _ => false end.

Definition is_zero (f : float) : bool :=
  match f with S754_zero _ => true | _ => false end.

(** [np.isfinite] on one element. *)
Definition isfinite (f : float) : bool :=
  match f with
  | S754_zero _ | S754_finite _ _ _ => true
  | S754_infinity _ | S754_nan => false
  end.

(** The binary64 value of an integer (rounded to nearest even). *)
Definition of_Z (z : Z) : float := binary_normalize prec emax z 0 false.

(** Total order used by NumPy's sorts: IEEE order with NaN placed last. *)
Definition sort_le (a b : float) : bool := is_nan b || leb a b.

(** Equality as [np.unique] sees it: IEEE [==], all NaNs taken as one value. *)
Definition same (a b : float) : bool := eqb a b || (is_nan a && is_nan b).

End F64.

Abbreviation float := F64.float.

(** ** Exceptions *)

Inductive exn : Type :=
  | SyntaxError
  | NameError (name : string)
  | TypeError
  | AttributeError
  | ZeroDivisionError
  | OverflowError
  | IndexError
  | LinAlgError
  | ValueError (m : message)
with message : Type :=
  | InvalidExpression (cause : exn)          (* "Invalid expression: {ex}" *)
  | NoFiniteData                             (* "No valid finite data to plot." *)
  | RowNeedsBoth                             (* "Each row must have both x and y values." *)
  | InvalidNumber (sx sy : string)           (* "Invalid number: x='..', y='..'" *)
  | NeedOnePair                              (* "Please enter at least one (x, y) pair." *)
  | NeedTwoPoints                            (* "Please enter at least two points to draw a chart." *)
  | NeedEquation                             (* "Please enter an equation for y in terms of x." *)
  | RangeNotNumeric                          (* "x-range and points must be numeric." *)
  | XmaxNotGreater                           (* "x max must be greater than x min." *)
  | TooFewPoints                             (* "Use at least 10 points for a meaningful curve." *)
  | NotAVector                               (* "The expression did not evaluate to a vector of y values." *)
  | LibraryMessage.                          (* a ValueError raised inside NumPy *)

Inductive result (A : Type) : Type :=
  | Ok (a : A)
  | Raise (e : exn).
Arguments Ok {A} a.
Arguments Raise {A} e.

#[global] Instance result_ret : MRet result := fun A a => Ok a.
#[global] Instance result_bind : MBind result := fun A B k m =>
  match m with
  | Ok a => k a
  | Raise e => Raise e
  end.

#[global] Instance result_fmap : FMap result := fun A B f m =>
  match m with
  | Ok a => Ok (f a)
  | Raise e => Raise e
  end.

Definition is_ok {A : Type} (r : result A) : bool :=
  match r with Ok _ => true | Raise _ => false end.

(** ** NumPy array primitives used by the program *)

Module Np.

(** [a[idx]] with an integer index array: every index must be in range. *)
Fixpoint take (a : list float) (idx : list nat) : result (list float) :=
  match idx with
  | [] => Ok []
  | i :: idx' =>
      match a !! i with
      | None => Raise IndexError
      | Some v => r ← take a idx'; Ok (v :: r)
      end
  end.

(** [np.abs(a - x0)]. *)
Definition abs_sub (a : list float) (x0 : float) : list float :=
  map (fun v => F64.abs (F64.sub v x0)) a.

(** The scan of [np.argmin] on float64: the running minimum [mp] is
    replaced when [not (mp <= v)], and a NaN minimum stops the scan. *)
Fixpoint argmin_scan (mp : float) (best i : nat) (l : list float) : nat :=
  match l with
  | [] => best
  | v :: l' =>
      if F64.is_nan mp then best
      else if negb (F64.leb mp v) then argmin_scan v i (S i) l'
      else argmin_scan mp best (S i) l'
  end.

Definition argmin (a : list float) : result nat :=
  match a with
  | [] => Raise (ValueError LibraryMessage)
  | v :: l => Ok (argmin_scan v 0%nat 1%nat l)
  end.

(** [a[lo:hi]] for Python integers [lo], [hi]: a negative bound counts
    from the end, and both are clamped to the array. *)
Definition slice_bound (n i : Z) : nat :=
  Z.to_nat (if i <? 0 then Z.max 0 (i + n) else Z.min i n).

Definition slice (a : list float) (lo hi : Z) : list float :=
  let n := Z.of_nat (length a) in
  let l := slice_bound n lo in
  let h := slice_bound n hi in
  firstn (h - l) (skipn l a).

(** [np.unique(a)]: one representative per distinct value.  NumPy returns
    them sorted; the program only takes [len] of the outcome, so the
    representatives are kept here in order of first occurrence. *)
Fixpoint unique (a : list float) : list float :=
  match a with
  | [] => []
  | v :: a' => v :: filter (fun w => negb (F64.same v w)) (unique a')
  end.

(** [np.isfinite(x) & np.isfinite(y)] on arrays of one shape. *)
Fixpoint finite_mask (x y : list float) : list bool :=
  match x, y with
  | vx :: x', vy :: y' => (F64.isfinite vx && F64.isfinite vy) :: finite_mask x' y'
  | _, _ => []
  end.

(** [a[mask]] with a boolean mask of the array's shape. *)
Fixpoint compress (a : list float) (mask : list bool) : list float :=
  match a, mask with
  | v :: a', b :: mask' => if b then v :: compress a' mask' else compress a' mask'
  | _, _ => []
  end.

End Np.

(** ** Expressions and values of the evaluator

    [safe_eval_expression] hands the text to Python's [eval].  The fragment
    of Python modelled here: float literals, names, unary minus, the
    operators [+ - * /], calls with positional arguments, and calls of a
    function reached through the [np] handle ([np.a.b(args)]).  The power
    operator is left out (on two Python numbers it may answer a complex
    number); [pow] is there as a function.  Left out too are the
    conditional and boolean operators, comparisons, attribute access
    other than through [np], subscripts and displays: what is proved of
    expressions below is proved of the forms listed, of which Python
    evaluates every part.  An operation on an operand of a kind it does
    not take raises TypeError, as NumPy does on the arrays [draw_chart]
    passes, which are not empty. *)

Inductive ufunc1 : Type :=
  | Sin | Cos | Tan | Arcsin | Arccos | Arctan | Sinh | Cosh | Tanh
  | Exp | Log | Log10 | Sqrt | Absolute | Floor | Ceil.

Inductive ufunc2 : Type := Power | Arctan2.

Inductive value : Type :=
  | VFloat (v : float)        (* a Python float *)
  | VFloat64 (v : float)      (* a numpy.float64 scalar *)
  | VX                        (* the array object received as x_array *)
  | VArray (a : list float)   (* a temporary float64 array *)
  | VUfunc1 (u : ufunc1)
  | VUfunc2 (u : ufunc2)
  | VModule                   (* the numpy module *)
  | VDict.                    (* the empty dict given as __builtins__ *)

Inductive binop : Type := Add | Sub | Mul | Div.

#[local] Unset Elimination Schemes.
Inductive expr : Type :=
  | ENum (v : float)
  | EName (n : string)
  | ENeg (a : expr)
  | EBin (op : binop) (a b : expr)
  | ECall (f : expr) (args : list expr)
  | ENpCall (path : list string) (args : list expr).
#[local] Set Elimination Schemes.

(** The value of [np.asarray(y, dtype=float)]: a 0-d or a 1-d array. *)
Inductive ndarray : Type :=
  | A0 (v : float)
  | A1 (a : list float).

Definition shape (y : ndarray) : list nat :=
  match y with
  | A0 _ => []
  | A1 a => [length a]
  end.

(** ** The numeric library, as far as the program relies on it

    [np.argsort] is called with its default [kind], an unstable sort: the
    program may rely on the outcome being a permutation of the positions
    that puts the values in ascending order (NaN last), and on nothing
    else.  [np.polyfit(x, y, 1)] is the library's least-squares line; it
    returns the pair (slope, intercept) or raises.  [np.mean] and
    [np.linspace] are the library's.  [np.random.default_rng()] draws fresh
    entropy from the operating system; [Generator.choice(n, size,
    replace=False)] returns [size] distinct positions below [n].

    [kernel1] and [kernel2] are the inner loops of the universal functions
    on float64.  [world] is the state the library keeps between calls (its
    global random generator, for one); whatever lies behind the [np]
    handle is reached with [np_getattr] and run with [np_apply], which
    sees and may change the x array and that state. *)

Class NumPy : Type := {
  argsort : list float -> list nat;
  argsort_perm : forall a, argsort a ≡ₚ seq 0 (length a);
  argsort_sorted : forall a s,
    Np.take a (argsort a) = Ok s -> StronglySorted (fun u v => F64.sort_le u v = true) s;
  polyfit : list float -> list float -> result (float * float);
  mean : list float -> float;
  linspace : float -> float -> Z -> list float;
  entropy : Type;
  choice : entropy -> nat -> nat -> result (list nat);
  choice_distinct : forall s n size l,
    choice s n size = Ok l -> NoDup l /\ length l = size /\ Forall (fun i => (i < n)%nat) l;
  choice_total : forall s n size, (size <= n)%nat -> is_ok (choice s n size) = true;
  kernel1 : ufunc1 -> float -> float;
  kernel2 : ufunc2 -> float -> float -> float;
  world : Type;
  member : Type;
  np_getattr : list string -> result member;
  np_apply : member -> list value -> list float * world -> result value * (list float * world);
}.

(** The interpreter: [parse] is the parser of [eval] on the fragment
    ([None] is a SyntaxError), [float_of_string] is [float(s)] ([None] is a
    ValueError) and [str_strip] is [str.strip]. *)

Class Python : Type := {
  parse : string -> option expr;
  float_of_string : string -> option float;
  str_strip : string -> string;
}.

(** ** [slope_at_point] *)

Section SlopeAtPoint.
Context `{NP : NumPy}.

(** [order = np.argsort(x); xs = x[order]; ys = y[order]], as written in
    [slope_at_point] and in [draw_chart]. *)
Definition sort_by_x (x y : list float) : result (list float * list float) :=
  let order := argsort x in
  xs ← Np.take x order;
  ys ← Np.take y order;
  Ok (xs, ys).

(** The [try: m, b = np.polyfit(xw, yw, 1); return float(m)
    except Exception: return float("nan")] block. *)
Definition fit_slope_or_nan (xw yw : list float) : float :=
  match polyfit xw yw with
  | Ok (m, _) => m
  | Raise _ => F64.nan
  end.

Definition slope_at_point (x y : list float) (x0 : float) (window : Z) : result float :=
  if Z.of_nat (length x) <? 2 then Ok F64.nan
  else
    '(xs, ys) ← sort_by_x x y;
    i ← Np.argmin (Np.abs_sub xs x0);
    let idx := Z.of_nat i in
    let lo := Z.max 0 (idx - window) in
    let hi := Z.min (Z.of_nat (length xs)) (idx + window + 1) in
    let xw := Np.slice xs lo hi in
    let yw := Np.slice ys lo hi in
    if (length (Np.unique xw) <? 2)%nat then
      if (2 <=? length (Np.unique xs))%nat then Ok (fit_slope_or_nan xs ys)
      else Ok F64.nan
    else Ok (fit_slope_or_nan xw yw).

End SlopeAtPoint.

(** ** [safe_eval_expression] *)

(** [expr.replace("^", "**")]. *)
Fixpoint replace_caret (s : string) : string :=
  match s with
  | EmptyString => EmptyString
  | String c s' =>
      if Ascii.eqb c "^"%char then String "*" (String "*" (replace_caret s'))
      else String c (replace_caret s')
  end.

(** [np.pi] and [np.e]. *)
Definition np_pi : float := S754_finite false 7074237752028440 (-51).
Definition np_e : float := S754_finite false 6121026514868073 (-51).

(** The dict [allowed] of the source.  The entry for ["x"] is the array
    object itself, whose content lives in the evaluator's heap. *)
Definition allowed : gmap string value :=
  list_to_map [
    ("x", VX);
    ("pi", VFloat np_pi); ("e", VFloat np_e);
    ("sin", VUfunc1 Sin); ("cos", VUfunc1 Cos); ("tan", VUfunc1 Tan);
    ("asin", VUfunc1 Arcsin); ("acos", VUfunc1 Arccos); ("atan", VUfunc1 Arctan);
    ("sinh", VUfunc1 Sinh); ("cosh", VUfunc1 Cosh); ("tanh", VUfunc1 Tanh);
    ("exp", VUfunc1 Exp); ("log", VUfunc1 Log); ("log10", VUfunc1 Log10);
    ("sqrt", VUfunc1 Sqrt); ("abs", VUfunc1 Absolute);
    ("floor", VUfunc1 Floor); ("ceil", VUfunc1 Ceil);
    ("pow", VUfunc2 Power); ("arctan2", VUfunc2 Arctan2);
    ("np", VModule)
  ]%string.

(** The globals given to [eval]: [{"__builtins__": {}}]. *)
Definition eval_globals : gmap string value :=
  {[ "__builtins__"%string := VDict ]}.

(** Name lookup of [eval(expr, globals, locals)]: the locals, then the
    globals, then the builtins, which are the empty dict here. *)
Definition resolve (n : string) : result value :=
  match allowed !! n with
  | Some v => Ok v
  | None =>
      match eval_globals !! n with
      | Some v => Ok v
      | None => Raise (NameError n)
      end
  end.

Section Evaluator.
Context `{NP : NumPy} `{PY : Python}.

(** The x array and the library's state, while an expression runs. *)
Definition heap : Type := list float * world.

Definition Eval (A : Type) : Type := heap -> result A * heap.

Definition eret {A : Type} (a : A) : Eval A := fun h => (Ok a, h).
Definition eraise {A : Type} (e : exn) : Eval A := fun h => (Raise e, h).
Definition elift {A : Type} (r : result A) : Eval A := fun h => (r, h).
Definition ebind {A B : Type} (m : Eval A) (k : A -> Eval B) : Eval B :=
  fun h =>
    match m h with
    | (Ok a, h') => k a h'
    | (Raise e, h') => (Raise e, h')
    end.

(** A value seen as an operand of arithmetic. *)
Inductive operand : Type :=
  | Scalar (python : bool) (v : float)
  | Vector (a : list float).

Definition operand_of (h : heap) (v : value) : option operand :=
  match v with
  | VFloat f => Some (Scalar true f)
  | VFloat64 f => Some (Scalar false f)
  | VX => Some (Vector (fst h))
  | VArray a => Some (Vector a)
  | _ => None
  end.

Definition float_op (op : binop) : float -> float -> float :=
  match op with
  | Add => F64.add
  | Sub => F64.sub
  | Mul => F64.mul
  | Div => F64.div
  end.

(** NumPy broadcasting of two 1-d arrays. *)
Definition broadcast2 (f : float -> float -> float) (a b : list float)
  : result (list float) :=
  if (length a =? length b)%nat then Ok (zip_with f a b)
  else
    match a, b with
    | [u], _ => Ok (map (f u) b)
    | _, [v] => Ok (map (fun u => f u v) a)
    | _, _ => Raise (ValueError LibraryMessage)
    end.

(** A binary function on operands.  [raises] tells whether the function
    on two Python floats raises ZeroDivisionError on a zero divisor;
    NumPy scalars and arrays never raise. *)
Definition operate (raises : bool) (f : float -> float -> float) (p q : operand)
  : result value :=
  match p, q with
  | Scalar py1 a, Scalar py2 b =>
      if py1 && py2 then
        if raises && F64.is_zero b then Raise ZeroDivisionError
        else Ok (VFloat (f a b))
      else Ok (VFloat64 (f a b))
  | Scalar _ a, Vector b => Ok (VArray (map (f a) b))
  | Vector a, Scalar _ b => Ok (VArray (map (fun u => f u b) a))
  | Vector a, Vector b => r ← broadcast2 f a b; Ok (VArray r)
  end.

Definition is_div (op : binop) : bool :=
  match op with Div => true | _ => false end.

Definition apply_binop (op : binop) (v1 v2 : value) : Eval value :=
  fun h =>
    match operand_of h v1, operand_of h v2 with
    | Some p, Some q => (operate (is_div op) (float_op op) p q, h)
    | _, _ => (Raise TypeError, h)
    end.

Definition apply_neg (v : value) : Eval value :=
  fun h =>
    match operand_of h v with
    | Some (Scalar true a) => (Ok (VFloat (F64.opp a)), h)
    | Some (Scalar false a) => (Ok (VFloat64 (F64.opp a)), h)
    | Some (Vector a) => (Ok (VArray (map F64.opp a)), h)
    | None => (Raise TypeError, h)
    end.

(** What a universal function computes from its inputs, before an
    output array is considered. *)
Definition ufunc1_on (u : ufunc1) (p : operand) : operand :=
  match p with
  | Scalar _ a => Scalar false (kernel1 u a)
  | Vector a => Vector (map (kernel1 u) a)
  end.

Definition ufunc2_on (u : ufunc2) (p q : operand) : result operand :=
  match p, q with
  | Scalar _ a, Scalar _ b => Ok (Scalar false (kernel2 u a b))
  | Scalar _ a, Vector b => Ok (Vector (map (kernel2 u a) b))
  | Vector a, Scalar _ b => Ok (Vector (map (fun v => kernel2 u v b) a))
  | Vector a, Vector b => r ← broadcast2 (kernel2 u) a b; Ok (Vector r)
  end.

Definition value_of (p : operand) : value :=
  match p with
  | Scalar true a => VFloat a
  | Scalar false a => VFloat64 a
  | Vector a => VArray a
  end.

(** A trailing positional argument of a universal function is its
    output array: the outcome is broadcast to its shape, written into
    it and the array itself is returned. *)
Definition write_out (p : operand) (out : value) : Eval value :=
  fun h =>
    match operand_of h out with
    | Some (Vector o) =>
        let n := length o in
        let filled :=
          match p with
          | Scalar _ a => Ok (replicate n a)
          | Vector a =>
              if (length a =? n)%nat then Ok a
              else match a with
                   | [u] => Ok (replicate n u)
                   | _ => Raise (ValueError LibraryMessage)
                   end
          end in
        match filled, out with
        | Ok r, VX => (Ok VX, (r, snd h))
        | Ok r, _ => (Ok (VArray r), h)
        | Raise e, _ => (Raise e, h)
        end
    | _ => (Raise TypeError, h)
    end.

Definition call (f : value) (args : list value) : Eval value :=
  fun h =>
    match f, args with
    | VUfunc1 u, [a] =>
        match operand_of h a with
        | Some p => (Ok (value_of (ufunc1_on u p)), h)
        | None => (Raise TypeError, h)
        end
    | VUfunc1 u, [a; out] =>
        match operand_of h a with
        | Some p => write_out (ufunc1_on u p) out h
        | None => (Raise TypeError, h)
        end
    | VUfunc2 u, [a; b] =>
        match operand_of h a, operand_of h b with
        | Some p, Some q => (value_of <$> ufunc2_on u p q, h)
        | _, _ => (Raise TypeError, h)
        end
    | VUfunc2 u, [a; b; out] =>
        match operand_of h a, operand_of h b with
        | Some p, Some q =>
            match ufunc2_on u p q with
            | Ok r => write_out r out h
            | Raise e => (Raise e, h)
            end
        | _, _ => (Raise TypeError, h)
        end
    | _, _ => (Raise TypeError, h)
    end.

(** Python evaluates the callee, then the arguments from left to right,
    then calls; the operands of an operator from left to right. *)
Fixpoint eval (e : expr) : Eval value :=
  match e with
  | ENum v => eret (VFloat v)
  | EName n => elift (resolve n)
  | ENeg a => ebind (eval a) apply_neg
  | EBin op a b =>
      ebind (eval a) (fun v1 => ebind (eval b) (fun v2 => apply_binop op v1 v2))
  | ECall f args =>
      ebind (eval f) (fun vf =>
      ebind ((fix eval_args (es : list expr) : Eval (list value) :=
                match es with
                | [] => eret []
                | e' :: es' =>
                    ebind (eval e') (fun v => ebind (eval_args es') (fun vs => eret (v :: vs)))
                end) args) (fun vs =>
      call vf vs))
  | ENpCall path args =>
      ebind (elift (resolve "np")) (fun handle =>
      match handle with
      | VModule =>
          ebind (elift (np_getattr path)) (fun target =>
          ebind ((fix eval_args (es : list expr) : Eval (list value) :=
                    match es with
                    | [] => eret []
                    | e' :: es' =>
                        ebind (eval e') (fun v => ebind (eval_args es') (fun vs => eret (v :: vs)))
                    end) args) (fun vs =>
          np_apply target vs))
      | _ => eraise AttributeError
      end)
  end.

(** [np.asarray(y, dtype=float)]. *)
Definition asarray_float (y : value) : Eval ndarray :=
  fun h =>
    match y with
    | VFloat f | VFloat64 f => (Ok (A0 f), h)
    | VX => (Ok (A1 (fst h)), h)
    | VArray a => (Ok (A1 a), h)
    | _ => (Raise TypeError, h)
    end.

(** The body of the [try] block: [eval] then [np.asarray]. *)
Definition eval_and_convert (text : string) : Eval ndarray :=
  match parse text with
  | None => eraise SyntaxError
  | Some ast => ebind (eval ast) asarray_float
  end.

(** [safe_eval_expression(expr, x_array)], run with the library in state
    [w].  Besides the outcome it yields the x array and the library
    state as the call leaves them. *)
Definition safe_eval_expression (expr : string) (x_array : list float) (w : world)
  : result ndarray * heap :=
  let expr := replace_caret expr in
  match eval_and_convert expr (x_array, w) with
  | (Ok y, h) => (Ok y, h)
  | (Raise ex, h) => (Raise (ValueError (InvalidExpression ex)), h)
  end.

(** The evaluator as [draw_chart] uses it: [y = safe_eval_expression(expr,
    x)] followed by the check [y.shape != x.shape]. *)
Definition evaluate (expr : string) (x : list float) (w : world)
  : result (list float) * heap :=
  match safe_eval_expression expr x w with
  | (Ok y, h) =>
      match y with
      | A1 a =>
          if decide (shape y = shape (A1 (fst h))) then (Ok a, h)
          else (Raise (ValueError NotAVector), h)
      | A0 _ => (Raise (ValueError NotAVector), h)
      end
  | (Raise e, h) => (Raise e, h)
  end.

End Evaluator.

(** ** The window: table, chart and status line

    The Axes object is the list of what has been put on it since it was
    last cleared; the canvas holds what [canvas.draw()] last rendered.
    Number formatting is left out: a title or status line is kept as the
    numbers it shows, [None] standing for a slope shown as a dash. *)

Inductive artist : Type :=
  | Grid
  | XLabel (s : string)
  | YLabel (s : string)
  | Scatter (xs ys : list float) (label : string)
  | Line (xs ys : list float) (label : string)
  | Annotate (xi yi : float)
  | PlainTitle (s : string)
  | Title (info : string) (Gx Gy : float) (slope : option float)
  | Legend.

Inductive status_text : Type :=
  | NoStatus
  | GStatus (Gx Gy : float) (slope : option float).

(** [int(f)] for a Python float. *)
Definition int_of_float (f : float) : result Z :=
  match f with
  | S754_nan => Raise (ValueError LibraryMessage)
  | S754_infinity _ => Raise OverflowError
  | S754_zero _ => Ok 0
  | S754_finite s m e =>
      let a := if 0 <=? e then Z.shiftl (Zpos m) e else Z.shiftr (Zpos m) (- e) in
      Ok (if s then - a else a)
  end.

(** [np.polyval([c0, c1], x)]: Horner's scheme started from zeros. *)
Definition polyval (c0 c1 : float) (x : list float) : list float :=
  map (fun v => F64.add (F64.mul (F64.add (F64.mul F64.zero v) c0) v) c1) x.

Section Window.
Context `{NP : NumPy} `{PY : Python}.

Record app : Type := App {
  mode : string;
  rows : list (string * string);
  eq_entry : string;
  xmin_entry : string;
  xmax_entry : string;
  npts_entry : string;
  ax : list artist;
  canvas : list artist;
  status : status_text;
  dialogs : list exn;
  np_state : world;
}.

Definition set_ax (f : list artist -> list artist) (st : app) : app :=
  App (mode st) (rows st) (eq_entry st) (xmin_entry st) (xmax_entry st) (npts_entry st)
      (f (ax st)) (canvas st) (status st) (dialogs st) (np_state st).

Definition set_canvas (c : list artist) (st : app) : app :=
  App (mode st) (rows st) (eq_entry st) (xmin_entry st) (xmax_entry st) (npts_entry st)
      (ax st) c (status st) (dialogs st) (np_state st).

Definition set_status (s : status_text) (st : app) : app :=
  App (mode st) (rows st) (eq_entry st) (xmin_entry st) (xmax_entry st) (npts_entry st)
      (ax st) (canvas st) s (dialogs st) (np_state st).

Definition set_np_state (w : world) (st : app) : app :=
  App (mode st) (rows st) (eq_entry st) (xmin_entry st) (xmax_entry st) (npts_entry st)
      (ax st) (canvas st) (status st) (dialogs st) w.

(** [messagebox.showerror("Error", str(ex))]. *)
Definition showerror (ex : exn) (st : app) : app :=
  App (mode st) (rows st) (eq_entry st) (xmin_entry st) (xmax_entry st) (npts_entry st)
      (ax st) (canvas st) (status st) (dialogs st ++ [ex]) (np_state st).

(** Methods run on the window and may raise part-way. *)
Definition Gui (A : Type) : Type := app -> result A * app.

#[local] Instance gui_ret : MRet Gui := fun A a st => (Ok a, st).
#[local] Instance gui_bind : MBind Gui := fun A B k m st =>
  match m st with
  | (Ok a, st') => k a st'
  | (Raise e, st') => (Raise e, st')
  end.

Definition lift {A : Type} (r : result A) : Gui A := fun st => (r, st).
Definition raise {A : Type} (e : exn) : Gui A := fun st => (Raise e, st).
Definition update (f : app -> app) : Gui unit := fun st => (Ok (), f st).
Definition draw (a : artist) : Gui unit := update (set_ax (fun l => l ++ [a])).

(** ** [XYTable.get_data] *)

Fixpoint get_data_loop (rs : list (string * string)) (xs ys : list float)
  : result (list float * list float) :=
  match rs with
  | [] => Ok (xs, ys)
  | (ex, ey) :: rs' =>
      let sx := str_strip ex in
      let sy := str_strip ey in
      if String.eqb sx "" && String.eqb sy "" then get_data_loop rs' xs ys
      else if String.eqb sx "" || String.eqb sy "" then Raise (ValueError RowNeedsBoth)
      else
        match float_of_string sx, float_of_string sy with
        | Some xv, Some yv => get_data_loop rs' (xs ++ [xv]) (ys ++ [yv])
        | _, _ => Raise (ValueError (InvalidNumber sx sy))
        end
  end.

Definition get_data (rs : list (string * string)) : result (list float * list float) :=
  '(xs, ys) ← get_data_loop rs [] [];
  if (length xs =? 0)%nat then Raise (ValueError NeedOnePair)
  else Ok (xs, ys).

(** ** [GraphApp._plot_points] *)

(** [mask = np.isfinite(x) & np.isfinite(y); x = x[mask]; y = y[mask]].
    Arrays of different lengths either fail to broadcast or, when one
    has a single element, give a mask that does not fit. *)
Definition finite_rows (x y : list float) : result (list float * list float) :=
  if (length x =? length y)%nat then
    let mask := Np.finite_mask x y in
    Ok (Np.compress x mask, Np.compress y mask)
  else if (length x =? 1)%nat || (length y =? 1)%nat then Raise IndexError
  else Raise (ValueError LibraryMessage).

(** The loop [for xi, yi in zip(rx, ry): self.ax.annotate(...)]. *)
Fixpoint annotate_all (rx ry : list float) : Gui unit :=
  match rx, ry with
  | xi :: rx', yi :: ry' => draw (Annotate xi yi) ;; annotate_all rx' ry'
  | _, _ => mret ()
  end.

Definition point_mode : string := "Using x, y values".

(** Lines 268-271: the axes are cleared and set up again. *)
Definition reset_axes : Gui unit :=
  update (set_ax (fun _ => [])) ;;
  draw Grid ;;
  draw (XLabel "x") ;;
  draw (YLabel "y").

(** Lines 283-291: the best-fit line, drawn in point mode only. *)
Definition best_fit (x y : list float) : Gui (option float) :=
  fun st =>
    if String.eqb (mode st) point_mode && (2 <=? length x)%nat then
      ('(c0, c1) ← lift (polyfit x y) ;
       let y_fit := polyval c0 c1 x in
       let order := argsort x in
       xo ← lift (Np.take x order) ;
       yo ← lift (Np.take y_fit order) ;
       draw (Line xo yo "Best fit line") ;;
       mret (Some c0)) st
    else (Ok None, st).

(** Lines 298-306: the random points. *)
Definition random_points (seed : entropy) (x y : list float) : Gui unit :=
  if (2 <=? length x)%nat then
    rand_idx ← lift (choice seed (length x) (Nat.min 2 (length x))) ;
    rx ← lift (Np.take x rand_idx) ;
    ry ← lift (Np.take y rand_idx) ;
    draw (Scatter rx ry "Random points") ;;
    annotate_all rx ry
  else mret ().

(** Lines 308-312: the slope at G. *)
Definition slope_at_G (slope_fit : option float) (x y : list float) (Gx : float)
  : Gui float :=
  match slope_fit with
  | Some m => mret m
  | None => lift (slope_at_point x y Gx 3)
  end.

(** Lines 314-322: title, legend, status line, and the canvas redrawn. *)
Definition show_result (title_info : string) (Gx Gy mG : float) : Gui unit :=
  let shown := if F64.is_nan mG then None else Some mG in
  draw (Title title_info Gx Gy shown) ;;
  draw Legend ;;
  update (set_status (GStatus Gx Gy shown)) ;;
  update (fun st => set_canvas (ax st) st).

Definition _plot_points (seed : entropy) (x y : list float) (title_info : string)
  : Gui unit :=
  reset_axes ;;
  '(x, y) ← lift (finite_rows x y) ;
  if (length x =? 0)%nat then raise (ValueError NoFiniteData)
  else
    draw (Scatter x y "Data points") ;;
    slope_fit ← best_fit x y ;
    let Gx := mean x in
    let Gy := mean y in
    draw (Scatter [Gx] [Gy] "G Point") ;;
    random_points seed x y ;;
    mG ← slope_at_G slope_fit x y Gx ;
    show_result title_info Gx Gy mG.

(** ** [GraphApp.draw_chart] *)

(** The inner [try] of the equation branch: a ValueError of [float] or
    [int] is replaced by the range message, any other exception passes. *)
Definition read_range (st : app) : result (float * float * Z) :=
  match float_of_string (str_strip (xmin_entry st)) with
  | None => Raise (ValueError RangeNotNumeric)
  | Some xmin =>
      match float_of_string (str_strip (xmax_entry st)) with
      | None => Raise (ValueError RangeNotNumeric)
      | Some xmax =>
          match float_of_string (str_strip (npts_entry st)) with
          | None => Raise (ValueError RangeNotNumeric)
          | Some f =>
              match int_of_float f with
              | Ok npts => Ok (xmin, xmax, npts)
              | Raise (ValueError _) => Raise (ValueError RangeNotNumeric)
              | Raise e => Raise e
              end
          end
      end
  end.

(** The body of the outer [try]. *)
Definition draw_chart_body (seed : entropy) : Gui unit :=
  fun st =>
    if String.eqb (mode st) point_mode then
      ('(x, y) ← lift (get_data (rows st)) ;
       if (length x <? 2)%nat then raise (ValueError NeedTwoPoints)
       else
         '(x, y) ← lift (sort_by_x x y) ;
         _plot_points seed x y "From x, y values") st
    else
      let expr := str_strip (eq_entry st) in
      if String.eqb expr "" then (Raise (ValueError NeedEquation), st)
      else
        ('(xmin, xmax, npts) ← lift (read_range st) ;
         if negb (F64.ltb xmin xmax) then raise (ValueError XmaxNotGreater)
         else if npts <? 10 then raise (ValueError TooFewPoints)
         else
           let x := linspace xmin xmax npts in
           '(x, y) ← (fun st : app =>
              match evaluate expr x (np_state st) with
              | (Ok y, (x', w)) => (Ok (x', y), set_np_state w st)
              | (Raise e, (_, w)) => (Raise e, set_np_state w st)
              end) ;
           _plot_points seed x y ("y = " +:+ expr)) st.

Definition draw_chart (seed : entropy) (st : app) : app :=
  match draw_chart_body seed st with
  | (Ok _, st') => st'
  | (Raise ex, st') => showerror ex st'
  end.

(** The window as [__init__] leaves it, before any request. *)
Definition initial_ax : list artist :=
  [PlainTitle "Your chart will appear here"; XLabel "x"; YLabel "y"; Grid].

End Window.

(** ** Notions the specification speaks of *)

(** The distance of an x value to the target, as the program computes it. *)
Definition distance (x0 v : float) : float := F64.abs (F64.sub v x0).

(** Position [i] holds the value nearest to [x0], and is the first such
    position: no value is strictly nearer and every earlier value is
    strictly farther (or at no comparable distance). *)
Definition nearest_first (xs : list float) (x0 : float) (i : nat) : Prop :=
  exists vi, xs !! i = Some vi /\
    F64.is_nan (distance x0 vi) = false /\
    (forall j vj, xs !! j = Some vj ->
       F64.ltb (distance x0 vj) (distance x0 vi) = false) /\
    (forall j vj, (j < i)%nat -> xs !! j = Some vj ->
       F64.leb (distance x0 vj) (distance x0 vi) = false).

(** The elements of [l] whose position is within [w] of position [i],
    the first element of [l] being at position [k]. *)
Fixpoint neighbours_from {A : Type} (k : nat) (l : list A) (i w : nat) : list A :=
  match l with
  | [] => []
  | v :: l' =>
      if (i - w <=? k)%nat && (k <=? i + w)%nat
      then v :: neighbours_from (S k) l' i w
      else neighbours_from (S k) l' i w
  end.

Definition neighbours {A : Type} (l : list A) (i w : nat) : list A :=
  neighbours_from 0 l i w.

(** Fewer than two distinct values: any two elements are the same value. *)
Definition few_distinct (l : list float) : bool :=
  forallb (fun u => forallb (F64.same u) l) l.

(** Both coordinates of a pair are finite. *)
Definition finite_pair (p : float * float) : bool :=
  F64.isfinite p.1 && F64.isfinite p.2.

(** * Properties *)

(** ** The order of binary64 *)

Ltac cmp_cases :=
  repeat match goal with
  | |- context [Z.compare ?a ?b] => destruct (Z.compare_spec a b)
  | |- context [Pos.compare_cont Eq ?a ?b] =>
      change (Pos.compare_cont Eq a b) with (Pos.compare a b);
      destruct (Pos.compare_spec a b)
  end.

Ltac float_cases :=
  unfold F64.sort_le, F64.same, F64.leb, F64.ltb, F64.eqb, F64.is_nan,
    SFleb, SFltb, SFeqb, SFcompare;
  repeat match goal with
  | f : float |- _ => destruct f as [[]|[]| |[] ? ?]
  | f : spec_float |- _ => destruct f as [[]|[]| |[] ? ?]
  end;
  simpl; try (intros; congruence); cmp_cases; simpl; intros; subst;
  try congruence; try lia.

Lemma leb_trans (a b c : float) :
  F64.leb a b = true -> F64.leb b c = true -> F64.leb a c = true.
Proof. float_cases. Qed.

Lemma leb_false_ltb (a b : float) :
  F64.is_nan a = false -> F64.is_nan b = false ->
  F64.leb a b = false -> F64.ltb b a = true.
Proof. float_cases. Qed.

Lemma ltb_leb (a b : float) : F64.ltb a b = true -> F64.leb a b = true.
Proof. float_cases. Qed.

Lemma ltb_not_leb (a b : float) : F64.ltb a b = true -> F64.leb b a = false.
Proof. float_cases. Qed.

Lemma leb_not_ltb (a b : float) : F64.leb a b = true -> F64.ltb b a = false.
Proof. float_cases. Qed.

Lemma leb_ltb_trans (a b c : float) :
  F64.leb a b = true -> F64.ltb b c = true -> F64.ltb a c = true.
Proof. float_cases. Qed.

Lemma leb_refl (a : float) : F64.is_nan a = false -> F64.leb a a = true.
Proof. float_cases. Qed.

Lemma leb_not_nan (a b : float) :
  F64.leb a b = true -> F64.is_nan a = false /\ F64.is_nan b = false.
Proof. float_cases; auto. Qed.

Lemma sort_le_total (a b : float) :
  F64.sort_le a b = false -> F64.sort_le b a = true.
Proof. float_cases. Qed.

Lemma sort_le_trans (a b c : float) :
  F64.sort_le a b = true -> F64.sort_le b c = true -> F64.sort_le a c = true.
Proof. float_cases. Qed.

Lemma same_refl (a : float) : F64.same a a = true.
Proof. float_cases. Qed.

Lemma same_sym (a b : float) : F64.same a b = true -> F64.same b a = true.
Proof. float_cases. Qed.

Lemma same_trans (a b c : float) :
  F64.same a b = true -> F64.same b c = true -> F64.same a c = true.
Proof. float_cases. Qed.

(** ** Array primitives *)

Lemma result_bind_ok {A B : Type} (m : result A) (k : A -> result B) (b : B) :
  (m ≫= k) = Ok b -> exists a, m = Ok a /\ k a = Ok b.
Proof. destruct m; simpl; [eauto | discriminate]. Qed.

(** Indexing with positions in range picks the elements at them. *)
Lemma take_in_range (a : list float) (idx : list nat) :
  Forall (fun i => (i < length a)%nat) idx ->
  Np.take a idx = Ok (map (fun i => default F64.nan (a !! i)) idx).
Proof.
  induction 1 as [|i idx Hi _ IH]; simpl; [done|].
  destruct (lookup_lt_is_Some_2 a i Hi) as [v Hv].
  rewrite Hv, IH. done.
Qed.

Lemma take_ok_inv (a : list float) (idx : list nat) (s : list float) :
  Np.take a idx = Ok s ->
  Forall (fun i => (i < length a)%nat) idx /\
  s = map (fun i => default F64.nan (a !! i)) idx.
Proof.
  revert s. induction idx as [|i idx IH]; simpl; intros s Hs.
  - inversion Hs. auto.
  - destruct (a !! i) as [v|] eqn:Hv; [|discriminate].
    apply result_bind_ok in Hs as (r & Hr & Hs). inversion Hs; subst.
    destruct (IH _ Hr) as [Hall ->]. split; [|done].
    constructor; [|done]. eapply lookup_lt_Some; eauto.
Qed.

Lemma take_length (a : list float) (idx : list nat) (s : list float) :
  Np.take a idx = Ok s -> length s = length idx.
Proof. intros [_ ->]%take_ok_inv. by rewrite length_map. Qed.

Lemma perm_seq_in_range (order : list nat) (n m : nat) :
  order ≡ₚ seq 0 n -> (n <= m)%nat -> Forall (fun i => (i < m)%nat) order.
Proof.
  intros Hp Hn. apply Forall_forall. intros i Hi.
  rewrite Hp in Hi. apply elem_of_seq in Hi. lia.
Qed.

Lemma map_lookup_seq {A : Type} (d : A) (l : list A) :
  map (fun i => default d (l !! i)) (seq 0 (length l)) = l.
Proof.
  apply list_eq. intros i. rewrite list_lookup_fmap.
  destruct (decide (i < length l)%nat) as [Hi|Hi].
  - rewrite lookup_seq_lt by done. simpl.
    destruct (lookup_lt_is_Some_2 l i Hi) as [v ->]. done.
  - rewrite lookup_seq_ge by lia. rewrite lookup_ge_None_2 by lia. done.
Qed.

(** Two arrays indexed by the same permutation of their positions are
    permuted together. *)
Lemma take_pairs_perm (x y xs ys : list float) (order : list nat) :
  length x = length y -> order ≡ₚ seq 0 (length x) ->
  Np.take x order = Ok xs -> Np.take y order = Ok ys ->
  zip xs ys ≡ₚ zip x y.
Proof.
  intros Hlen Hp [_ ->]%take_ok_inv [_ ->]%take_ok_inv.
  set (f := fun i => (default F64.nan (x !! i), default F64.nan (y !! i))).
  assert (Hz : forall l : list nat,
    zip (map (fun i => default F64.nan (x !! i)) l)
        (map (fun i => default F64.nan (y !! i)) l) = map f l).
  { induction l as [|i l IH]; simpl; [done|]. by rewrite IH. }
  rewrite Hz, Hp, <- Hz.
  rewrite map_lookup_seq. rewrite Hlen, map_lookup_seq. done.
Qed.

(** [np.argmin] answers a position of the array. *)
Lemma argmin_scan_lt (l : list float) (mp : float) (best k : nat) :
  (best < k)%nat -> (Np.argmin_scan mp best k l < k + length l)%nat.
Proof.
  revert mp best k. induction l as [|v l IH]; simpl; intros mp best k Hb; [lia|].
  destruct (F64.is_nan mp); [lia|].
  destruct (negb (F64.leb mp v)).
  - specialize (IH v k (S k)). lia.
  - specialize (IH mp best (S k)). lia.
Qed.

Lemma argmin_ok (a : list float) :
  a <> [] -> exists i, Np.argmin a = Ok i /\ (i < length a)%nat.
Proof.
  destruct a as [|v l]; [done|]. intros _. eexists; split; [done|].
  pose proof (argmin_scan_lt l v 0 1). simpl. lia.
Qed.

(** On distances none of which is NaN, the scan ends on the first
    position of the least one. *)
Lemma argmin_scan_least (l pre : list float) (mp : float) (best : nat) :
  Forall (fun d => F64.is_nan d = false) (pre ++ l) ->
  pre !! best = Some mp ->
  (forall j dj, pre !! j = Some dj -> F64.leb mp dj = true) ->
  (forall j dj, (j < best)%nat -> pre !! j = Some dj -> F64.leb dj mp = false) ->
  let r := Np.argmin_scan mp best (length pre) l in
  exists dr, (pre ++ l) !! r = Some dr /\
    (forall j dj, (pre ++ l) !! j = Some dj -> F64.leb dr dj = true) /\
    (forall j dj, (j < r)%nat -> (pre ++ l) !! j = Some dj -> F64.leb dj dr = false).
Proof.
  revert pre mp best. induction l as [|v l IH]; intros pre mp best Hnan Hb Hle Hfirst; simpl.
  - rewrite app_nil_r. eauto.
  - assert (Hmp : F64.is_nan mp = false).
    { eapply Forall_forall in Hnan; [exact Hnan|].
      apply elem_of_app. left. eapply list_elem_of_lookup_2; eauto. }
    assert (Hv : F64.is_nan v = false).
    { eapply Forall_forall in Hnan; [exact Hnan|].
      apply elem_of_app. right. left. }
    rewrite Hmp.
    replace (S (length pre)) with (length (pre ++ [v])) by (rewrite length_app; simpl; lia).
    replace (pre ++ v :: l) with ((pre ++ [v]) ++ l) by (by rewrite <- app_assoc).
    destruct (F64.leb mp v) eqn:Hcmp; simpl.
    + apply IH.
      * by rewrite <- app_assoc.
      * apply lookup_app_l_Some. done.
      * intros j dj Hj. apply lookup_app_Some in Hj as [Hj|[Hge Hj]]; [eauto|].
        apply list_lookup_singleton_Some in Hj as [_ <-]. done.
      * intros j dj Hlt Hj. apply lookup_app_Some in Hj as [Hj|[Hge Hj]]; [eauto|].
        apply lookup_lt_Some in Hb. lia.
    + pose proof (leb_false_ltb _ _ Hmp Hv Hcmp) as Hlt.
      apply IH.
      * by rewrite <- app_assoc.
      * rewrite lookup_app_r by lia. by rewrite Nat.sub_diag.
      * intros j dj Hj. apply lookup_app_Some in Hj as [Hj|[Hge Hj]].
        -- eapply leb_trans; [apply ltb_leb; exact Hlt|]. eauto.
        -- apply list_lookup_singleton_Some in Hj as [_ <-]. by apply leb_refl.
      * intros j dj Hj Hdj. apply lookup_app_Some in Hdj as [Hdj|[Hge Hdj]]; [|lia].
        destruct (F64.leb dj v) eqn:Hdv; [|done].
        pose proof (leb_ltb_trans _ _ _ Hdv Hlt) as Hbad.
        apply ltb_not_leb in Hbad. rewrite (Hle _ _ Hdj) in Hbad. done.
Qed.

Lemma argmin_least (d : list float) (i : nat) :
  Forall (fun v => F64.is_nan v = false) d ->
  Np.argmin d = Ok i ->
  exists di, d !! i = Some di /\
    (forall j dj, d !! j = Some dj -> F64.leb di dj = true) /\
    (forall j dj, (j < i)%nat -> d !! j = Some dj -> F64.leb dj di = false).
Proof.
  destruct d as [|v l]; [done|]. intros Hnan [= <-].
  apply (argmin_scan_least l [v] v 0); try done.
  - intros j dj Hj. apply list_lookup_singleton_Some in Hj as [_ <-].
    apply leb_refl. by inversion Hnan.
  - intros j dj Hj. lia.
Qed.


(** A slice around a position holds the neighbours of that position. *)
Lemma neighbours_from_take_drop {A : Type} (l : list A) (k i w : nat) :
  neighbours_from k l i w =
  take (Nat.min (i + w + 1) (k + length l) - Nat.max (i - w) k)
       (drop (Nat.max (i - w) k - k) l).
Proof.
  revert k. induction l as [|v l IH]; intros k.
  - simpl. by rewrite drop_nil, take_nil.
  - cbn [neighbours_from]. rewrite IH. cbn [length].
    destruct (i - w <=? k)%nat eqn:Hlo; [apply Nat.leb_le in Hlo|apply Nat.leb_gt in Hlo];
      [destruct (k <=? i + w)%nat eqn:Hhi;
         [apply Nat.leb_le in Hhi|apply Nat.leb_gt in Hhi]|]; cbn [andb].
    + replace (Nat.max (i - w) k - k)%nat with 0%nat by lia.
      replace (Nat.max (i - w) (S k) - S k)%nat with 0%nat by lia.
      replace (Nat.min (i + w + 1) (k + S (length l)) - Nat.max (i - w) k)%nat
        with (S (Nat.min (i + w + 1) (S k + length l) - Nat.max (i - w) (S k))) by lia.
      done.
    + replace (Nat.min (i + w + 1) (S k + length l) - Nat.max (i - w) (S k))%nat
        with 0%nat by lia.
      replace (Nat.min (i + w + 1) (k + S (length l)) - Nat.max (i - w) k)%nat
        with 0%nat by lia.
      done.
    + replace (Nat.max (i - w) k - k)%nat with (S (Nat.max (i - w) (S k) - S k)) by lia.
      cbn [drop]. f_equal. lia.
Qed.

Lemma slice_neighbours (a : list float) (i w : nat) :
  (i < length a)%nat ->
  Np.slice a (Z.max 0 (Z.of_nat i - Z.of_nat w))
             (Z.min (Z.of_nat (length a)) (Z.of_nat i + Z.of_nat w + 1))
  = neighbours a i w.
Proof.
  intros Hi. unfold Np.slice, Np.slice_bound, neighbours.
  rewrite neighbours_from_take_drop.
  destruct (Z.ltb_spec (Z.max 0 (Z.of_nat i - Z.of_nat w)) 0); [lia|].
  destruct (Z.ltb_spec (Z.min (Z.of_nat (length a)) (Z.of_nat i + Z.of_nat w + 1)) 0); [lia|].
  f_equal; [|f_equal]; lia.
Qed.

(** [np.unique] leaves fewer than two values exactly when any two
    elements are the same value. *)
Lemma unique_subset (l : list float) (u : float) : u ∈ Np.unique l -> u ∈ l.
Proof.
  revert u. induction l as [|v l IH]; simpl; intros u Hu; [done|].
  apply elem_of_cons in Hu as [->|Hu]; [left|].
  apply list_elem_of_filter in Hu as [_ Hu]. right. auto.
Qed.

Lemma unique_represents (l : list float) (w : float) :
  w ∈ l -> exists u, u ∈ Np.unique l /\ F64.same u w = true.
Proof.
  induction l as [|v l IH]; simpl; intros Hw; [by apply elem_of_nil in Hw|].
  apply elem_of_cons in Hw as [->|Hw].
  - exists v. split; [left|apply same_refl].
  - destruct (IH Hw) as (u & Hu & Hsame).
    destruct (F64.same v u) eqn:Hvu.
    + exists v. split; [left|]. eapply same_trans; eauto.
    + exists u. split; [|done]. right. apply list_elem_of_filter.
      split; [|done]. rewrite Hvu. done.
Qed.

Lemma few_distinct_spec (l : list float) :
  few_distinct l = true <-> forall u w, u ∈ l -> w ∈ l -> F64.same u w = true.
Proof.
  unfold few_distinct. rewrite forallb_forall. split.
  - intros H u w Hu Hw. apply list_elem_of_In in Hu. specialize (H u Hu).
    rewrite forallb_forall in H. apply H. by apply list_elem_of_In.
  - intros H u Hu. apply forallb_forall. intros w Hw.
    apply H; by apply list_elem_of_In.
Qed.

Lemma unique_few_distinct (l : list float) :
  (length (Np.unique l) <? 2)%nat = few_distinct l.
Proof.
  apply eq_true_iff_eq. rewrite few_distinct_spec, Nat.ltb_lt.
  destruct l as [|v l]; simpl.
  - split; [|lia]. intros _ u w Hu. by apply elem_of_nil in Hu.
  - split.
    + intros Hlen.
      assert (Hnil : filter (fun w => negb (F64.same v w)) (Np.unique l) = []).
      { destruct (filter _ _); [done|simpl in Hlen; lia]. }
      assert (Hv : forall w, w ∈ v :: l -> F64.same v w = true).
      { intros w Hw. apply elem_of_cons in Hw as [->|Hw]; [apply same_refl|].
        destruct (unique_represents l w Hw) as (u & Hu & Hsame).
        destruct (F64.same v u) eqn:Hvu; [eapply same_trans; eauto|].
        assert (Hin : u ∈ filter (fun w => negb (F64.same v w)) (Np.unique l)).
        { apply list_elem_of_filter. split; [|done]. by rewrite Hvu. }
        rewrite Hnil in Hin. by apply elem_of_nil in Hin. }
      intros u w Hu Hw. eapply same_trans; [apply same_sym; apply Hv; done|by apply Hv].
    + intros Hall.
      assert (Hnil : filter (fun w => negb (F64.same v w)) (Np.unique l) = []).
      { destruct (filter _ _) as [|u r] eqn:Hf; [done|].
        assert (Hin : u ∈ filter (fun w => negb (F64.same v w)) (Np.unique l)).
        { rewrite Hf. left. }
        apply list_elem_of_filter in Hin as [Hneg Hin].
        apply unique_subset in Hin.
        rewrite (Hall v u) in Hneg; [done|left|by right]. }
      rewrite Hnil. simpl. lia.
Qed.

(** ** The reordering by x *)

Section Sorting.
Context `{NP : NumPy}.

Lemma sort_by_x_ok (x y : list float) :
  length x = length y ->
  exists xs ys,
    sort_by_x x y = Ok (xs, ys) /\
    Np.take x (argsort x) = Ok xs /\ Np.take y (argsort x) = Ok ys /\
    length xs = length x /\ length ys = length x.
Proof.
  intros Hlen. unfold sort_by_x.
  pose proof (argsort_perm x) as Hp.
  pose proof (perm_seq_in_range _ _ (length x) Hp (le_n _)) as Hx.
  pose proof (perm_seq_in_range _ _ (length y) Hp ltac:(lia)) as Hy.
  rewrite (take_in_range _ _ Hx), (take_in_range _ _ Hy). simpl.
  eexists _, _. repeat split; rewrite ?length_map; by rewrite ?Hp, ?length_seq.
Qed.

Lemma sort_by_x_elem (x y xs ys : list float) (v : float) :
  sort_by_x x y = Ok (xs, ys) -> v ∈ xs -> v ∈ x.
Proof.
  unfold sort_by_x. intros H Hv.
  apply result_bind_ok in H as (xs' & Hxs & H).
  apply result_bind_ok in H as (ys' & Hys & H). inversion H; subst.
  apply take_ok_inv in Hxs as [Hall ->].
  apply list_elem_of_fmap in Hv as (i & -> & Hi).
  rewrite Forall_forall in Hall. specialize (Hall i Hi).
  destruct (lookup_lt_is_Some_2 x i Hall) as [u Hu]. rewrite Hu. simpl.
  eapply list_elem_of_lookup_2; eauto.
Qed.

(** X23.  The reordering of [slope_at_point] and of [draw_chart] yields
    the input pairs, permuted together, with x ascending in the
    library's order (NaN last); which of two pairs with equal x comes
    first is left to the library's sort. *)
Theorem sort_by_x_ascending (x y : list float) :
  length x = length y ->
  exists xs ys,
    sort_by_x x y = Ok (xs, ys) /\
    zip xs ys ≡ₚ zip x y /\
    StronglySorted (fun u v => F64.sort_le u v = true) xs.
Proof.
  intros Hlen.
  destruct (sort_by_x_ok x y Hlen) as (xs & ys & Hs & Hx & Hy & _ & _).
  exists xs, ys. split; [done|]. split.
  - apply (take_pairs_perm x y xs ys (argsort x) Hlen (argsort_perm x) Hx Hy).
  - eapply argsort_sorted; eauto.
Qed.

End Sorting.

(** ** The local slope *)

Section Slope.
Context `{NP : NumPy}.

(** On arrays of equal length neither the indexing nor [np.argmin]
    raises, and the fit is guarded: the function returns. *)
Lemma slope_at_point_returns (x y : list float) (x0 : float) (window : Z) :
  length x = length y -> exists r, slope_at_point x y x0 window = Ok r.
Proof.
  intros Hlen. unfold slope_at_point.
  destruct (Z.ltb_spec (Z.of_nat (length x)) 2) as [Hshort|Hlong]; [eauto|].
  destruct (sort_by_x_ok x y Hlen) as (xs & ys & -> & _ & _ & Hlx & _). simpl.
  destruct (argmin_ok (Np.abs_sub xs x0)) as (i & -> & _).
  { unfold Np.abs_sub. destruct xs; [simpl in Hlx; lia|done]. }
  simpl.
  repeat match goal with |- context [if ?c then _ else _] => destruct c end; eauto.
Qed.

(** What the guarded fit on the arrays [xa], [ya] answers: the slope when
    [np.polyfit] returns, NaN when it raises. *)
Definition guarded_fit (xa ya : list float) (r : float) : Prop :=
  match polyfit xa ya with
  | Ok (m, _) => r = m
  | Raise _ => r = F64.nan
  end.

(** C10.  For arrays of equal length, whatever they hold and whatever
    the target and the window, [slope_at_point] returns a float and does
    not raise.  The float is NaN when there are fewer than two pairs, or
    fewer than two distinct x values; otherwise it is the answer of the
    guarded fit on the window around the position [np.argmin] gives (on
    the whole of the sorted arrays when the window holds fewer than two
    distinct x values): the slope of that fit when it returns, and NaN
    when it raises.  So the float is NaN or the slope of a fit that
    succeeded. *)
Theorem slope_at_point_total (x y : list float) (x0 : float) (window : Z) :
  length x = length y ->
  exists r, slope_at_point x y x0 window = Ok r /\
    (r = F64.nan \/ exists xw yw m b, polyfit xw yw = Ok (m, b) /\ r = m) /\
    ((length x < 2)%nat -> r = F64.nan) /\
    ((2 <= length x)%nat ->
       exists xs ys i,
         sort_by_x x y = Ok (xs, ys) /\
         Np.argmin (Np.abs_sub xs x0) = Ok i /\
         let lo := Z.max 0 (Z.of_nat i - window) in
         let hi := Z.min (Z.of_nat (length xs)) (Z.of_nat i + window + 1) in
         if few_distinct (Np.slice xs lo hi) then
           if few_distinct xs then r = F64.nan else guarded_fit xs ys r
         else guarded_fit (Np.slice xs lo hi) (Np.slice ys lo hi) r).
Proof.
  intros Hlen. unfold slope_at_point.
  destruct (Z.ltb_spec (Z.of_nat (length x)) 2) as [Hshort|Hlong].
  { exists F64.nan. split; [done|]. split; [by left|]. split; [done|]. lia. }
  destruct (sort_by_x_ok x y Hlen) as (xs & ys & -> & _ & _ & Hlx & Hly).
  cbn [mbind result_bind].
  destruct (argmin_ok (Np.abs_sub xs x0)) as (i & Hargmin & Hi).
  { unfold Np.abs_sub. destruct xs; [simpl in Hlx; lia|done]. }
  rewrite Hargmin. cbn [mbind result_bind].
  assert (Hfit : forall xw yw,
    guarded_fit xw yw (fit_slope_or_nan xw yw) /\
    (fit_slope_or_nan xw yw = F64.nan \/
     exists xw' yw' m b, polyfit xw' yw' = Ok (m, b) /\ fit_slope_or_nan xw yw = m)).
  { intros xw yw. unfold guarded_fit, fit_slope_or_nan.
    destruct (polyfit xw yw) as [[m b]|e] eqn:Hp; [|by split; [|left]].
    split; [done|]. right. exists xw, yw, m, b. done. }
  pose proof (unique_few_distinct xs) as Hu.
  rewrite unique_few_distinct.
  assert (Hge : (2 <=? length (Np.unique xs))%nat = negb (few_distinct xs)).
  { rewrite <- Hu. destruct (Nat.ltb_spec (length (Np.unique xs)) 2),
      (Nat.leb_spec 2 (length (Np.unique xs))); simpl; lia || done. }
  rewrite Hge.
  set (lo := Z.max 0 (Z.of_nat i - window)).
  set (hi := Z.min (Z.of_nat (length xs)) (Z.of_nat i + window + 1)).
  destruct (few_distinct (Np.slice xs lo hi)) eqn:Hw.
  - destruct (few_distinct xs) eqn:Hall; cbn [negb].
    + exists F64.nan. split; [done|]. split; [by left|]. split; [done|]. intros _.
      exists xs, ys, i. split; [done|]. split; [done|]. cbv zeta. fold lo hi.
      by rewrite Hw, Hall.
    + destruct (Hfit xs ys) as [Hg Hold].
      exists (fit_slope_or_nan xs ys). split; [done|]. split; [done|]. split; [lia|].
      intros _. exists xs, ys, i. split; [done|]. split; [done|]. cbv zeta. fold lo hi.
      by rewrite Hw, Hall.
  - destruct (Hfit (Np.slice xs lo hi) (Np.slice ys lo hi)) as [Hg Hold].
    eexists. split; [done|]. split; [done|]. split; [lia|].
    intros _. exists xs, ys, i. split; [done|]. split; [done|]. cbv zeta. fold lo hi.
    by rewrite Hw.
Qed.

(** The slope of the window around position [i] of the sorted arrays,
    widened to the whole array when the window holds fewer than two
    distinct x values, NaN when the whole array does. *)
Definition window_slope (xs ys : list float) (i : nat) : float :=
  if few_distinct (neighbours xs i 3) then
    if few_distinct xs then F64.nan else fit_slope_or_nan xs ys
  else fit_slope_or_nan (neighbours xs i 3) (neighbours ys i 3).

(** [slope_at_point] answers the slope of the window around the first
    position nearest to the target in the sorted x. *)
Definition locates_window (x y : list float) (x0 : float) : Prop :=
  exists xs ys i,
    sort_by_x x y = Ok (xs, ys) /\
    nearest_first xs x0 i /\
    slope_at_point x y x0 3 = Ok (window_slope xs ys i).

(** C1 (amended).  On at least two pairs, when no distance to the target
    is NaN, [slope_at_point] locates the first position nearest to the
    target in the sorted x, takes the neighbours within three positions
    of it, widens to the whole array when these hold fewer than two
    distinct x values, answers NaN when the whole array does too, and
    otherwise answers the slope of the least-squares line through the
    window (NaN if the fit raises). *)
Theorem slope_at_point_window (x y : list float) (x0 : float) :
  (2 <= length x)%nat ->
  length x = length y ->
  Forall (fun v => F64.is_nan (distance x0 v) = false) x ->
  locates_window x y x0.
Proof.
  intros Hn Hlen Hnan. unfold locates_window, window_slope, slope_at_point.
  destruct (Z.ltb_spec (Z.of_nat (length x)) 2) as [Hshort|_]; [lia|].
  destruct (sort_by_x_ok x y Hlen) as (xs & ys & Hsort & _ & _ & Hlx & Hly).
  rewrite Hsort. simpl.
  assert (Hd : Forall (fun d => F64.is_nan d = false) (Np.abs_sub xs x0)).
  { unfold Np.abs_sub. apply Forall_fmap, Forall_forall. intros v Hv.
    rewrite Forall_forall in Hnan. apply Hnan. eapply sort_by_x_elem; eauto. }
  destruct (argmin_ok (Np.abs_sub xs x0)) as (i & Hi & Hlt).
  { unfold Np.abs_sub. destruct xs; [simpl in Hlx; lia|done]. }
  rewrite Hi. simpl.
  destruct (argmin_least _ _ Hd Hi) as (di & Hdi & Hleast & Hfirst).
  unfold Np.abs_sub in Hdi, Hleast, Hfirst, Hlt. rewrite length_map in Hlt.
  exists xs, ys, i. split; [done|]. split.
  - rewrite list_lookup_fmap in Hdi.
    destruct (xs !! i) as [vi|] eqn:Hvi; [|done]. simpl in Hdi. inversion Hdi; subst di.
    exists vi. split; [done|]. split.
    { rewrite Forall_forall in Hd. apply Hd. unfold Np.abs_sub.
      apply list_elem_of_fmap. exists vi. split; [done|].
      eapply list_elem_of_lookup_2; eauto. }
    split.
    + intros j vj Hj. apply leb_not_ltb. apply (Hleast j).
      rewrite list_lookup_fmap, Hj. done.
    + intros j vj Hji Hj. apply (Hfirst j); [done|].
      rewrite list_lookup_fmap, Hj. done.
  - change 3 with (Z.of_nat 3).
    rewrite (slice_neighbours xs i 3 Hlt).
    replace (Z.of_nat (length xs)) with (Z.of_nat (length ys)) by lia.
    rewrite (slice_neighbours ys i 3) by lia.
    change (match length (Np.unique xs) with S (S _) => true | _ => false end)
      with (2 <=? length (Np.unique xs))%nat.
    rewrite !unique_few_distinct.
    replace (2 <=? length (Np.unique xs))%nat with (negb (few_distinct xs)).
    2:{ rewrite <- unique_few_distinct.
        destruct (Nat.ltb_spec (length (Np.unique xs)) 2), (Nat.leb_spec 2 (length (Np.unique xs)));
          simpl; try done; lia. }
    destruct (few_distinct (neighbours xs i 3)), (few_distinct xs); done.
Qed.

End Slope.

(** ** The plotting routine *)

(** The elements of [a] at the positions [idx]. *)
Definition gather (a : list float) (idx : list nat) : list float :=
  map (fun i => default F64.nan (a !! i)) idx.

(** What a slope is shown as: a dash for NaN. *)
Definition shown (mG : float) : option float :=
  if F64.is_nan mG then None else Some mG.

(** The artists of the random-points step. *)
Definition is_highlight (a : artist) : bool :=
  match a with
  | Scatter _ _ label => String.eqb label "Random points"
  | Annotate _ _ => true
  | _ => false
  end.

(** The samples highlighted on the axes. *)
Definition highlighted (l : list artist) : list (list float * list float) :=
  flat_map (fun a =>
    match a with
    | Scatter xs ys label =>
        if String.eqb label "Random points" then [(xs, ys)] else []
    | _ => []
    end) l.

(** How many samples are highlighted. *)
Definition highlight_count (l : list artist) : nat :=
  list_sum (map (fun p : list float * list float => length p.1) (highlighted l)).

(** The best-fit lines on the axes. *)
Definition fit_lines (l : list artist) : list (list float * list float) :=
  flat_map (fun a =>
    match a with
    | Line xs ys _ => [(xs, ys)]
    | _ => []
    end) l.

(** The axes without the artists of the random-points step. *)
Definition without_highlights (l : list artist) : list artist :=
  flat_map (fun a => if is_highlight a then [] else [a]) l.

Section Plot.
Context `{NP : NumPy} `{PY : Python}.

Lemma finite_rows_zip (x y : list float) :
  length x = length y ->
  zip (Np.compress x (Np.finite_mask x y)) (Np.compress y (Np.finite_mask x y))
    = filter (fun p => finite_pair p) (zip x y) /\
  length (Np.compress x (Np.finite_mask x y))
    = length (Np.compress y (Np.finite_mask x y)).
Proof.
  revert y. induction x as [|u x IH]; intros [|v y] Hlen; simpl in *; try done.
  destruct (IH y ltac:(lia)) as [Hz Hl].
  rewrite filter_cons.
  destruct (decide (finite_pair (u, v))) as [Hf|Hf]; unfold finite_pair in Hf; simpl in Hf.
  - apply Is_true_true in Hf. rewrite Hf. simpl. rewrite Hz. split; [done|lia].
  - apply Is_true_false in Hf. rewrite Hf. done.
Qed.

Lemma finite_rows_ok (x y : list float) :
  length x = length y ->
  finite_rows x y =
    Ok (Np.compress x (Np.finite_mask x y), Np.compress y (Np.finite_mask x y)).
Proof. intros Hlen. unfold finite_rows. rewrite Hlen, Nat.eqb_refl. done. Qed.

Lemma set_ax_set_ax (f g : list artist -> list artist) (st : app) :
  set_ax f (set_ax g st) = set_ax (fun l => f (g l)) st.
Proof. done. Qed.

Lemma annotate_all_run (rx ry : list float) (st : app) :
  annotate_all rx ry st = (Ok (), set_ax (fun l => l ++ zip_with Annotate rx ry) st).
Proof.
  revert ry st. induction rx as [|xi rx IH]; intros [|yi ry] st; simpl;
    try (unfold mret, gui_ret, set_ax; destruct st; simpl; by rewrite app_nil_r).
  unfold mbind, gui_bind, draw, update. simpl. rewrite IH.
  unfold set_ax. simpl. by rewrite <- app_assoc.
Qed.

Lemma reset_axes_run (st : app) :
  reset_axes st = (Ok (), set_ax (fun _ => [Grid; XLabel "x"; YLabel "y"]) st).
Proof. done. Qed.

Lemma take_gather (a : list float) (idx : list nat) :
  Forall (fun i => (i < length a)%nat) idx -> Np.take a idx = Ok (gather a idx).
Proof. apply take_in_range. Qed.

Lemma take_argsort (a b : list float) :
  length a = length b -> Np.take b (argsort a) = Ok (gather b (argsort a)).
Proof.
  intros Hlen. apply take_gather.
  eapply perm_seq_in_range; [apply argsort_perm|lia].
Qed.

Lemma best_fit_run (x y : list float) (st : app) :
  best_fit x y st =
    if String.eqb (mode st) point_mode && (2 <=? length x)%nat then
      match polyfit x y with
      | Ok (c0, c1) =>
          (Ok (Some c0),
           set_ax (fun l => l ++ [Line (gather x (argsort x))
                                       (gather (polyval c0 c1 x) (argsort x))
                                       "Best fit line"]) st)
      | Raise e => (Raise e, st)
      end
    else (Ok None, st).
Proof.
  unfold best_fit.
  destruct (String.eqb (mode st) point_mode && (2 <=? length x)%nat); [|done].
  unfold mbind, gui_bind, lift. destruct (polyfit x y) as [[c0 c1]|e]; [|done].
  rewrite (take_argsort x x eq_refl).
  rewrite (take_argsort x (polyval c0 c1 x)) by (unfold polyval; by rewrite length_map).
  done.
Qed.

Lemma random_points_run (seed : entropy) (x y : list float) (st : app) :
  length x = length y -> (2 <= length x)%nat ->
  exists idx,
    choice seed (length x) 2 = Ok idx /\
    NoDup idx /\ length idx = 2%nat /\ Forall (fun i => (i < length x)%nat) idx /\
    random_points seed x y st =
      (Ok (), set_ax (fun l => l ++
         Scatter (gather x idx) (gather y idx) "Random points"
           :: zip_with Annotate (gather x idx) (gather y idx)) st).
Proof.
  intros Hlen Hn. unfold random_points.
  destruct (Nat.leb_spec 2 (length x)) as [_|?]; [|lia].
  replace (Nat.min 2 (length x)) with 2%nat by lia.
  pose proof (choice_total seed (length x) 2 Hn) as Htot.
  destruct (choice seed (length x) 2) as [idx|e] eqn:Hc; [|done].
  destruct (choice_distinct _ _ _ _ Hc) as (Hnd & Hl & Hall).
  exists idx. repeat split; try done.
  unfold mbind, gui_bind, lift.
  rewrite (take_gather x idx Hall).
  rewrite (take_gather y idx) by (by rewrite <- Hlen).
  unfold draw, update. rewrite annotate_all_run.
  rewrite set_ax_set_ax. f_equal. unfold set_ax. f_equal.
  by rewrite <- app_assoc.
Qed.

Lemma random_points_few (seed : entropy) (x y : list float) (st : app) :
  (length x < 2)%nat -> random_points seed x y st = (Ok (), st).
Proof.
  intros Hn. unfold random_points.
  destruct (Nat.leb_spec 2 (length x)) as [?|_]; [lia|done].
Qed.

(** The state a successful run ends in. *)
Definition finish (st : app) (l : list artist) (s : status_text) : app :=
  set_canvas l (set_status s (set_ax (fun _ => l) st)).

Lemma show_result_run (title : string) (Gx Gy mG : float) (st : app) :
  show_result title Gx Gy mG st =
    (Ok (), finish st (ax st ++ [Title title Gx Gy (shown mG); Legend])
              (GStatus Gx Gy (shown mG))).
Proof.
  unfold show_result, finish, mbind, gui_bind, draw, update, set_ax, set_status,
    set_canvas, shown. simpl. by rewrite <- app_assoc.
Qed.

(** The routine, block by block, once the rows have been filtered. *)
Lemma plot_points_run (seed : entropy) (x y : list float) (title : string) (st : app) :
  length x = length y ->
  let xf := Np.compress x (Np.finite_mask x y) in
  let yf := Np.compress y (Np.finite_mask x y) in
  _plot_points seed x y title st =
    if (length xf =? 0)%nat then
      (Raise (ValueError NoFiniteData),
       set_ax (fun _ => [Grid; XLabel "x"; YLabel "y"]) st)
    else
      let st1 := set_ax (fun _ => [Grid; XLabel "x"; YLabel "y";
                                   Scatter xf yf "Data points"]) st in
      match best_fit xf yf st1 with
      | (Raise e, st2) => (Raise e, st2)
      | (Ok slope_fit, st2) =>
          let st3 := set_ax (fun l => l ++ [Scatter [mean xf] [mean yf] "G Point"]) st2 in
          match random_points seed xf yf st3 with
          | (Raise e, st4) => (Raise e, st4)
          | (Ok _, st4) =>
              match slope_at_G slope_fit xf yf (mean xf) st4 with
              | (Raise e, st5) => (Raise e, st5)
              | (Ok mG, st5) => show_result title (mean xf) (mean yf) mG st5
              end
          end
      end.
Proof.
  intros Hlen xf yf. unfold _plot_points.
  unfold mbind at 1. unfold gui_bind at 1. rewrite reset_axes_run.
  unfold mbind at 1. unfold gui_bind at 1. unfold lift at 1.
  rewrite (finite_rows_ok x y Hlen). fold xf yf.
  destruct (length xf =? 0)%nat; [done|].
  unfold mbind at 1. unfold gui_bind at 1. unfold draw at 1, update at 1.
  rewrite set_ax_set_ax.
  unfold mbind at 1. unfold gui_bind at 1.
  destruct (best_fit xf yf _) as [[slope_fit|e] st2]; [|done].
  unfold mbind at 1. unfold gui_bind at 1. unfold draw at 1, update at 1.
  unfold mbind at 1. unfold gui_bind at 1.
  destruct (random_points seed xf yf _) as [[[]|e] st4]; [|done].
  unfold mbind at 1. unfold gui_bind at 1.
  destruct (slope_at_G slope_fit xf yf (mean xf) st4) as [[mG|e] st5]; done.
Qed.

Lemma compress_all_false (x y : list float) :
  length x = length y ->
  Forall (fun v => F64.isfinite v = false) y ->
  Np.compress x (Np.finite_mask x y) = [].
Proof.
  revert y. induction x as [|u x IH]; intros [|v y] Hlen Hy; simpl in *; try done.
  inversion Hy as [|? ? Hv Hy']; subst. rewrite Hv, andb_false_r. apply IH; [lia|done].
Qed.

Lemma slope_at_G_run (slope_fit : option float) (x y : list float) (Gx : float) (st : app) :
  length x = length y ->
  exists mG,
    slope_at_G slope_fit x y Gx st = (Ok mG, st) /\
    match slope_fit with
    | Some m => mG = m
    | None => slope_at_point x y Gx 3 = Ok mG
    end.
Proof.
  intros Hlen. destruct slope_fit as [m|]; simpl.
  - exists m. done.
  - destruct (slope_at_point_returns x y Gx 3 Hlen) as (r & Hr).
    exists r. unfold lift. by rewrite Hr.
Qed.

(** The artists every run puts on the axes first. *)
Definition base_artists (xf yf : list float) : list artist :=
  [Grid; XLabel "x"; YLabel "y"; Scatter xf yf "Data points"].

(** How the best-fit step went: [slope_fit] and what it drew. *)
Definition fit_step (st : app) (xf yf : list float)
    (slope_fit : option float) (drawn : list artist) : Prop :=
  (mode st = point_mode /\ (2 <= length xf)%nat /\
     exists c0 c1, polyfit xf yf = Ok (c0, c1) /\ slope_fit = Some c0 /\
       drawn = [Line (gather xf (argsort xf))
                     (gather (polyval c0 c1 xf) (argsort xf)) "Best fit line"])
  \/ ((mode st <> point_mode \/ (length xf < 2)%nat) /\ slope_fit = None /\ drawn = []).

(** How the random-points step went. *)
Definition random_step (seed : entropy) (xf yf : list float) (drawn : list artist) : Prop :=
  ((2 <= length xf)%nat /\
     exists idx, choice seed (length xf) 2 = Ok idx /\
       NoDup idx /\ length idx = 2%nat /\ Forall (fun i => (i < length xf)%nat) idx /\
       drawn = Scatter (gather xf idx) (gather yf idx) "Random points"
                 :: zip_with Annotate (gather xf idx) (gather yf idx))
  \/ ((length xf < 2)%nat /\ drawn = []).

(** Every run on rows of which some are finite either stops at a fit
    that raises, or ends with the chart drawn. *)
Lemma plot_points_cases (seed : entropy) (x y : list float) (title : string) (st : app) :
  length x = length y ->
  let xf := Np.compress x (Np.finite_mask x y) in
  let yf := Np.compress y (Np.finite_mask x y) in
  xf <> [] ->
  (exists e, mode st = point_mode /\ (2 <= length xf)%nat /\
     polyfit xf yf = Raise e /\
     _plot_points seed x y title st = (Raise e, set_ax (fun _ => base_artists xf yf) st))
  \/
  (exists slope_fit fitted random mG,
     fit_step st xf yf slope_fit fitted /\
     random_step seed xf yf random /\
     match slope_fit with
     | Some m => mG = m
     | None => slope_at_point xf yf (mean xf) 3 = Ok mG
     end /\
     _plot_points seed x y title st =
       (Ok (),
        finish st
          (base_artists xf yf ++ fitted ++ [Scatter [mean xf] [mean yf] "G Point"]
             ++ random ++ [Title title (mean xf) (mean yf) (shown mG); Legend])
          (GStatus (mean xf) (mean yf) (shown mG)))).
Proof.
  intros Hlen xf yf Hne.
  destruct (finite_rows_zip x y Hlen) as [_ Hleq]. fold xf yf in Hleq.
  rewrite (plot_points_run seed x y title st Hlen). fold xf yf.
  destruct (Nat.eqb_spec (length xf) 0) as [H0|_].
  { destruct xf; [done|simpl in H0; lia]. }
  cbv zeta. rewrite best_fit_run.
  assert (Hfit : forall b, b = (String.eqb (mode (set_ax (fun _ =>
      [Grid; XLabel "x"; YLabel "y"; Scatter xf yf "Data points"]) st)) point_mode
      && (2 <=? length xf)%nat) ->
    if b then mode st = point_mode /\ (2 <= length xf)%nat
    else mode st <> point_mode \/ (length xf < 2)%nat).
  { intros b ->. simpl mode.
    destruct (String.eqb_spec (mode st) point_mode) as [Hm|Hm],
             (Nat.leb_spec 2 (length xf)) as [Hl|Hl]; simpl; auto. }
  specialize (Hfit _ eq_refl).
  destruct (String.eqb _ point_mode && (2 <=? length xf)%nat).
  - destruct Hfit as [Hm H2].
    destruct (polyfit xf yf) as [[c0 c1]|e] eqn:Hp.
    2:{ left. exists e. done. }
    right.
    match goal with |- context [random_points seed xf yf ?s] =>
      destruct (random_points_run seed xf yf s Hleq H2) as (idx & Hc & Hnd & Hl & Hall & ->)
    end.
    match goal with |- context [slope_at_G ?f xf yf ?g ?s] =>
      destruct (slope_at_G_run f xf yf g s Hleq) as (mG & -> & HmG)
    end.
    rewrite show_result_run.
    exists (Some c0),
      [Line (gather xf (argsort xf)) (gather (polyval c0 c1 xf) (argsort xf))
         "Best fit line"],
      (Scatter (gather xf idx) (gather yf idx) "Random points"
         :: zip_with Annotate (gather xf idx) (gather yf idx)), mG.
    split; [left; eauto 10|].
    split; [left; eauto 10|]. split; [done|].
    unfold finish, base_artists. simpl. rewrite <- ?app_assoc. done.
  - right.
    destruct (Nat.le_gt_cases 2 (length xf)) as [H2|H2].
    + match goal with |- context [random_points seed xf yf ?s] =>
        destruct (random_points_run seed xf yf s Hleq H2) as (idx & Hc & Hnd & Hl & Hall & ->)
      end.
      match goal with |- context [slope_at_G ?f xf yf ?g ?s] =>
        destruct (slope_at_G_run f xf yf g s Hleq) as (mG & -> & HmG)
      end.
      rewrite show_result_run.
      exists None, [],
        (Scatter (gather xf idx) (gather yf idx) "Random points"
           :: zip_with Annotate (gather xf idx) (gather yf idx)), mG.
      split; [right; eauto|].
      split; [left; eauto 10|]. split; [done|].
      unfold finish, base_artists. simpl. rewrite <- ?app_assoc. done.
    + rewrite random_points_few by done.
      match goal with |- context [slope_at_G ?f xf yf ?g ?s] =>
        destruct (slope_at_G_run f xf yf g s Hleq) as (mG & -> & HmG)
      end.
      rewrite show_result_run.
      exists None, [], [], mG. split; [right; eauto|].
      split; [right; eauto|]. split; [done|].
      unfold finish, base_artists. simpl. rewrite <- ?app_assoc. done.
Qed.

(** C7.  The routine keeps exactly the pairs whose two coordinates are
    finite, in their order, and goes on with them; when none is left it
    raises the "no valid finite data" error, which is so in particular
    when no y value is finite. *)
Theorem plot_points_drops_non_finite
    (seed : entropy) (x y : list float) (title : string) (st : app) :
  length x = length y ->
  exists xf yf,
    finite_rows x y = Ok (xf, yf) /\
    zip xf yf = filter (fun p => finite_pair p) (zip x y) /\
    (xf = [] ->
       (_plot_points seed x y title st).1 = Raise (ValueError NoFiniteData)) /\
    (xf <> [] ->
       Scatter xf yf "Data points" ∈ ax (_plot_points seed x y title st).2) /\
    (Forall (fun v => F64.isfinite v = false) y ->
       (_plot_points seed x y title st).1 = Raise (ValueError NoFiniteData)).
Proof.
  intros Hlen.
  destruct (finite_rows_zip x y Hlen) as [Hzip Hleq].
  pose proof (plot_points_run seed x y title st Hlen) as Hrun. cbv zeta in Hrun.
  pose proof (plot_points_cases seed x y title st Hlen) as Hcases. cbv zeta in Hcases.
  pose proof (finite_rows_ok x y Hlen) as Hrows.
  set (xf := Np.compress x (Np.finite_mask x y)) in *.
  set (yf := Np.compress y (Np.finite_mask x y)) in *.
  clearbody xf yf.
  exists xf, yf. split; [done|]. split; [done|].
  assert (Hempty : xf = [] ->
    (_plot_points seed x y title st).1 = Raise (ValueError NoFiniteData)).
  { intros He. rewrite Hrun, He. done. }
  split; [done|]. split.
  - intros Hne.
    destruct (Hcases Hne) as [(e & _ & _ & _ & ->)|(sf & fl & rn & mG & _ & _ & _ & ->)];
      simpl; unfold base_artists.
    + do 3 right. left.
    + do 3 right. left.
  - intros Hy. apply Hempty.
    pose proof (compress_all_false x y Hlen Hy) as Hnil.
    rewrite (finite_rows_ok x y Hlen) in Hrows. congruence.
Qed.

Lemma finite_rows_inv (x y xf yf : list float) :
  finite_rows x y = Ok (xf, yf) ->
  length x = length y /\
  xf = Np.compress x (Np.finite_mask x y) /\
  yf = Np.compress y (Np.finite_mask x y).
Proof.
  unfold finite_rows. destruct (Nat.eqb_spec (length x) (length y)) as [Hl|Hl].
  - intros [= <- <-]. done.
  - destruct (_ || _); discriminate.
Qed.

Lemma fit_lines_annotate (a b : list float) : fit_lines (zip_with Annotate a b) = [].
Proof. revert b. induction a as [|u a IH]; intros [|v b]; simpl; auto. Qed.

Lemma highlighted_annotate (a b : list float) : highlighted (zip_with Annotate a b) = [].
Proof. revert b. induction a as [|u a IH]; intros [|v b]; simpl; auto. Qed.

Lemma without_highlights_annotate (a b : list float) :
  without_highlights (zip_with Annotate a b) = [].
Proof. revert b. induction a as [|u a IH]; intros [|v b]; simpl; auto. Qed.

Lemma fit_step_lines (st : app) (xf yf : list float) (sf : option float) (l : list artist) :
  fit_step st xf yf sf l ->
  highlighted l = [] /\ without_highlights l = l /\
  match sf with
  | Some m => exists b, polyfit xf yf = Ok (m, b) /\
      fit_lines l = [(gather xf (argsort xf), gather (polyval m b xf) (argsort xf))]
  | None => fit_lines l = []
  end.
Proof.
  intros [(_ & _ & c0 & c1 & Hp & -> & ->)|(_ & -> & ->)]; simpl; eauto.
Qed.

Lemma random_step_lines (seed : entropy) (xf yf : list float) (l : list artist) :
  random_step seed xf yf l -> fit_lines l = [] /\ without_highlights l = [].
Proof.
  intros [(_ & idx & _ & _ & _ & _ & ->)|(_ & ->)]; simpl; [|done].
  by rewrite fit_lines_annotate, without_highlights_annotate.
Qed.

(** C6 (amended).  In point mode with at least two finite points the
    routine calls the least-squares fit on them.  When the fit returns,
    the slope of its line is reported as the slope at G and the line is
    drawn; when the fit raises, the run fails with that error, and no
    slope is reported.  In any other mode the routine draws no fitted
    line and reports the local estimate of [slope_at_point] at Gx. *)
Theorem slope_at_centroid
    (seed : entropy) (x y xf yf : list float) (title : string) (st : app) :
  finite_rows x y = Ok (xf, yf) ->
  (mode st = point_mode -> (2 <= length xf)%nat ->
     match polyfit xf yf with
     | Ok (m, b) =>
         exists st', _plot_points seed x y title st = (Ok (), st') /\
           status st' = GStatus (mean xf) (mean yf) (shown m) /\
           fit_lines (ax st') =
             [(gather xf (argsort xf), gather (polyval m b xf) (argsort xf))]
     | Raise e =>
         (_plot_points seed x y title st).1 = Raise e /\
         status (_plot_points seed x y title st).2 = status st /\
         canvas (_plot_points seed x y title st).2 = canvas st /\
         fit_lines (ax (_plot_points seed x y title st).2) = []
     end) /\
  (mode st <> point_mode -> xf <> [] ->
     exists st' mG, _plot_points seed x y title st = (Ok (), st') /\
       slope_at_point xf yf (mean xf) 3 = Ok mG /\
       status st' = GStatus (mean xf) (mean yf) (shown mG) /\
       fit_lines (ax st') = []).
Proof.
  intros (Hlen & -> & ->)%finite_rows_inv.
  pose proof (plot_points_cases seed x y title st Hlen) as Hcases. cbv zeta in Hcases.
  set (xf := Np.compress x (Np.finite_mask x y)) in *.
  set (yf := Np.compress y (Np.finite_mask x y)) in *.
  clearbody xf yf. split.
  - intros Hm H2.
    destruct Hcases as [(e & _ & _ & Hp & ->)|(sf & fl & rn & mG & Hfit & Hrn & HmG & ->)].
    { destruct xf as [|? [|]]; simpl in H2; try lia; done. }
    { rewrite Hp. cbn. done. }
    destruct Hfit as [(_ & _ & c0 & c1 & Hp & -> & ->)|([?|?] & _ & _)]; [|done|lia].
    rewrite Hp. subst mG. eexists. split; [done|]. split; [done|].
    destruct (random_step_lines _ _ _ _ Hrn) as [Hl _].
    simpl. unfold fit_lines in *. rewrite flat_map_app, Hl. done.
  - intros Hm Hne.
    destruct (Hcases Hne) as [(e & ? & _)|(sf & fl & rn & mG & Hfit & Hrn & HmG & ->)];
      [done|].
    destruct Hfit as [(? & _)|(_ & -> & ->)]; [done|].
    eexists _, mG. split; [done|]. split; [done|]. split; [done|].
    destruct (random_step_lines _ _ _ _ Hrn) as [Hl _].
    simpl. unfold fit_lines in *. rewrite flat_map_app, Hl. done.
Qed.

(** What a run that succeeds has highlighted. *)
Lemma highlighted_on_success
    (seed : entropy) (x y xf yf : list float) (title : string) (st st' : app) :
  finite_rows x y = Ok (xf, yf) ->
  _plot_points seed x y title st = (Ok (), st') ->
  if (2 <=? length xf)%nat then
    exists idx, choice seed (length xf) 2 = Ok idx /\
      NoDup idx /\ length idx = 2%nat /\ Forall (fun i => (i < length xf)%nat) idx /\
      highlighted (ax st') = [(gather xf idx, gather yf idx)] /\
      highlight_count (ax st') = 2%nat
  else highlight_count (ax st') = 0%nat.
Proof.
  intros (Hlen & -> & ->)%finite_rows_inv Hrun.
  pose proof (plot_points_cases seed x y title st Hlen) as Hcases. cbv zeta in Hcases.
  pose proof (plot_points_run seed x y title st Hlen) as Hrun'. cbv zeta in Hrun'.
  set (xf := Np.compress x (Np.finite_mask x y)) in *.
  set (yf := Np.compress y (Np.finite_mask x y)) in *.
  clearbody xf yf.
  assert (Hne : xf <> []).
  { intros ->. rewrite Hrun' in Hrun. done. }
  destruct (Hcases Hne) as [(e & _ & _ & _ & He)|(sf & fl & rn & mG & Hfit & Hrn & _ & He)];
    rewrite He in Hrun; [done|].
  assert (Hst : st' = finish st
      (base_artists xf yf ++ fl ++ [Scatter [mean xf] [mean yf] "G Point"] ++ rn
         ++ [Title title (mean xf) (mean yf) (shown mG); Legend])
      (GStatus (mean xf) (mean yf) (shown mG))) by congruence.
  subst st'. clear Hrun He.
  destruct (fit_step_lines _ _ _ _ _ Hfit) as (Hfl & _ & _).
  assert (Hax : forall rn' : list artist,
    highlighted (ax (finish st
      (base_artists xf yf ++ fl ++ [Scatter [mean xf] [mean yf] "G Point"] ++ rn'
         ++ [Title title (mean xf) (mean yf) (shown mG); Legend])
      (GStatus (mean xf) (mean yf) (shown mG)))) = highlighted rn').
  { intros rn'. simpl. unfold highlighted in *.
    rewrite flat_map_app, Hfl. simpl. rewrite flat_map_app. simpl.
    by rewrite app_nil_r. }
  unfold highlight_count. rewrite Hax.
  destruct Hrn as [(H2 & idx & Hc & Hnd & Hl & Hall & ->)|(H2 & ->)].
  - destruct (Nat.leb_spec 2 (length xf)); [|lia].
    assert (Hh : highlighted (Scatter (gather xf idx) (gather yf idx) "Random points"
                    :: zip_with Annotate (gather xf idx) (gather yf idx))
                 = [(gather xf idx, gather yf idx)]).
    { simpl. fold (highlighted (zip_with Annotate (gather xf idx) (gather yf idx))).
      by rewrite highlighted_annotate. }
    exists idx. rewrite Hh. repeat split; try done.
    simpl. unfold gather. rewrite length_map. lia.
  - destruct (Nat.leb_spec 2 (length xf)); [lia|]. done.
Qed.

(** A request whose rows hold no finite pair stops after the axes have
    been cleared and set up again. *)
Lemma plot_points_no_finite_data
    (seed : entropy) (x y : list float) (title : string) (st : app) :
  length x = length y ->
  Np.compress x (Np.finite_mask x y) = [] ->
  _plot_points seed x y title st =
    (Raise (ValueError NoFiniteData),
     set_ax (fun _ => [Grid; XLabel "x"; YLabel "y"]) st).
Proof.
  intros Hlen He. rewrite (plot_points_run seed x y title st Hlen). cbv zeta.
  by rewrite He.
Qed.

(** C5 (amended).  On at least two finite points the run goes through
    unless the fit of point mode raises.  When it goes through it
    highlights exactly two of the points, at two distinct positions drawn
    by the generator; when the fit raises, the run fails with the error
    of the fit before the random points, and highlights nothing.  A run
    on a single finite point goes through and highlights none. *)
Theorem highlighted_samples
    (seed : entropy) (x y xf yf : list float) (title : string) (st : app) :
  finite_rows x y = Ok (xf, yf) ->
  let r := _plot_points seed x y title st in
  if (2 <=? length xf)%nat then
    (forall e, mode st = point_mode -> polyfit xf yf = Raise e ->
       r.1 = Raise e /\ highlighted (ax r.2) = [] /\ highlight_count (ax r.2) = 0%nat) /\
    (mode st <> point_mode \/ is_ok (polyfit xf yf) = true ->
       r.1 = Ok () /\
       exists idx, choice seed (length xf) 2 = Ok idx /\
         NoDup idx /\ length idx = 2%nat /\ Forall (fun i => (i < length xf)%nat) idx /\
         highlighted (ax r.2) = [(gather xf idx, gather yf idx)] /\
         highlight_count (ax r.2) = 2%nat)
  else
    highlight_count (ax r.2) = 0%nat /\ (length xf = 1%nat -> r.1 = Ok ()).
Proof.
  intros Hfin. cbv zeta.
  remember (_plot_points seed x y title st) as r eqn:Hr0.
  pose proof (highlighted_on_success seed x y xf yf title st r.2 Hfin) as Hok.
  destruct (finite_rows_inv _ _ _ _ Hfin) as (Hlen & Hxf & Hyf).
  pose proof (plot_points_cases seed x y title st Hlen) as Hcases. cbv zeta in Hcases.
  pose proof (plot_points_no_finite_data seed x y title st Hlen) as Hnone.
  rewrite <- Hxf, <- Hyf in Hcases. rewrite <- Hxf in Hnone.
  rewrite <- Hr0 in Hok, Hcases, Hnone. clear Hr0 Hxf Hyf.
  destruct (Nat.leb_spec 2 (length xf)) as [H2|H2].
  - assert (Hne : xf <> []) by (intros ->; simpl in H2; lia).
    destruct (Hcases Hne) as [(e & Hm & _ & Hp & ->)
                             |(sf & fl & rn & mG & Hfit & _ & _ & Hr)].
    + split.
      * intros e' _ Hp'. rewrite Hp in Hp'. injection Hp' as <-. done.
      * intros [Hm'|Hp']; [done|]. by rewrite Hp in Hp'.
    + assert (Hrun : r = (Ok (), r.2)) by (by rewrite Hr).
      specialize (Hok Hrun).
      destruct (Nat.leb_spec 2 (length xf)) as [_|]; [|lia]. split.
      * intros e Hm Hp.
        destruct Hfit as [(_ & _ & c0 & c1 & Hp' & _)|([?|?] & _)];
          [congruence|done|lia].
      * intros _. split; [by rewrite Hr|]. exact Hok.
  - destruct (decide (xf = [])) as [->|Hne].
    + rewrite (Hnone eq_refl). split; [done|]. simpl. lia.
    + destruct (Hcases Hne) as [(e & _ & ? & _)|(sf & fl & rn & mG & _ & _ & _ & Hr)];
        [lia|].
      assert (Hrun : r = (Ok (), r.2)) by (by rewrite Hr).
      specialize (Hok Hrun).
      destruct (Nat.leb_spec 2 (length xf)) as [|_]; [lia|].
      split; [done|]. intros _. by rewrite Hr.
Qed.

(** Apart from the highlighted samples, a run does not depend on the
    entropy drawn, nor on what the window showed before. *)
Lemma plot_points_apart_from_highlights
    (seed1 seed2 : entropy) (x y : list float) (title : string) (st1 st2 : app) :
  length x = length y -> mode st1 = mode st2 ->
  let r1 := _plot_points seed1 x y title st1 in
  let r2 := _plot_points seed2 x y title st2 in
  r1.1 = r2.1 /\
  without_highlights (ax r1.2) = without_highlights (ax r2.2) /\
  (is_ok r1.1 = true -> status r1.2 = status r2.2).
Proof.
  intros Hlen Hmode. cbv zeta.
  pose proof (plot_points_cases seed1 x y title st1 Hlen) as Hc1.
  pose proof (plot_points_cases seed2 x y title st2 Hlen) as Hc2.
  pose proof (plot_points_no_finite_data seed1 x y title st1 Hlen) as He1.
  pose proof (plot_points_no_finite_data seed2 x y title st2 Hlen) as He2.
  cbv zeta in *.
  set (xf := Np.compress x (Np.finite_mask x y)) in *.
  set (yf := Np.compress y (Np.finite_mask x y)) in *.
  clearbody xf yf.
  destruct (decide (xf = [])) as [H0|Hne].
  { rewrite He1, He2 by done. done. }
  destruct (Hc1 Hne) as [(e1 & Hm1 & H21 & Hp1 & ->)
                        |(sf1 & fl1 & rn1 & mG1 & Hfit1 & Hrn1 & HmG1 & ->)];
  destruct (Hc2 Hne) as [(e2 & Hm2 & H22 & Hp2 & ->)
                        |(sf2 & fl2 & rn2 & mG2 & Hfit2 & Hrn2 & HmG2 & ->)].
  - assert (e1 = e2) as -> by congruence. done.
  - destruct Hfit2 as [(_ & _ & c0 & c1 & Hp & _)|([?|?] & _)]; [congruence|congruence|lia].
  - destruct Hfit1 as [(_ & _ & c0 & c1 & Hp & _)|([?|?] & _)]; [congruence|congruence|lia].
  - assert (sf1 = sf2 /\ fl1 = fl2) as [<- <-].
    { destruct Hfit1 as [(Hm1 & H21 & c0 & c1 & Hp1 & -> & ->)|(Hn1 & -> & ->)];
      destruct Hfit2 as [(Hm2 & H22 & c0' & c1' & Hp2 & -> & ->)|(Hn2 & -> & ->)].
      - rewrite Hp1 in Hp2. by inversion Hp2.
      - destruct Hn2; [congruence|lia].
      - destruct Hn1; [congruence|lia].
      - done. }
    assert (mG1 = mG2) as <-.
    { destruct sf1; [congruence|]. rewrite HmG1 in HmG2. by inversion HmG2. }
    split; [done|]. split; [|done].
    destruct (random_step_lines _ _ _ _ Hrn1) as [_ Hw1].
    destruct (random_step_lines _ _ _ _ Hrn2) as [_ Hw2].
    assert (Hax : forall (rn : list artist) (st : app) (s : status_text)
                         (pre post : list artist),
      without_highlights rn = [] ->
      without_highlights (ax (finish st (pre ++ fl1 ++ [Scatter [mean xf] [mean yf] "G Point"]
                                           ++ rn ++ post) s))
      = without_highlights (pre ++ fl1 ++ [Scatter [mean xf] [mean yf] "G Point"] ++ post)).
    { intros rn st s pre post Hrn. simpl. unfold without_highlights in *.
      rewrite !flat_map_app. simpl. rewrite !flat_map_app, Hrn. done. }
    cbn [snd]. rewrite !Hax by done. done.
Qed.

(** A request either fails in [draw_chart] itself, before anything is
    drawn, and then leaves axes, canvas and status line as they were; or
    it reaches the plotting routine. *)
Lemma draw_chart_body_cases (seed : entropy) (st : app) :
  (exists ex st', draw_chart_body seed st = (Raise ex, st') /\
     ax st' = ax st /\ canvas st' = canvas st /\ status st' = status st)
  \/ (exists x y title w,
        draw_chart_body seed st = _plot_points seed x y title (set_np_state w st)).
Proof.
  unfold draw_chart_body.
  destruct (String.eqb (mode st) point_mode).
  - unfold mbind, gui_bind, lift, raise.
    destruct (get_data (rows st)) as [[x y]|ex]; [|left; eauto 10].
    destruct (length x <? 2)%nat; [left; eauto 10|].
    destruct (sort_by_x x y) as [[xs ys]|ex]; [|left; eauto 10].
    right. exists xs, ys, "From x, y values"%string, (np_state st). by destruct st.
  - destruct (String.eqb (str_strip (eq_entry st)) ""); [left; eauto 10|].
    unfold mbind, gui_bind, lift, raise.
    destruct (read_range st) as [[[xmin xmax] npts]|ex]; [|left; eauto 10].
    destruct (negb (F64.ltb xmin xmax)); [left; eauto 10|].
    destruct (npts <? 10); [left; eauto 10|].
    destruct (evaluate _ _ (np_state st)) as [[y|ex] [x' w]].
    + right. eauto.
    + left. eexists _, _. split; [done|]. done.
Qed.

End Plot.

(** ** The evaluator *)

(** Induction on expressions, with the arguments of a call as a list. *)
Section ExprInd.
Variable P : expr -> Prop.
Hypothesis HNum : forall v, P (ENum v).
Hypothesis HName : forall n, P (EName n).
Hypothesis HNeg : forall a, P a -> P (ENeg a).
Hypothesis HBin : forall op a b, P a -> P b -> P (EBin op a b).
Hypothesis HCall : forall f args, P f -> Forall P args -> P (ECall f args).
Hypothesis HNpCall : forall path args, Forall P args -> P (ENpCall path args).

Fixpoint expr_induction (e : expr) : P e :=
  match e with
  | ENum v => HNum v
  | EName n => HName n
  | ENeg a => HNeg a (expr_induction a)
  | EBin op a b => HBin op a b (expr_induction a) (expr_induction b)
  | ECall f args =>
      HCall f args (expr_induction f)
        ((fix all (l : list expr) : Forall P l :=
            match l with
            | [] => @List.Forall_nil expr P
            | e' :: l' => @List.Forall_cons expr P e' l' (expr_induction e') (all l')
            end) args)
  | ENpCall path args =>
      HNpCall path args
        ((fix all (l : list expr) : Forall P l :=
            match l with
            | [] => @List.Forall_nil expr P
            | e' :: l' => @List.Forall_cons expr P e' l' (expr_induction e') (all l')
            end) args)
  end.
End ExprInd.

(** The expression refers to the name [n]. *)
Fixpoint mentions (n : string) (e : expr) : bool :=
  match e with
  | ENum _ => false
  | EName m => String.eqb n m
  | ENeg a => mentions n a
  | EBin _ a b => mentions n a || mentions n b
  | ECall f args => mentions n f || existsb (mentions n) args
  | ENpCall _ args => String.eqb n "np" || existsb (mentions n) args
  end.

(** The expression calls nothing through the [np] handle. *)
Fixpoint handle_free (e : expr) : bool :=
  match e with
  | ENum _ | EName _ => true
  | ENeg a => handle_free a
  | EBin _ a b => handle_free a && handle_free b
  | ECall f args => handle_free f && forallb handle_free args
  | ENpCall _ _ => false
  end.

(** The names the table [allowed] is to bind, by kind. *)
Definition unary_names : list string :=
  ["sin"; "cos"; "tan"; "asin"; "acos"; "atan"; "sinh"; "cosh"; "tanh";
   "exp"; "log"; "log10"; "sqrt"; "abs"; "floor"; "ceil"]%string.

Definition declared_names : list string :=
  ["x"; "pi"; "e"]%string ++ unary_names ++ ["pow"; "arctan2"; "np"]%string.

Section EvaluatorFacts.
Context `{NP : NumPy} `{PY : Python}.

(** The arguments of a call, evaluated from left to right. *)
Definition eval_args : list expr -> Eval (list value) :=
  fix eval_args (es : list expr) : Eval (list value) :=
    match es with
    | [] => eret []
    | e' :: es' =>
        ebind (eval e') (fun v => ebind (eval_args es') (fun vs => eret (v :: vs)))
    end.

Lemma eval_call (f : expr) (args : list expr) :
  eval (ECall f args) =
    ebind (eval f) (fun vf => ebind (eval_args args) (fun vs => call vf vs)).
Proof. done. Qed.

Lemma eval_np_call (path : list string) (args : list expr) :
  eval (ENpCall path args) =
    ebind (elift (np_getattr path)) (fun target =>
    ebind (eval_args args) (fun vs => np_apply target vs)).
Proof. done. Qed.

Lemma eval_args_cons (e : expr) (es : list expr) :
  eval_args (e :: es) =
    ebind (eval e) (fun v => ebind (eval_args es) (fun vs => eret (v :: vs))).
Proof. done. Qed.

(** The run raises, whatever the heap. *)
Definition raises {A : Type} (m : Eval A) : Prop :=
  forall h, exists ex h', m h = (Raise ex, h').

Lemma raises_bind_l {A B : Type} (m : Eval A) (k : A -> Eval B) :
  raises m -> raises (ebind m k).
Proof. intros Hm h. destruct (Hm h) as (ex & h' & Hr). unfold ebind. rewrite Hr. eauto. Qed.

Lemma raises_bind_r {A B : Type} (m : Eval A) (k : A -> Eval B) :
  (forall a, raises (k a)) -> raises (ebind m k).
Proof.
  intros Hk h. unfold ebind. destruct (m h) as [[a|ex] h']; [apply Hk|eauto].
Qed.

Lemma eval_args_raises (n : string) (args : list expr) :
  Forall (fun e => mentions n e = true -> raises (eval e)) args ->
  existsb (mentions n) args = true -> raises (eval_args args).
Proof.
  induction 1 as [|e es He _ IH]; cbn [existsb]; [done|].
  intros Hex. rewrite eval_args_cons.
  destruct (mentions n e) eqn:Hm.
  - apply raises_bind_l. auto.
  - apply raises_bind_r. intros v. apply raises_bind_l. auto.
Qed.

(** An expression that refers to a name bound nowhere raises when it is
    evaluated (the NameError, or whatever was raised before the name was
    reached). *)
Lemma eval_unbound_name (n : string) (e : expr) :
  resolve n = Raise (NameError n) ->
  mentions n e = true -> raises (eval e).
Proof.
  intros Hn. induction e as [v|m|a IH|op a b IHa IHb|f args IHf IHargs|path args IHargs]
    using expr_induction; simpl mentions; intros Hm.
  - done.
  - apply String.eqb_eq in Hm as <-. intros h. simpl. unfold elift. rewrite Hn. eauto.
  - simpl. apply raises_bind_l. auto.
  - simpl. destruct (mentions n a).
    + apply raises_bind_l. auto.
    + apply raises_bind_r. intros v. apply raises_bind_l. auto.
  - rewrite eval_call. destruct (mentions n f).
    + apply raises_bind_l. auto.
    + apply raises_bind_r. intros vf. apply raises_bind_l.
      eapply eval_args_raises; eauto.
  - rewrite eval_np_call. destruct (String.eqb_spec n "np") as [->|_].
    + vm_compute in Hn. done.
    + apply raises_bind_r. intros t. apply raises_bind_l.
      eapply eval_args_raises; eauto.
Qed.












(** *** The namespace *)

Lemma allowed_declared (n : string) : is_Some (allowed !! n) <-> n ∈ declared_names.
Proof.
  unfold allowed.
  match goal with |- is_Some (list_to_map ?l !! n) <-> _ =>
    change declared_names with (l.*1); set (table := l)
  end.
  split.
  - intros [v Hv]. destruct (decide (n ∈ table.*1)) as [|Hn]; [done|].
    apply (not_elem_of_list_to_map_1 (M := gmap string)) in Hn. congruence.
  - intros Hin. destruct (list_to_map table !! n) as [v|] eqn:E; [eauto|].
    apply (not_elem_of_list_to_map_2 (M := gmap string)) in E. done.
Qed.




(** *** Failures of the evaluator *)

(** Why an evaluation fails: the text does not parse; or evaluating it
    raises; or its value cannot be made a float array; or the array has
    not the shape of x. *)
Definition failure_cause (text : string) (x : list float) (w : world) : Prop :=
  parse (replace_caret text) = None
  \/ (exists ast ex h,
        parse (replace_caret text) = Some ast /\ eval ast (x, w) = (Raise ex, h))
  \/ (exists ast v h ex,
        parse (replace_caret text) = Some ast /\ eval ast (x, w) = (Ok v, h) /\
        (asarray_float v h).1 = Raise ex)
  \/ (exists ast v h y,
        parse (replace_caret text) = Some ast /\ eval ast (x, w) = (Ok v, h) /\
        (asarray_float v h).1 = Ok y /\ shape y <> shape (A1 h.1)).

(** The four causes the specification lists: the text does not parse; an
    undeclared name is referred to; evaluating raises an arithmetic
    error; the outcome has not the shape of x. *)
Definition listed_cause (text : string) (x : list float) (w : world) : Prop :=
  parse (replace_caret text) = None
  \/ (exists ast n,
        parse (replace_caret text) = Some ast /\ mentions n ast = true /\
        resolve n = Raise (NameError n))
  \/ (exists ast h,
        parse (replace_caret text) = Some ast /\
        (eval ast (x, w) = (Raise ZeroDivisionError, h) \/
         eval ast (x, w) = (Raise OverflowError, h)))
  \/ (exists y h,
        safe_eval_expression text x w = (Ok y, h) /\ shape y <> shape (A1 h.1)).

Lemma asarray_heap (v : value) (h : heap) : (asarray_float v h).2 = h.
Proof. by destruct v. Qed.

(** C8 (amended).  [evaluate] fails, with a ValueError and no array,
    exactly when the text does not parse, or evaluating it raises any
    exception (an undeclared name, a division of Python numbers by zero,
    a call of something that is no function, ...), or its value cannot be
    turned into a float array, or the array has not the shape of the
    input vector; a reference to an undeclared name and a constant
    expression are two such cases. *)
Theorem evaluate_fails_exactly_when (text : string) (x : list float) (w : world) :
  (is_ok (evaluate text x w).1 = false <-> failure_cause text x w) /\
  (forall ex, (evaluate text x w).1 = Raise ex -> exists m, ex = ValueError m) /\
  (forall ast n,
     parse (replace_caret text) = Some ast -> mentions n ast = true ->
     resolve n = Raise (NameError n) -> is_ok (evaluate text x w).1 = false) /\
  (forall v,
     parse (replace_caret text) = Some (ENum v) ->
     (evaluate text x w).1 = Raise (ValueError NotAVector)).
Proof.
  unfold evaluate, safe_eval_expression, eval_and_convert, failure_cause.
  destruct (parse (replace_caret text)) as [ast|] eqn:Hp.
  2:{ cbn. split; [split; [by left|done]|].
      split; [intros ? [= <-]; eauto|]. split; [intros; done|intros; done]. }
  unfold ebind.
  destruct (eval ast (x, w)) as [[v|ex] h] eqn:He.
  2:{ cbn. split; [split; [intros _; right; left; eauto|done]|].
      split; [intros ? [= <-]; eauto|]. split; [done|].
      intros v' [= ->]. cbn in He. done. }
  pose proof (asarray_heap v h) as Hh.
  destruct (asarray_float v h) as [[y|ex] h'] eqn:Ha; simpl in Hh; subst h'.
  2:{ cbn. split; [split; [|done]|].
      { intros _. right. right. left. exists ast, v, h, ex. rewrite Ha. done. }
      split; [intros ? [= <-]; eauto|]. split; [done|].
      intros v' [= ->]. cbn in He. injection He as <- <-. done. }
  assert (Hcase : forall r : result (list float) * heap,
    r = match y with
        | A0 _ => (Raise (ValueError NotAVector), h)
        | A1 a => if decide (shape y = shape (A1 h.1)) then (Ok a, h)
                  else (Raise (ValueError NotAVector), h)
        end ->
    (is_ok r.1 = false <-> shape y <> shape (A1 h.1)) /\
    (forall ex, r.1 = Raise ex -> exists m, ex = ValueError m)).
  { intros r ->. destruct y as [f|a].
    - cbn. split; [split; [done|done]|]. intros ? [= <-]. eauto.
    - destruct (decide _) as [Hs|Hs]; cbn.
      + split; [split; [done|]|done]. intros Hn. done.
      + split; [done|]. intros ? [= <-]. eauto. }
  destruct (Hcase _ eq_refl) as [Hiff Hval]. clear Hcase.
  split; [|split; [exact Hval|split]].
  - rewrite Hiff. split.
    + intros Hs. do 3 right. exists ast, v, h, y. rewrite Ha. done.
    + intros [?|[(a' & ex & h' & [= <-] & He')|[(a' & v' & h' & ex & [= <-] & He' & Ha')
                |(a' & v' & h' & y' & [= <-] & He' & Ha' & Hs)]]]; try done.
      * congruence.
      * rewrite He in He'. injection He' as <- <-. rewrite Ha in Ha'. done.
      * rewrite He in He'. injection He' as <- <-. rewrite Ha in Ha'.
        injection Ha' as <-. done.
  - intros a' n [= <-] Hm Hn.
    destruct (eval_unbound_name n ast Hn Hm (x, w)) as (ex & h' & He'). congruence.
  - intros v' [= ->]. cbn in He. injection He as <- <-.
    cbn in Ha. injection Ha as <-. done.
Qed.

(** *** Determinism *)


End EvaluatorFacts.

Section Determinism.
Context `{NP : NumPy} `{PY : Python}.

(** Two requests in point mode on the same table end alike, apart from
    the highlighted samples. *)
Lemma point_requests_alike (seed1 seed2 : entropy) (st1 st2 : app) :
  mode st1 = point_mode -> mode st2 = point_mode -> rows st1 = rows st2 ->
  let r1 := draw_chart_body seed1 st1 in
  let r2 := draw_chart_body seed2 st2 in
  r1.1 = r2.1 /\
  (is_ok r1.1 = true ->
     without_highlights (ax r1.2) = without_highlights (ax r2.2) /\
     status r1.2 = status r2.2).
Proof.
  intros Hm1 Hm2 Hrows. cbv zeta. unfold draw_chart_body.
  rewrite Hm1, Hm2, String.eqb_refl, Hrows.
  unfold mbind, gui_bind, lift, raise.
  destruct (get_data (rows st2)) as [[x y]|ex]; [|done].
  destruct (length x <? 2)%nat; [done|].
  destruct (sort_by_x x y) as [[xs ys]|ex] eqn:Hsort; [|done].
  assert (Hlen : length xs = length ys).
  { unfold sort_by_x in Hsort.
    apply result_bind_ok in Hsort as (xs' & Hxs & Hsort).
    apply result_bind_ok in Hsort as (ys' & Hys & Hsort). inversion Hsort; subst.
    apply take_length in Hxs, Hys. congruence. }
  destruct (plot_points_apart_from_highlights seed1 seed2 xs ys "From x, y values"
              st1 st2 Hlen) as (H1 & H2 & H3); [congruence|].
  split; [done|]. intros Hok. split; [done|]. by apply H3.
Qed.

(** C9 (amended).  Two runs of the plotting routine on the same arrays
    in the same mode end alike, with the same outcome, the same G point
    and slope on the status line and the same chart and fitted line,
    apart from the highlighted samples; so do two requests in point mode
    on the same table. *)
Theorem deterministic_apart_from_highlights :
  (forall seed1 seed2 x y title st1 st2,
     length x = length y -> mode st1 = mode st2 ->
     let r1 := _plot_points seed1 x y title st1 in
     let r2 := _plot_points seed2 x y title st2 in
     r1.1 = r2.1 /\
     without_highlights (ax r1.2) = without_highlights (ax r2.2) /\
     (is_ok r1.1 = true -> status r1.2 = status r2.2)) /\
  (forall seed1 seed2 st1 st2,
     mode st1 = point_mode -> mode st2 = point_mode -> rows st1 = rows st2 ->
     let r1 := draw_chart_body seed1 st1 in
     let r2 := draw_chart_body seed2 st2 in
     r1.1 = r2.1 /\
     (is_ok r1.1 = true ->
        without_highlights (ax r1.2) = without_highlights (ax r2.2) /\
        status r1.2 = status r2.2)).
Proof.
  split.
  - intros. by apply plot_points_apart_from_highlights.
  - intros. by apply point_requests_alike.
Qed.

End Determinism.

(** * A library and an interpreter to run the examples

    The properties above hold for every library and interpreter that meet
    the classes [NumPy] and [Python].  To run the program on concrete
    inputs, this module gives one of each: sorting by insertion, the
    closed form of the least-squares line, a counter in place of the
    random generator, and the parse trees of the texts the examples use. *)

Module Reference.

Definition key (a : list float) (i : nat) : float := default F64.nan (a !! i).

(** Position [i] put before the first position whose value is not less. *)
Fixpoint insert_position (a : list float) (i : nat) (l : list nat) : list nat :=
  match l with
  | [] => [i]
  | j :: l' =>
      if F64.sort_le (key a i) (key a j) then i :: l
      else j :: insert_position a i l'
  end.

Definition sort_positions (a : list float) (positions : list nat) : list nat :=
  foldr (insert_position a) [] positions.

(** Among equal values the smaller position comes first. *)
Definition stable_argsort (a : list float) : list nat :=
  sort_positions a (seq 0 (length a)).

Lemma insert_position_perm (a : list float) (i : nat) (l : list nat) :
  insert_position a i l ≡ₚ i :: l.
Proof.
  induction l as [|j l IH]; simpl; [done|].
  destruct (F64.sort_le _ _); [done|]. rewrite IH. apply Permutation_swap.
Qed.

Lemma sort_positions_perm (a : list float) (ps : list nat) : sort_positions a ps ≡ₚ ps.
Proof.
  induction ps as [|i ps IH]; simpl; [done|].
  rewrite insert_position_perm. by rewrite IH.
Qed.

Definition by_key (a : list float) (i j : nat) : Prop :=
  F64.sort_le (key a i) (key a j) = true.

Lemma insert_position_sorted (a : list float) (i : nat) (l : list nat) :
  StronglySorted (by_key a) l -> StronglySorted (by_key a) (insert_position a i l).
Proof.
  induction 1 as [|j l Hs IH Hall]; simpl.
  - constructor; constructor.
  - destruct (F64.sort_le (key a i) (key a j)) eqn:Hle.
    + constructor; [by constructor|]. constructor; [done|].
      eapply Forall_impl; [exact Hall|]. intros k Hk. unfold by_key in *.
      eapply sort_le_trans; eauto.
    + constructor; [done|].
      rewrite insert_position_perm. constructor; [|done].
      by apply sort_le_total.
Qed.

Lemma sort_positions_sorted (a : list float) (ps : list nat) :
  StronglySorted (by_key a) (sort_positions a ps).
Proof.
  induction ps as [|i ps IH]; simpl; [constructor|]. by apply insert_position_sorted.
Qed.

Lemma sorted_by_key_values (a : list float) (l : list nat) :
  StronglySorted (by_key a) l ->
  StronglySorted (fun u v => F64.sort_le u v = true) (map (key a) l).
Proof.
  induction 1 as [|j l Hs IH Hall]; simpl; constructor; [done|].
  apply Forall_fmap. exact Hall.
Qed.

Lemma argsort_law (a : list float) (ps : list nat) (s : list float) :
  Np.take a (sort_positions a ps) = Ok s ->
  StronglySorted (fun u v => F64.sort_le u v = true) s.
Proof.
  intros [_ ->]%take_ok_inv. apply sorted_by_key_values, sort_positions_sorted.
Qed.

(** A generator that walks round the positions, starting where its
    entropy says. *)
Definition walk (s n : nat) : list nat :=
  drop (s mod n) (seq 0 n) ++ take (s mod n) (seq 0 n).

Definition walk_choice (s n size : nat) : result (list nat) :=
  if (size <=? n)%nat then Ok (take size (walk s n))
  else Raise (ValueError LibraryMessage).

Lemma walk_perm (s n : nat) : walk s n ≡ₚ seq 0 n.
Proof.
  unfold walk. rewrite (Permutation_app_comm (drop _ _)). by rewrite take_drop.
Qed.

Lemma walk_choice_distinct (s n size : nat) (l : list nat) :
  walk_choice s n size = Ok l ->
  NoDup l /\ length l = size /\ Forall (fun i => (i < n)%nat) l.
Proof.
  unfold walk_choice. destruct (Nat.leb_spec size n) as [Hle|]; [|done].
  intros [= <-]. split; [|split].
  - apply (sublist_NoDup _ (walk s n)); [|apply sublist_take].
    rewrite walk_perm. apply NoDup_seq.
  - rewrite length_take. rewrite walk_perm, length_seq. lia.
  - apply Forall_forall. intros i Hi.
    assert (Hin : i ∈ walk s n).
    { apply elem_of_take in Hi as (k & Hk & _). eapply list_elem_of_lookup_2; eauto. }
    rewrite walk_perm in Hin. apply elem_of_seq in Hin. lia.
Qed.

Lemma walk_choice_total (s n size : nat) :
  (size <= n)%nat -> is_ok (walk_choice s n size) = true.
Proof.
  intros Hle. unfold walk_choice. by destruct (Nat.leb_spec size n); [|lia].
Qed.

(** The least-squares line in closed form.  NumPy refuses empty input
    and inputs of different lengths, and its solver raises on NaN and on
    infinities.  Before it solves, [np.polyfit] divides each column of
    the design matrix by its norm: when every x is zero the column of x
    becomes NaN, and the solver raises on it too. *)
Definition total (a : list float) : float := foldl F64.add F64.zero a.

Definition line_fit (x y : list float) : result (float * float) :=
  if negb (length x =? length y)%nat then Raise TypeError
  else if (length x =? 0)%nat then Raise TypeError
  else if negb (forallb F64.isfinite x && forallb F64.isfinite y) then Raise LinAlgError
  else if F64.is_zero (total (zip_with F64.mul x x)) then Raise LinAlgError
  else
    let n := F64.of_Z (Z.of_nat (length x)) in
    let sx := total x in
    let sy := total y in
    let sxx := total (zip_with F64.mul x x) in
    let sxy := total (zip_with F64.mul x y) in
    let m := F64.div (F64.sub (F64.mul n sxy) (F64.mul sx sy))
                     (F64.sub (F64.mul n sxx) (F64.mul sx sx)) in
    let b := F64.div (F64.sub sy (F64.mul m sx)) n in
    Ok (m, b).

Definition mean_of (a : list float) : float :=
  F64.div (total a) (F64.of_Z (Z.of_nat (length a))).

(** [xmin + i * step] for [i] below [n]. *)
Definition spaced (xmin xmax : float) (n : Z) : list float :=
  let step := F64.div (F64.sub xmax xmin) (F64.of_Z (n - 1)) in
  map (fun i => F64.add xmin (F64.mul (F64.of_Z (Z.of_nat i)) step)) (seq 0 (Z.to_nat n)).

(** Of the inner loops only [abs] and [sqrt] are computed here; the
    others answer NaN, and no example looks at what they answer. *)
Definition inner1 (u : ufunc1) (v : float) : float :=
  match u with
  | Absolute => F64.abs v
  | Sqrt => SFsqrt F64.prec F64.emax v
  | _ => F64.nan
  end.

Definition inner2 (u : ufunc2) (a b : float) : float := F64.nan.

(** Behind the handle only [np.random.rand] is there: called without
    arguments it answers a number made from the state of the legacy
    generator, a counter here, and moves that state on. *)
Definition handle_getattr (path : list string) : result unit :=
  match path with
  | ["random"; "rand"]%string => Ok ()
  | _ => Raise AttributeError
  end.

Definition handle_apply (target : unit) (args : list value) (h : list float * nat)
  : result value * (list float * nat) :=
  match args with
  | [] => (Ok (VFloat (F64.div (F64.of_Z 1) (F64.of_Z (Z.of_nat h.2 + 2)))), (h.1, S h.2))
  | _ => (Raise TypeError, h)
  end.

Definition numpy : NumPy := {|
  argsort := stable_argsort;
  argsort_perm := fun a => sort_positions_perm a (seq 0 (length a));
  argsort_sorted := fun a s => argsort_law a (seq 0 (length a)) s;
  polyfit := line_fit;
  mean := mean_of;
  linspace := spaced;
  entropy := nat;
  choice := walk_choice;
  choice_distinct := walk_choice_distinct;
  choice_total := walk_choice_total;
  kernel1 := inner1;
  kernel2 := inner2;
  world := nat;
  member := unit;
  np_getattr := handle_getattr;
  np_apply := handle_apply;
|}.

(** [float(s)] on integer literals, [nan] and [inf]. *)
Definition digit (c : ascii) : option Z :=
  let n := nat_of_ascii c in
  if (48 <=? n)%nat && (n <=? 57)%nat then Some (Z.of_nat (n - 48)) else None.

Fixpoint digits (s : string) (acc : Z) : option Z :=
  match s with
  | EmptyString => Some acc
  | String c s' =>
      match digit c with
      | Some d => digits s' (10 * acc + d)
      | None => None
      end
  end.

Definition number (s : string) : option float :=
  if String.eqb s "nan" then Some F64.nan
  else if String.eqb s "inf" then Some F64.inf
  else
    match s with
    | EmptyString => None
    | String "-" EmptyString => None
    | String "-" s' => (fun z => F64.opp (F64.of_Z z)) <$> digits s' 0
    | _ => F64.of_Z <$> digits s 0
    end.

(** [str.strip] on ASCII text: the space, the characters from tab to
    carriage return and the four separators 28 to 31. *)
Definition is_space (c : ascii) : bool :=
  let n := nat_of_ascii c in
  (n =? 32)%nat || ((9 <=? n)%nat && (n <=? 13)%nat)
  || ((28 <=? n)%nat && (n <=? 31)%nat).

Fixpoint lstrip (l : list ascii) : list ascii :=
  match l with
  | c :: l' => if is_space c then lstrip l' else l
  | [] => []
  end.

Definition strip (s : string) : string :=
  String.string_of_list_ascii (rev (lstrip (rev (lstrip (String.list_ascii_of_string s))))).

(** The parse trees of the texts used below. *)
Definition parse_tree (s : string) : option expr :=
  if String.eqb s "arctan2(x, x)" then Some (ECall (EName "arctan2") [EName "x"; EName "x"])
  else if String.eqb s "atan2(x, x)" then Some (ECall (EName "atan2") [EName "x"; EName "x"])
  else if String.eqb s "pi(x)" then Some (ECall (EName "pi") [EName "x"])
  else if String.eqb s "x + np.random.rand()"
    then Some (EBin Add (EName "x") (ENpCall ["random"; "rand"] []))
  else if String.eqb s "foo + x" then Some (EBin Add (EName "foo") (EName "x"))
  else if String.eqb s "x*x" then Some (EBin Mul (EName "x") (EName "x"))
  else if String.eqb s "2.0" then Some (ENum (F64.of_Z 2))
  else if String.eqb s "1.0/0.0" then Some (EBin Div (ENum (F64.of_Z 1)) (ENum (F64.of_Z 0)))
  else None.

Definition python : Python := {|
  parse := parse_tree;
  float_of_string := number;
  str_strip := strip;
|}.

(** A window in equation mode and one in point mode, as [__init__]
    leaves them. *)
Definition window (mode : string) (rows : list (string * string)) (equation : string)
  : app (NP := numpy) :=
  @App numpy mode rows equation "-10" "10" "400" initial_ax initial_ax NoStatus [] 0%nat.

(** The rows of "Load sample": y = x * x for x from -2 to 2, and a blank
    row. *)
Definition sample_rows : list (string * string) :=
  [("-2", "4"); ("-1", "1"); ("0", "0"); ("1", "1"); ("2", "4"); ("", "")]%string.

Definition set_rows (rs : list (string * string)) (st : app (NP := numpy))
  : app (NP := numpy) :=
  @App numpy (mode st) rs (eq_entry st) (xmin_entry st) (xmax_entry st) (npts_entry st)
      (ax st) (canvas st) (status st) (dialogs st) (np_state st).

End Reference.

(** * The program on concrete inputs *)

Definition num (z : Z) : float := F64.of_Z z.

(** ** The local slope *)

(** Ten points of the line y = 2 x + 1, target 4. *)
Lemma slope_at_point_window_witness :
  locates_window (NP := Reference.numpy)
    (map num [0; 1; 2; 3; 4; 5; 6; 7; 8; 9])
    (map num [1; 3; 5; 7; 9; 11; 13; 15; 17; 19]) (num 4).
Proof.
  apply (slope_at_point_window (NP := Reference.numpy)).
  - simpl. lia.
  - reflexivity.
  - apply Forall_forall. intros v Hv.
    repeat (apply elem_of_cons in Hv as [->|Hv]; [reflexivity|]).
    by apply elem_of_nil in Hv.
Defined.

(** An array holding NaN: the scan of [np.argmin] stops on the NaN
    distance at the last position, although the first x value is the
    target itself, and the answer is NaN where the window around the
    nearest value gives the slope 2. *)
Lemma slope_at_point_nan_not_nearest :
  ~ locates_window (NP := Reference.numpy)
      (map num [0; 1; 2; 3; 4; 5; 6; 7; 8; 9] ++ [F64.nan])
      (map num [1; 3; 5; 7; 9; 11; 13; 15; 17; 19; 21]) (num 0).
Proof.
  intros (xs & ys & i & Hsort & (vi & Hi & Hnan & Hnear & _) & Hslope).
  vm_compute in Hsort. injection Hsort as <- <-.
  assert (H0 := Hnear 0%nat (num 0) eq_refl).
  do 11 (destruct i as [|i]; [vm_compute in Hi; injection Hi as <-;
                             vm_compute in H0, Hnan, Hslope; try discriminate|]).
  vm_compute in Hi. discriminate.
Qed.

Lemma slope_at_point_total_witness :
  exists r, slope_at_point (NP := Reference.numpy)
              [F64.nan; F64.inf; num 1] [num 0; F64.nan; num 2] F64.nan 3 = Ok r /\
    (r = F64.nan \/
     exists xw yw m b, polyfit (NumPy := Reference.numpy) xw yw = Ok (m, b) /\ r = m) /\
    ((length [F64.nan; F64.inf; num 1] < 2)%nat -> r = F64.nan) /\
    ((2 <= length [F64.nan; F64.inf; num 1])%nat ->
       exists xs ys i,
         sort_by_x (NP := Reference.numpy)
           [F64.nan; F64.inf; num 1] [num 0; F64.nan; num 2] = Ok (xs, ys) /\
         Np.argmin (Np.abs_sub xs F64.nan) = Ok i /\
         if few_distinct
              (Np.slice xs (Z.max 0 (Z.of_nat i - 3))
                 (Z.min (Z.of_nat (length xs)) (Z.of_nat i + 3 + 1)))
         then
           if few_distinct xs then r = F64.nan
           else guarded_fit (NP := Reference.numpy) xs ys r
         else
           guarded_fit (NP := Reference.numpy)
             (Np.slice xs (Z.max 0 (Z.of_nat i - 3))
                (Z.min (Z.of_nat (length xs)) (Z.of_nat i + 3 + 1)))
             (Np.slice ys (Z.max 0 (Z.of_nat i - 3))
                (Z.min (Z.of_nat (length xs)) (Z.of_nat i + 3 + 1)))
             r).
Proof.
  apply (slope_at_point_total (NP := Reference.numpy)). reflexivity.
Defined.

(** ** The reordering *)

Lemma sort_by_x_ascending_witness :
  exists xs ys,
    sort_by_x (NP := Reference.numpy) (map num [3; 1; 2; 1]) (map num [30; 10; 20; 11])
      = Ok (xs, ys) /\
    zip xs ys ≡ₚ zip (map num [3; 1; 2; 1]) (map num [30; 10; 20; 11]) /\
    StronglySorted (fun u v => F64.sort_le u v = true) xs.
Proof.
  apply (sort_by_x_ascending (NP := Reference.numpy)). reflexivity.
Defined.

(** ** The plotting routine *)

Definition equation_window : app (NP := Reference.numpy) :=
  Reference.window "Using Equation" [] "x*x".

Definition point_window : app (NP := Reference.numpy) :=
  Reference.window point_mode Reference.sample_rows "".

(** Three finite points and one with an infinite y. *)
Lemma plot_points_drops_non_finite_witness :
  exists xf yf,
    finite_rows (map num [0; 1; 2; 3]) [num 0; num 1; F64.inf; num 9] = Ok (xf, yf) /\
    zip xf yf = filter (fun p => finite_pair p)
                  (zip (map num [0; 1; 2; 3]) [num 0; num 1; F64.inf; num 9]) /\
    (xf = [] ->
       (_plot_points (NP := Reference.numpy) 0%nat (map num [0; 1; 2; 3])
          [num 0; num 1; F64.inf; num 9] "y = x*x" equation_window).1
       = Raise (ValueError NoFiniteData)) /\
    (xf <> [] ->
       Scatter xf yf "Data points"
         ∈ ax (_plot_points (NP := Reference.numpy) 0%nat (map num [0; 1; 2; 3])
                 [num 0; num 1; F64.inf; num 9] "y = x*x" equation_window).2) /\
    (Forall (fun v => F64.isfinite v = false) [num 0; num 1; F64.inf; num 9] ->
       (_plot_points (NP := Reference.numpy) 0%nat (map num [0; 1; 2; 3])
          [num 0; num 1; F64.inf; num 9] "y = x*x" equation_window).1
       = Raise (ValueError NoFiniteData)).
Proof.
  apply (plot_points_drops_non_finite (NP := Reference.numpy)). reflexivity.
Defined.

(** The sample rows in point mode: the fitted line of y = x * x on
    -2 .. 2 has slope 0, and 0 is the slope shown at G = (0, 2). *)
Lemma slope_at_centroid_witness :
  exists st',
    _plot_points (NP := Reference.numpy) 0%nat
      (map num [-2; -1; 0; 1; 2]) (map num [4; 1; 0; 1; 4]) "From x, y values" point_window
      = (Ok (), st') /\
    status st' = GStatus (num 0) (num 2) (Some (num 0)).
Proof.
  pose proof (slope_at_centroid (NP := Reference.numpy) 0%nat
    (map num [-2; -1; 0; 1; 2]) (map num [4; 1; 0; 1; 4])
    (map num [-2; -1; 0; 1; 2]) (map num [4; 1; 0; 1; 4])
    "From x, y values" point_window eq_refl) as [Hpoint _].
  specialize (Hpoint eq_refl ltac:(simpl; lia)).
  vm_compute polyfit in Hpoint.
  destruct Hpoint as (st' & Hrun & Hstatus & _).
  exists st'. split; [exact Hrun|]. rewrite Hstatus. reflexivity.
Defined.

(** The rows (0, 1) and (0, 2) in point mode: two finite points, of which
    every x is zero.  The fit raises, the request ends in a dialog with
    the error of the fit, no line is drawn and the status line shows no
    slope: it is as it was. *)
Definition zero_x_window : app (NP := Reference.numpy) :=
  Reference.window point_mode [("0", "1"); ("0", "2")]%string "".

Lemma fit_raises_no_slope :
  let r := _plot_points (NP := Reference.numpy) 0%nat
             (map num [0; 0]) (map num [1; 2]) "From x, y values" zero_x_window in
  let after := draw_chart (NP := Reference.numpy) (PY := Reference.python)
                 0%nat zero_x_window in
  finite_rows (map num [0; 0]) (map num [1; 2]) = Ok (map num [0; 0], map num [1; 2]) /\
  mode zero_x_window = point_mode /\
  polyfit (NumPy := Reference.numpy) (map num [0; 0]) (map num [1; 2]) = Raise LinAlgError /\
  r.1 = Raise LinAlgError /\
  status r.2 = NoStatus /\ fit_lines (ax r.2) = [] /\
  dialogs after = [LinAlgError] /\ status after = NoStatus /\
  canvas after = initial_ax.
Proof. vm_compute. repeat split; done. Qed.

(** Three finite points in equation mode: the run goes through and two
    of them are highlighted. *)
Lemma highlighted_samples_witness :
  (_plot_points (NP := Reference.numpy) 5%nat
     (map num [0; 1; 2]) (map num [0; 1; 4]) "y = x*x" equation_window).1 = Ok () /\
  exists idx,
    choice (NumPy := Reference.numpy) 5%nat 3%nat 2%nat = Ok idx /\
    NoDup idx /\ length idx = 2%nat /\ Forall (fun i => (i < 3)%nat) idx /\
    highlighted (ax (_plot_points (NP := Reference.numpy) 5%nat
                       (map num [0; 1; 2]) (map num [0; 1; 4]) "y = x*x" equation_window).2)
    = [(gather (map num [0; 1; 2]) idx, gather (map num [0; 1; 4]) idx)] /\
    highlight_count (ax (_plot_points (NP := Reference.numpy) 5%nat
                       (map num [0; 1; 2]) (map num [0; 1; 4]) "y = x*x" equation_window).2)
    = 2%nat.
Proof.
  apply (proj2 (highlighted_samples (NP := Reference.numpy) 5%nat
                  (map num [0; 1; 2]) (map num [0; 1; 4])
                  (map num [0; 1; 2]) (map num [0; 1; 4]) "y = x*x" equation_window
                  eq_refl)).
  left. intros H. discriminate H.
Defined.

(** One finite point left of two: the run succeeds and nothing is
    highlighted, where min(2, 1) samples were to be. *)
Lemma single_point_not_highlighted :
  let r := _plot_points (NP := Reference.numpy) 0%nat
             [num 1; F64.nan] [num 2; num 3] "y = x*x" equation_window in
  finite_rows [num 1; F64.nan] [num 2; num 3] = Ok ([num 1], [num 2]) /\
  r.1 = Ok () /\
  highlight_count (ax r.2) = 0%nat /\
  highlight_count (ax r.2) <> Nat.min 2 (length [num 1]).
Proof. vm_compute. repeat split; try reflexivity. lia. Qed.

(** ** The evaluator *)



(** A reference to the undeclared name [foo]. *)
Lemma evaluate_fails_exactly_when_witness :
  is_ok (evaluate (NP := Reference.numpy) (PY := Reference.python)
           "foo + x" (map num [1; 2; 3]) 0%nat).1 = false.
Proof.
  apply (proj1 (proj2 (proj2
           (evaluate_fails_exactly_when (NP := Reference.numpy) (PY := Reference.python)
              "foo + x" (map num [1; 2; 3]) 0%nat)))
         (EBin Add (EName "foo") (EName "x")) "foo"%string);
    reflexivity.
Defined.

(** [pi(x)] calls a constant: the text parses, every name in it is
    declared, the error raised is a TypeError and no arithmetic error, and
    no array is reached whose shape could differ; yet the evaluation
    fails. *)
Lemma call_of_constant_fails :
  (evaluate (NP := Reference.numpy) (PY := Reference.python)
     "pi(x)" (map num [1; 2; 3]) 0%nat).1
  = Raise (ValueError (InvalidExpression TypeError)) /\
  ~ listed_cause (NP := Reference.numpy) (PY := Reference.python)
      "pi(x)" (map num [1; 2; 3]) 0%nat.
Proof.
  split; [vm_compute; done|].
  intros [H|[(ast & n & Hp & Hm & Hn)|[(ast & h & Hp & [He|He])|(y & h & Hs & _)]]].
  - vm_compute in H. done.
  - vm_compute in Hp. injection Hp as <-. cbn [mentions existsb] in Hm.
    apply orb_true_iff in Hm as [Hm|Hm].
    + apply String.eqb_eq in Hm as ->. vm_compute in Hn. done.
    + apply orb_true_iff in Hm as [Hm|Hm]; [|done].
      apply String.eqb_eq in Hm as ->. vm_compute in Hn. done.
  - vm_compute in Hp. injection Hp as <-. vm_compute in He. done.
  - vm_compute in Hp. injection Hp as <-. vm_compute in He. done.
  - vm_compute in Hs. done.
Qed.


(** The sample drawn twice in point mode, with two draws of entropy and
    on two windows: one fresh, one that has drawn a chart before. *)
Lemma deterministic_apart_from_highlights_witness :
  let r1 := draw_chart_body (NP := Reference.numpy) (PY := Reference.python)
              0%nat point_window in
  let r2 := draw_chart_body (NP := Reference.numpy) (PY := Reference.python)
              3%nat (draw_chart (NP := Reference.numpy) (PY := Reference.python)
                       1%nat point_window) in
  r1.1 = r2.1 /\
  (is_ok r1.1 = true ->
     without_highlights (ax r1.2) = without_highlights (ax r2.2) /\
     status r1.2 = status r2.2).
Proof.
  apply (proj2 (deterministic_apart_from_highlights
                  (NP := Reference.numpy) (PY := Reference.python))
           0%nat 3%nat point_window
           (draw_chart (NP := Reference.numpy) (PY := Reference.python)
              1%nat point_window));
    reflexivity.
Defined.

(** [x + np.random.rand()] evaluated twice in a row on the same vector:
    the generator behind the handle has moved on, and the two outcomes
    differ. *)
Lemma random_through_handle_differs :
  let first := evaluate (NP := Reference.numpy) (PY := Reference.python)
                 "x + np.random.rand()" (map num [0; 1]) 0%nat in
  let second := evaluate (NP := Reference.numpy) (PY := Reference.python)
                  "x + np.random.rand()" (map num [0; 1]) first.2.2 in
  is_ok first.1 = true /\ is_ok second.1 = true /\
  first.2.1 = map num [0; 1] /\
  first.1 <> second.1.
Proof. vm_compute. repeat split; try done. Qed.

(** ** A request that fails after the axes were cleared *)

(** The sample rows are drawn; then every x is replaced by [nan] and the
    chart is asked for again. *)
Definition drawn_window : app (NP := Reference.numpy) :=
  draw_chart (NP := Reference.numpy) (PY := Reference.python) 0%nat point_window.

Definition nan_request : app (NP := Reference.numpy) :=
  Reference.set_rows [("nan", "1"); ("nan", "2")]%string drawn_window.

(** C3.  The request fails with "no valid finite data", and the axes no
    longer hold the chart drawn before: they were cleared and set up
    again before the rows were looked at.  The canvas and the status line
    are as they were. *)
Theorem failed_request_clears_axes :
  let after := draw_chart (NP := Reference.numpy) (PY := Reference.python)
                 1%nat nan_request in
  dialogs drawn_window = [] /\
  dialogs after = [ValueError NoFiniteData] /\
  ax after = [Grid; XLabel "x"; YLabel "y"] /\
  ax after <> ax nan_request /\
  canvas after = canvas nan_request /\
  status after = status nan_request.
Proof. vm_compute. repeat split; done. Qed.

(** A request that fails before the plotting routine is entered leaves
    the axes as they were. *)
Lemma early_failure_keeps_axes :
  let request := Reference.set_rows [("1", "1")]%string drawn_window in
  let after := draw_chart (NP := Reference.numpy) (PY := Reference.python)
                 1%nat request in
  dialogs after = [ValueError NeedTwoPoints] /\
  ax after = ax request /\ canvas after = canvas request /\
  status after = status request.
Proof. vm_compute. repeat split; done. Qed.
From Stdlib Require DecimalString.

(** * Further properties of the program *)

(** ** The caret of [safe_eval_expression] *)

(** The text holds a caret. *)
Fixpoint has_caret (s : string) : bool :=
  match s with
  | EmptyString => false
  | String c s' => Ascii.eqb c "^"%char || has_caret s'
  end.

(** How many carets the text holds. *)
Fixpoint carets (s : string) : nat :=
  match s with
  | EmptyString => 0%nat
  | String c s' => ((if Ascii.eqb c "^"%char then 1 else 0) + carets s')%nat
  end.

Lemma replace_caret_no_caret (s : string) : has_caret (replace_caret s) = false.
Proof.
  induction s as [|c s IH]; simpl; [done|].
  destruct (Ascii.eqb c "^") eqn:Hc; simpl; [done|]. by rewrite Hc.
Qed.

Lemma replace_caret_fixed (s : string) : has_caret s = false -> replace_caret s = s.
Proof.
  induction s as [|c s IH]; simpl; [done|].
  destruct (Ascii.eqb c "^"); simpl; [done|]. intros H. by rewrite IH.
Qed.

(** X1.  The replacement leaves no caret, lengthens the text by one character
    per caret, works piece by piece on a concatenation, and changes
    nothing in a text without caret. *)
Theorem replace_caret_normalises (s t : string) :
  has_caret (replace_caret s) = false /\
  String.length (replace_caret s) = (String.length s + carets s)%nat /\
  replace_caret (s +:+ t) = replace_caret s +:+ replace_caret t /\
  (has_caret s = false -> replace_caret s = s).
Proof.
  split; [apply replace_caret_no_caret|]. split; [|split; [|apply replace_caret_fixed]].
  - induction s as [|c s IH]; simpl; [done|].
    destruct (Ascii.eqb c "^"); simpl; rewrite IH; lia.
  - induction s as [|c s IH]; simpl; [done|].
    destruct (Ascii.eqb c "^"); simpl; by rewrite IH.
Qed.

(** ** More on [slope_at_point] *)

(** An index array holding a position outside the array raises. *)
Lemma take_out_of_range (a : list float) (idx : list nat) (i : nat) :
  i ∈ idx -> (length a <= i)%nat -> Np.take a idx = Raise IndexError.
Proof.
  intros Hin Hi. induction idx as [|j idx IH]; [by apply elem_of_nil in Hin|].
  simpl. destruct (a !! j) as [v|] eqn:Hv; [|done].
  apply elem_of_cons in Hin as [->|Hin].
  - apply lookup_lt_Some in Hv. lia.
  - by rewrite IH.
Qed.

(** Indexing looks at the positions asked for only. *)
Lemma take_firstn (a : list float) (n : nat) (idx : list nat) :
  Forall (fun i => (i < n)%nat) idx -> Np.take (firstn n a) idx = Np.take a idx.
Proof.
  induction 1 as [|i idx Hi _ IH]; simpl; [done|].
  change (firstn n a) with (take n a) in *.
  rewrite lookup_take_lt by done. by rewrite IH.
Qed.

Lemma antisym_sort_le (a b : float) :
  F64.sort_le a b = true -> F64.sort_le b a = true -> F64.same a b = true.
Proof. float_cases. Qed.

Lemma few_distinct_subset (l l' : list float) :
  (forall v, v ∈ l' -> v ∈ l) -> few_distinct l = true -> few_distinct l' = true.
Proof. rewrite !few_distinct_spec. intros Hsub H u w Hu Hw. apply H; auto. Qed.

Lemma slice_subset (a : list float) (lo hi : Z) (v : float) :
  v ∈ Np.slice a lo hi -> v ∈ a.
Proof.
  unfold Np.slice. intros Hv.
  by apply (subseteq_take (A:=float)), (subseteq_drop (A:=float)) in Hv.
Qed.

(** Pairs in ascending order of their first component. *)
Definition ascending_pairs (l : list (float * float)) : Prop :=
  StronglySorted (fun p q : float * float => F64.sort_le p.1 q.1 = true) l.

Lemma ascending_zip (xs ys : list float) :
  StronglySorted (fun u v => F64.sort_le u v = true) xs -> ascending_pairs (zip xs ys).
Proof.
  intros Hs. revert ys. induction Hs as [|u xs Hs IH Hu]; intros [|v ys]; simpl;
    try constructor.
  - apply IH.
  - apply Forall_forall. intros [u' v'] Hin.
    apply elem_of_zip_l in Hin. rewrite Forall_forall in Hu. apply Hu. done.
Qed.

(** Pairs of which no two differ while holding the same x value have one
    ascending arrangement only. *)
Lemma ascending_pairs_unique (l l' : list (float * float)) :
  l ≡ₚ l' -> ascending_pairs l -> ascending_pairs l' ->
  (forall p q, p ∈ l -> q ∈ l -> F64.same p.1 q.1 = true -> p = q) ->
  l = l'.
Proof.
  revert l'. induction l as [|a t IH]; intros l' Hp Hs Hs' Hd.
  - by apply Permutation_nil in Hp.
  - destruct l' as [|a' t']; [by apply Permutation_sym, Permutation_nil in Hp|].
    inversion Hs as [|? ? Hst Ha]; subst. inversion Hs' as [|? ? Hst' Ha']; subst.
    rewrite Forall_forall in Ha. rewrite Forall_forall in Ha'.
    assert (Haa : a = a').
    { assert (H : a ∈ a' :: t') by (rewrite <- Hp; left).
      apply elem_of_cons in H as [?|Hin]; [done|].
      assert (H : a' ∈ a :: t) by (rewrite Hp; left).
      apply elem_of_cons in H as [?|Hin']; [done|].
      apply Hd; [left|by right|].
      apply antisym_sort_le; auto. }
    subst a'. f_equal. apply IH; try done.
    + by apply Permutation_cons_inv in Hp.
    + intros p q Hp' Hq'. apply Hd; by right.
Qed.

Section SlopeMore.
Context `{NP : NumPy}.

Lemma sort_by_x_longer (x y : list float) :
  (length x <= length y)%nat ->
  exists xs ys,
    sort_by_x x y = Ok (xs, ys) /\ sort_by_x x (firstn (length x) y) = Ok (xs, ys) /\
    length xs = length x /\ length ys = length x /\
    forall v, v ∈ xs -> v ∈ x.
Proof.
  intros Hlen.
  assert (Hl : length x = length (firstn (length x) y)) by (rewrite length_firstn; lia).
  destruct (sort_by_x_ok x _ Hl) as (xs & ys & Hs & Hx & Hy & Hlx & Hly).
  exists xs, ys. split; [|split; [done|]].
  - unfold sort_by_x. rewrite Hx. simpl.
    rewrite take_firstn in Hy.
    + by rewrite Hy.
    + eapply perm_seq_in_range; [apply argsort_perm|done].
  - repeat split; try done. intros v Hv. eapply sort_by_x_elem; eauto.
Qed.

(** X3.  When [slope_at_point] returns and when it raises: with fewer than
    two x values it answers NaN without looking at y; otherwise it
    returns when y is at least as long as x, looking at the first
    [len(x)] values of y only, and raises IndexError when y is shorter. *)
Theorem slope_at_point_lengths (x y : list float) (x0 : float) (window : Z) :
  ((length x < 2)%nat -> slope_at_point x y x0 window = Ok F64.nan) /\
  ((2 <= length x)%nat -> (length y < length x)%nat ->
     slope_at_point x y x0 window = Raise IndexError) /\
  ((length x <= length y)%nat ->
     (exists r, slope_at_point x y x0 window = Ok r) /\
     slope_at_point x y x0 window = slope_at_point x (firstn (length x) y) x0 window).
Proof.
  unfold slope_at_point. split; [|split].
  - intros Hn. destruct (Z.ltb_spec (Z.of_nat (length x)) 2); [done|lia].
  - intros Hn Hy. destruct (Z.ltb_spec (Z.of_nat (length x)) 2); [lia|].
    unfold sort_by_x.
    pose proof (argsort_perm x) as Hp.
    rewrite (take_in_range x (argsort x)) by (eapply perm_seq_in_range; eauto).
    simpl. rewrite (take_out_of_range y (argsort x) (length x - 1)); [done| |lia].
    rewrite Hp. apply elem_of_seq. lia.
  - intros Hlen.
    destruct (sort_by_x_longer x y Hlen) as (xs & ys & -> & -> & Hlx & _ & _).
    split; [|done].
    destruct (Z.ltb_spec (Z.of_nat (length x)) 2) as [Hshort|Hlong]; [eauto|].
    simpl. destruct (argmin_ok (Np.abs_sub xs x0)) as (i & -> & _).
    { unfold Np.abs_sub. destruct xs; [simpl in Hlx; lia|done]. }
    simpl.
    repeat match goal with |- context [if ?c then _ else _] => destruct c end; eauto.
Qed.

(** X4.  When all x values are one and the same value, there is no line to
    fit and [slope_at_point] answers NaN, for every target and window. *)
Theorem slope_at_point_one_x_value (x y : list float) (x0 : float) (window : Z) :
  (length x <= length y)%nat ->
  few_distinct x = true ->
  slope_at_point x y x0 window = Ok F64.nan.
Proof.
  intros Hlen Hfew. unfold slope_at_point.
  destruct (Z.ltb_spec (Z.of_nat (length x)) 2) as [Hshort|Hlong]; [done|].
  destruct (sort_by_x_longer x y Hlen) as (xs & ys & -> & _ & Hlx & _ & Hsub).
  simpl. destruct (argmin_ok (Np.abs_sub xs x0)) as (i & -> & _).
  { unfold Np.abs_sub. destruct xs; [simpl in Hlx; lia|done]. }
  simpl.
  assert (Hxs : few_distinct xs = true) by (eapply few_distinct_subset; eauto).
  rewrite unique_few_distinct.
  assert (Hw : forall lo hi, few_distinct (Np.slice xs lo hi) = true).
  { intros lo hi. apply (few_distinct_subset xs); [apply slice_subset|done]. }
  rewrite Hw.
  pose proof (unique_few_distinct xs) as Hu. rewrite Hxs in Hu.
  apply Nat.ltb_lt in Hu.
  destruct (length (Np.unique xs)) as [|[|n]]; [done|done|lia].
Qed.

(** X5.  The answer does not depend on the order in which the pairs are
    given, as long as no two different pairs hold the same x value (a
    tie that the sort would be free to break either way). *)
Theorem slope_at_point_any_order (x y x' y' : list float) (x0 : float) (window : Z) :
  length x = length y -> length x' = length y' ->
  zip x' y' ≡ₚ zip x y ->
  (forall p q, p ∈ zip x y -> q ∈ zip x y -> F64.same p.1 q.1 = true -> p = q) ->
  slope_at_point x' y' x0 window = slope_at_point x y x0 window.
Proof.
  intros Hlen Hlen' Hp Hd.
  assert (Hn : length x' = length x).
  { apply Permutation_length in Hp. rewrite !length_zip in Hp. lia. }
  unfold slope_at_point. rewrite Hn.
  destruct (Z.of_nat (length x) <? 2); [done|].
  destruct (sort_by_x_ok x y Hlen) as (xs & ys & Hs & Hx & Hy & Hlx & Hly).
  destruct (sort_by_x_ok x' y' Hlen') as (xs' & ys' & Hs' & Hx' & Hy' & Hlx' & Hly').
  assert (Hz : zip xs ys ≡ₚ zip x y).
  { apply (take_pairs_perm x y xs ys (argsort x) Hlen (argsort_perm x) Hx Hy). }
  assert (Hz' : zip xs' ys' ≡ₚ zip x' y').
  { apply (take_pairs_perm x' y' xs' ys' (argsort x') Hlen' (argsort_perm x') Hx' Hy'). }
  assert (Heq : zip xs' ys' = zip xs ys).
  { apply ascending_pairs_unique.
    - by rewrite Hz', Hp, Hz.
    - apply ascending_zip. eapply argsort_sorted; eauto.
    - apply ascending_zip. eapply argsort_sorted; eauto.
    - intros p q Hpi Hqi. apply Hd; by rewrite <- Hp, <- Hz'. }
  assert (xs' = xs) as ->.
  { rewrite <- (fst_zip xs' ys'), <- (fst_zip xs ys) by lia. by rewrite Heq. }
  assert (ys' = ys) as ->.
  { rewrite <- (snd_zip xs ys'), <- (snd_zip xs ys) by lia. by rewrite Heq. }
  by rewrite Hs, Hs'.
Qed.

End SlopeMore.

(** X6.  The window [xs[lo:hi]] cut around position [i] holds the element at
    [i], at most [2 * window + 1] elements, and at least [window + 1] of
    them unless the array is shorter than that. *)
Theorem slope_window_size (a : list float) (i w : nat) :
  (i < length a)%nat ->
  let lo := Z.max 0 (Z.of_nat i - Z.of_nat w) in
  let hi := Z.min (Z.of_nat (length a)) (Z.of_nat i + Z.of_nat w + 1) in
  let win := Np.slice a lo hi in
  (length win <= 2 * w + 1)%nat /\
  (Nat.min (length a) (w + 1) <= length win)%nat /\
  win !! (i - Z.to_nat lo)%nat = a !! i.
Proof.
  intros Hi lo hi win. unfold win, Np.slice, Np.slice_bound.
  destruct (Z.ltb_spec lo 0); [lia|]. destruct (Z.ltb_spec hi 0); [lia|].
  change firstn with (@take float). change skipn with (@drop float).
  rewrite length_take, length_drop. split; [lia|]. split; [lia|].
  rewrite lookup_take_lt by lia. rewrite lookup_drop. f_equal. lia.
Qed.

(** ** The table of points *)

Section Table.
Context `{NP : NumPy} `{PY : Python}.

(** [XYTable.add_row(x_val, y_val)]: a row of two entries holding the
    given texts is put below the others. *)
Definition add_row (x_val y_val : string) (st : app) : app :=
  App (mode st) (rows st ++ [(x_val, y_val)]) (eq_entry st) (xmin_entry st)
      (xmax_entry st) (npts_entry st) (ax st) (canvas st) (status st) (dialogs st)
      (np_state st).

(** [XYTable.clear()]. *)
Definition clear (st : app) : app :=
  App (mode st) [] (eq_entry st) (xmin_entry st)
      (xmax_entry st) (npts_entry st) (ax st) (canvas st) (status st) (dialogs st)
      (np_state st).

(** A row both of whose entries are blank once stripped. *)
Definition blank_row (r : string * string) : bool :=
  String.eqb (str_strip r.1) "" && String.eqb (str_strip r.2) "".

(** The rows [get_data] does not skip. *)
Definition filled_rows (rs : list (string * string)) : list (string * string) :=
  List.filter (fun r => negb (blank_row r)) rs.

(** The row holds the two numbers of the pair. *)
Definition row_holds (r : string * string) (p : float * float) : Prop :=
  str_strip r.1 <> ""%string /\ str_strip r.2 <> ""%string /\
  float_of_string (str_strip r.1) = Some p.1 /\
  float_of_string (str_strip r.2) = Some p.2.

(** What is wrong with a row, if anything. *)
Definition row_error (r : string * string) : option exn :=
  let sx := str_strip r.1 in
  let sy := str_strip r.2 in
  if blank_row r then None
  else if String.eqb sx "" || String.eqb sy "" then Some (ValueError RowNeedsBoth)
  else
    match float_of_string sx, float_of_string sy with
    | Some _, Some _ => None
    | _, _ => Some (ValueError (InvalidNumber sx sy))
    end.

Lemma get_data_loop_acc (rs : list (string * string)) (xs ys : list float) :
  get_data_loop rs xs ys =
    '(xs', ys') ← get_data_loop rs [] []; Ok (xs ++ xs', ys ++ ys').
Proof.
  revert xs ys. induction rs as [|[ex ey] rs IH]; intros xs ys.
  - simpl. by rewrite !app_nil_r.
  - cbn [get_data_loop].
    destruct (String.eqb (str_strip ex) "" && String.eqb (str_strip ey) ""); [apply IH|].
    destruct (String.eqb (str_strip ex) "" || String.eqb (str_strip ey) ""); [done|].
    destruct (float_of_string (str_strip ex)) as [xv|]; [|done].
    destruct (float_of_string (str_strip ey)) as [yv|]; [|done].
    rewrite (IH (xs ++ [xv]) (ys ++ [yv])), (IH ([] ++ [xv]) ([] ++ [yv])).
    destruct (get_data_loop rs [] []) as [[xs' ys']|e]; simpl; [|done].
    by rewrite <- !app_assoc.
Qed.

(** The loop on two tables put one below the other. *)
Lemma get_data_loop_app (rs1 rs2 : list (string * string)) (xs ys : list float) :
  get_data_loop (rs1 ++ rs2) xs ys =
    '(xs1, ys1) ← get_data_loop rs1 xs ys; get_data_loop rs2 xs1 ys1.
Proof.
  revert xs ys. induction rs1 as [|[ex ey] rs1 IH]; intros xs ys; [done|].
  cbn [get_data_loop Datatypes.app].
  destruct (String.eqb (str_strip ex) "" && String.eqb (str_strip ey) ""); [apply IH|].
  destruct (String.eqb (str_strip ex) "" || String.eqb (str_strip ey) ""); [done|].
  destruct (float_of_string (str_strip ex)) as [xv|]; [|done].
  destruct (float_of_string (str_strip ey)) as [yv|]; [|done].
  apply IH.
Qed.

Lemma get_data_loop_filled (rs : list (string * string)) (xs ys : list float) :
  get_data_loop (filled_rows rs) xs ys = get_data_loop rs xs ys.
Proof.
  revert xs ys. induction rs as [|[ex ey] rs IH]; intros xs ys; [done|].
  unfold filled_rows in *. cbn [List.filter]. unfold blank_row at 1. cbn [fst snd].
  cbn [get_data_loop].
  destruct (String.eqb (str_strip ex) "" && String.eqb (str_strip ey) "") eqn:Hb;
    cbn [negb]; [apply IH|].
  cbn [get_data_loop]. rewrite Hb.
  destruct (String.eqb (str_strip ex) "" || String.eqb (str_strip ey) ""); [done|].
  destruct (float_of_string (str_strip ex)) as [xv|]; [|done].
  destruct (float_of_string (str_strip ey)) as [yv|]; [|done].
  apply IH.
Qed.

Lemma get_data_loop_ok (rs : list (string * string)) (xs ys : list float) :
  get_data_loop rs [] [] = Ok (xs, ys) <->
  length xs = length ys /\ Forall2 row_holds (filled_rows rs) (zip xs ys).
Proof.
  revert xs ys. induction rs as [|[ex ey] rs IH]; intros xs ys.
  - simpl. split.
    + intros [= <- <-]. split; [done|constructor].
    + intros [Hl Hf]. inversion Hf as [Hz|].
      destruct xs, ys; simpl in *; try done.
  - unfold filled_rows in *. cbn [List.filter]. unfold blank_row at 1. cbn [fst snd].
    cbn [get_data_loop].
    destruct (String.eqb (str_strip ex) "" && String.eqb (str_strip ey) "") eqn:Hb;
      cbn [negb]; [apply IH|].
    destruct (String.eqb_spec (str_strip ex) "") as [Hx|Hx]; cbn [orb].
    { split; [done|]. intros [_ Hf]. inversion Hf as [|? ? ? ? (H1 & _) _]; subst. done. }
    destruct (String.eqb_spec (str_strip ey) "") as [Hy|Hy]; cbn [orb].
    { split; [done|]. intros [_ Hf]. inversion Hf as [|? ? ? ? (_ & H2 & _) _]; subst. done. }
    destruct (float_of_string (str_strip ex)) as [xv|] eqn:Hxv.
    2:{ split; [done|]. intros [_ Hf].
        inversion Hf as [|? ? ? ? (_ & _ & H3 & _) _]; subst. simpl in H3. congruence. }
    destruct (float_of_string (str_strip ey)) as [yv|] eqn:Hyv.
    2:{ split; [done|]. intros [_ Hf].
        inversion Hf as [|? ? ? ? (_ & _ & _ & H4) _]; subst. simpl in H4. congruence. }
    rewrite get_data_loop_acc. cbn [Datatypes.app]. split.
    + destruct (get_data_loop rs [] []) as [[xs' ys']|e] eqn:Hloop; [|done].
      simpl. intros [= <- <-].
      destruct (proj1 (IH xs' ys') eq_refl) as [Hl Hf]. split; [simpl; lia|].
      simpl. constructor; [|done]. done.
    + intros [Hl Hf].
      destruct xs as [|x1 xs'], ys as [|y1 ys']; simpl in *; try lia;
        try (by inversion Hf).
      inversion Hf as [|? ? ? ? (_ & _ & H3 & H4) Hf']; subst. simpl in H3, H4.
      assert (Hloop : get_data_loop rs [] [] = Ok (xs', ys')).
      { apply IH. split; [lia|done]. }
      rewrite Hloop. simpl. congruence.
Qed.

Lemma get_data_lengths (rs : list (string * string)) (xs ys : list float) :
  get_data rs = Ok (xs, ys) -> length xs = length ys.
Proof.
  unfold get_data.
  destruct (get_data_loop rs [] []) as [[xs' ys']|e] eqn:Hloop; [|done]. simpl.
  destruct (length xs' =? 0)%nat; [done|].
  intros [= <- <-]. by apply get_data_loop_ok in Hloop as [? ?].
Qed.

Lemma get_data_all_blank (rs : list (string * string)) :
  forallb blank_row rs = true -> get_data rs = Raise (ValueError NeedOnePair).
Proof.
  intros Hall. unfold get_data. rewrite <- get_data_loop_filled.
  replace (filled_rows rs) with (@nil (string * string)); [done|].
  unfold filled_rows. induction rs as [|r rs IH]; [done|].
  simpl in *. apply andb_true_iff in Hall as [-> Hall]. simpl. auto.
Qed.

(** X7.  [get_data] succeeds exactly when the table holds a row that is not
    blank and every such row holds two numbers; it then answers one x
    and one y per such row, in the order of the rows. *)
Theorem get_data_ok_iff (rs : list (string * string)) (xs ys : list float) :
  get_data rs = Ok (xs, ys) <->
  xs <> [] /\ length xs = length ys /\ Forall2 row_holds (filled_rows rs) (zip xs ys).
Proof.
  unfold get_data. split.
  - destruct (get_data_loop rs [] []) as [[xs' ys']|e] eqn:Hloop; [|done]. simpl.
    destruct (Nat.eqb_spec (length xs') 0) as [|Hn]; [done|].
    intros [= <- <-]. apply get_data_loop_ok in Hloop as [? ?].
    split; [|done]. by destruct xs'.
  - intros (Hne & Hl & Hf).
    assert (Hloop : get_data_loop rs [] [] = Ok (xs, ys)) by (by apply get_data_loop_ok).
    rewrite Hloop. simpl. destruct xs; [done|done].
Qed.

(** X8.  The first row that is wrong decides the error, and the rows after it
    are not looked at. *)
Theorem get_data_first_error (good rest : list (string * string))
    (r : string * string) (e : exn) :
  Forall (fun r' => row_error r' = None) good ->
  row_error r = Some e ->
  get_data (good ++ r :: rest) = Raise e.
Proof.
  intros Hgood Hr. unfold get_data.
  assert (H : forall xs ys, get_data_loop (good ++ r :: rest) xs ys = Raise e).
  { induction Hgood as [|[ex ey] good Hok _ IH]; intros xs ys.
    - destruct r as [ex ey]. simpl. unfold row_error, blank_row in Hr. simpl in Hr.
      destruct (String.eqb (str_strip ex) "" && String.eqb (str_strip ey) ""); [done|].
      destruct (String.eqb (str_strip ex) "" || String.eqb (str_strip ey) "");
        [congruence|].
      destruct (float_of_string (str_strip ex)) as [xv|]; [|congruence].
      destruct (float_of_string (str_strip ey)) as [yv|]; [done|congruence].
    - cbn [get_data_loop Datatypes.app].
      unfold row_error, blank_row in Hok. simpl in Hok.
      destruct (String.eqb (str_strip ex) "" && String.eqb (str_strip ey) ""); [apply IH|].
      destruct (String.eqb (str_strip ex) "" || String.eqb (str_strip ey) ""); [done|].
      destruct (float_of_string (str_strip ex)) as [xv|]; [|done].
      destruct (float_of_string (str_strip ey)) as [yv|]; [|done].
      apply IH. }
  by rewrite H.
Qed.

(** X9.  Blank rows count for nothing, wherever they stand: the table and
    the table without them give the same answer, and a table of blank
    rows only (an empty one, or one just cleared) is reported as holding
    no pair. *)
Theorem get_data_skips_blank_rows (rs : list (string * string)) (st : app) :
  get_data (filled_rows rs) = get_data rs /\
  (forallb blank_row rs = true -> get_data rs = Raise (ValueError NeedOnePair)) /\
  get_data (rows (clear st)) = Raise (ValueError NeedOnePair).
Proof.
  split; [|split; [|done]].
  - unfold get_data. by rewrite get_data_loop_filled.
  - apply get_data_all_blank.
Qed.

(** X10.  Adding a row to a table that reads well: a blank row changes
    nothing, and a row holding two numbers adds the pair at the end. *)
Theorem add_row_then_get_data (x_val y_val : string) (st : app) (xs ys : list float) :
  get_data (rows st) = Ok (xs, ys) ->
  (blank_row (x_val, y_val) = true ->
     get_data (rows (add_row x_val y_val st)) = Ok (xs, ys)) /\
  (forall xv yv, row_holds (x_val, y_val) (xv, yv) ->
     get_data (rows (add_row x_val y_val st)) = Ok (xs ++ [xv], ys ++ [yv])).
Proof.
  unfold get_data, add_row. cbn [rows]. intros Hdata.
  destruct (get_data_loop (rows st) [] []) as [[xs' ys']|e] eqn:Hloop; [|done].
  simpl in Hdata. destruct (Nat.eqb_spec (length xs') 0) as [|Hn]; [done|].
  inversion Hdata; subst xs' ys'. clear Hdata.
  rewrite get_data_loop_app, Hloop. cbn [mbind result_bind get_data_loop].
  split.
  - unfold blank_row. cbn [fst snd]. intros ->. simpl.
    destruct (Nat.eqb_spec (length xs) 0); [done|done].
  - intros xv yv (Hx & Hy & Hxv & Hyv). cbn [fst snd] in *.
    rewrite <- String.eqb_neq in Hx, Hy. rewrite Hx, Hy, Hxv, Hyv. simpl.
    rewrite length_app. simpl.
    destruct (Nat.eqb_spec (length xs + 1) 0); [lia|done].
Qed.

End Table.

(** ** What a request leaves alone *)

Section Frame.
Context `{NP : NumPy} `{PY : Python}.
#[local] Existing Instance gui_ret.
#[local] Existing Instance gui_bind.

(** The mode and what the user typed are the same in both states. *)
Definition same_inputs (st st' : app) : Prop :=
  mode st' = mode st /\ rows st' = rows st /\ eq_entry st' = eq_entry st /\
  xmin_entry st' = xmin_entry st /\ xmax_entry st' = xmax_entry st /\
  npts_entry st' = npts_entry st.

(** The two states differ in the content of the axes at most. *)
Definition same_but_axes (st st' : app) : Prop :=
  same_inputs st st' /\ dialogs st' = dialogs st /\ np_state st' = np_state st /\
  canvas st' = canvas st /\ status st' = status st.

(** A step that works on the axes only. *)
Definition axes_only {A : Type} (m : Gui A) : Prop :=
  forall st, same_but_axes st (m st).2.

(** A step that either raises having worked on the axes only, or ends
    with the canvas redrawn from the axes and the status line set. *)
Definition redraws_or_raises (m : Gui unit) : Prop :=
  forall st,
    match m st with
    | (Ok _, st') =>
        same_inputs st st' /\ dialogs st' = dialogs st /\ np_state st' = np_state st /\
        canvas st' = ax st' /\ exists Gx Gy s, status st' = GStatus Gx Gy s
    | (Raise _, st') => same_but_axes st st'
    end.

Lemma same_but_axes_refl (st : app) : same_but_axes st st.
Proof. by unfold same_but_axes, same_inputs. Qed.

Lemma same_but_axes_trans (st1 st2 st3 : app) :
  same_but_axes st1 st2 -> same_but_axes st2 st3 -> same_but_axes st1 st3.
Proof. unfold same_but_axes, same_inputs. intuition congruence. Qed.

Lemma axes_only_lift {A : Type} (r : result A) : axes_only (lift r).
Proof. intros st. apply same_but_axes_refl. Qed.

Lemma axes_only_raise {A : Type} (e : exn) : axes_only (raise (A:=A) e).
Proof. intros st. apply same_but_axes_refl. Qed.

Lemma axes_only_ret {A : Type} (a : A) : axes_only (mret a).
Proof. intros st. apply same_but_axes_refl. Qed.

Lemma axes_only_set_ax (f : list artist -> list artist) : axes_only (update (set_ax f)).
Proof. intros st. by unfold same_but_axes, same_inputs. Qed.

Lemma axes_only_draw (a : artist) : axes_only (draw a).
Proof. apply axes_only_set_ax. Qed.

Lemma axes_only_bind {A B : Type} (m : Gui A) (k : A -> Gui B) :
  axes_only m -> (forall a, axes_only (k a)) -> axes_only (m ≫= k).
Proof.
  intros Hm Hk st. unfold mbind, gui_bind. specialize (Hm st).
  destruct (m st) as [[a|e] st1]; [|done].
  eapply same_but_axes_trans; [exact Hm|apply Hk].
Qed.

Lemma redraws_bind {A : Type} (m : Gui A) (k : A -> Gui unit) :
  axes_only m -> (forall a, redraws_or_raises (k a)) -> redraws_or_raises (m ≫= k).
Proof.
  intros Hm Hk st. unfold mbind, gui_bind. specialize (Hm st).
  destruct (m st) as [[a|e] st1]; [|done]. simpl in Hm.
  specialize (Hk a st1). destruct (k a st1) as [[[]|e] st2].
  - unfold same_but_axes, same_inputs in *. intuition congruence.
  - eapply same_but_axes_trans; eauto.
Qed.

Lemma redraws_raise (e : exn) : redraws_or_raises (raise e).
Proof. intros st. apply same_but_axes_refl. Qed.

Create HintDb frame.
#[local] Hint Resolve axes_only_lift axes_only_raise axes_only_ret axes_only_set_ax
  axes_only_draw redraws_raise : frame.

Lemma axes_only_annotate_all (rx ry : list float) : axes_only (annotate_all rx ry).
Proof.
  revert ry. induction rx as [|xi rx IH]; intros [|yi ry]; simpl; auto with frame.
  apply axes_only_bind; auto with frame.
Qed.

Lemma axes_only_reset : axes_only reset_axes.
Proof. unfold reset_axes. repeat (apply axes_only_bind; [|intros ?]); auto with frame. Qed.

Lemma axes_only_best_fit (x y : list float) : axes_only (best_fit x y).
Proof.
  intros st. unfold best_fit. destruct (_ && _); [|apply same_but_axes_refl].
  match goal with |- same_but_axes st (?m st).2 => cut (axes_only m); [intros H; apply H|] end.
  apply axes_only_bind; [auto with frame|intros [c0 c1]].
  repeat (apply axes_only_bind; [|intros ?]); auto with frame.
Qed.

Lemma axes_only_random_points (seed : entropy) (x y : list float) :
  axes_only (random_points seed x y).
Proof.
  unfold random_points. destruct (2 <=? length x)%nat; [|auto with frame].
  repeat (apply axes_only_bind; [|intros ?]); auto with frame.
  apply axes_only_annotate_all.
Qed.

Lemma axes_only_slope_at_G (sf : option float) (x y : list float) (Gx : float) :
  axes_only (slope_at_G sf x y Gx).
Proof. destruct sf; simpl; auto with frame. Qed.

Lemma redraws_show_result (title : string) (Gx Gy mG : float) :
  redraws_or_raises (show_result title Gx Gy mG).
Proof.
  intros st. rewrite show_result_run. unfold finish, same_inputs. simpl.
  repeat split; eauto.
Qed.

Lemma plot_points_redraws (seed : entropy) (x y : list float) (title : string) :
  redraws_or_raises (_plot_points seed x y title).
Proof.
  unfold _plot_points.
  apply redraws_bind; [apply axes_only_reset|intros _].
  apply redraws_bind; [auto with frame|intros [xf yf]].
  destruct (length xf =? 0)%nat; [auto with frame|].
  apply redraws_bind; [auto with frame|intros _].
  apply redraws_bind; [apply axes_only_best_fit|intros sf].
  apply redraws_bind; [auto with frame|intros _].
  apply redraws_bind; [apply axes_only_random_points|intros _].
  apply redraws_bind; [apply axes_only_slope_at_G|intros mG].
  apply redraws_show_result.
Qed.

(** X11.  Whatever the request and whatever the window shows, [draw_chart]
    leaves the mode and everything the user typed as they are, and ends
    in one of two ways: no dialog, the canvas redrawn from the axes and
    the status line giving G; or exactly one more error dialog, with
    canvas and status line as before.  In point mode the state of the
    numeric library is left alone too. *)
Theorem draw_chart_redraws_or_reports (seed : entropy) (st : app) :
  let st' := draw_chart seed st in
  same_inputs st st' /\
  ((dialogs st' = dialogs st /\ canvas st' = ax st' /\
      exists Gx Gy s, status st' = GStatus Gx Gy s)
   \/ (exists ex, dialogs st' = dialogs st ++ [ex] /\
         canvas st' = canvas st /\ status st' = status st)) /\
  (mode st = point_mode -> np_state st' = np_state st).
Proof.
  cbv zeta. unfold draw_chart.
  assert (Hbody : exists w,
    (mode st = point_mode -> w = np_state st) /\
    ((same_but_axes (set_np_state w st) (draw_chart_body seed st).2 /\
      forall u, (draw_chart_body seed st).1 <> Ok u)
     \/ exists x y title,
          draw_chart_body seed st = _plot_points seed x y title (set_np_state w st))).
  { unfold draw_chart_body.
    destruct (String.eqb_spec (mode st) point_mode) as [Hm|Hm].
    - exists (np_state st). split; [done|].
      assert (Hst : set_np_state (np_state st) st = st) by (by destruct st).
      rewrite Hst. unfold mbind, gui_bind, lift, raise.
      destruct (get_data (rows st)) as [[x y]|ex];
        [|left; simpl; split; [apply same_but_axes_refl|done]].
      destruct (length x <? 2)%nat;
        [left; simpl; split; [apply same_but_axes_refl|done]|].
      destruct (sort_by_x x y) as [[xs ys]|ex];
        [|left; simpl; split; [apply same_but_axes_refl|done]].
      right. eauto.
    - assert (Hst : set_np_state (np_state st) st = st) by (by destruct st).
      destruct (String.eqb (str_strip (eq_entry st)) "").
      { exists (np_state st). split; [done|]. rewrite Hst.
        left; simpl; split; [apply same_but_axes_refl|done]. }
      unfold mbind, gui_bind, lift, raise.
      destruct (read_range st) as [[[xmin xmax] npts]|ex].
      2:{ exists (np_state st). split; [done|]. rewrite Hst.
          left; simpl; split; [apply same_but_axes_refl|done]. }
      destruct (negb (F64.ltb xmin xmax)).
      { exists (np_state st). split; [done|]. rewrite Hst.
        left; simpl; split; [apply same_but_axes_refl|done]. }
      destruct (npts <? 10).
      { exists (np_state st). split; [done|]. rewrite Hst.
        left; simpl; split; [apply same_but_axes_refl|done]. }
      destruct (evaluate _ _ (np_state st)) as [[y|ex] [x' w]]; exists w; (split; [done|]).
      + right. eauto.
      + left. simpl. split; [apply same_but_axes_refl|done]. }
  destruct Hbody as (w & Hw & [(Hsame & Hall)|(x & y & title & Hrun)]).
  - destruct (draw_chart_body seed st) as [[u|ex] st1]; [by destruct (Hall u)|].
    simpl in Hsame. unfold same_but_axes, same_inputs in Hsame. simpl in Hsame.
    unfold same_inputs. simpl.
    destruct Hsame as ((? & ? & ? & ? & ? & ?) & Hd & Hn & Hc & Hs).
    split; [done|]. split.
    + right. exists ex. by rewrite Hd.
    + intros Hm. rewrite Hn. auto.
  - pose proof (plot_points_redraws seed x y title (set_np_state w st)) as Hp.
    rewrite Hrun. destruct (_plot_points seed x y title _) as [[[]|ex] st1].
    + destruct Hp as ((? & ? & ? & ? & ? & ?) & Hd & Hn & Hc & Hs). simpl in *.
      split; [done|]. split; [left; done|].
      intros Hm. rewrite Hn. auto.
    + destruct Hp as [(? & ? & ? & ? & ? & ?) (Hd & Hn & Hc & Hs)]. simpl in *.
      unfold same_inputs. simpl. split; [done|]. split.
      * right. exists ex. by rewrite Hd.
      * intros Hm. rewrite Hn. auto.
Qed.

End Frame.

(** ** The checks of [draw_chart] *)

Lemma not_greater_cases (xmin xmax : float) :
  F64.ltb xmin xmax = false <->
  F64.is_nan xmin = true \/ F64.is_nan xmax = true \/ F64.leb xmax xmin = true.
Proof.
  split.
  - float_cases; auto.
  - intros [H|[H|H]]; revert H; float_cases.
Qed.

Lemma compress_sorted (R : float -> float -> Prop) (a : list float) (mask : list bool) :
  StronglySorted R a -> StronglySorted R (Np.compress a mask).
Proof.
  intros Hs. revert mask. induction Hs as [|v a Hs IH Hv]; intros [|b mask]; simpl;
    try constructor.
  destruct b; [|apply IH]. constructor; [apply IH|].
  clear -Hv. revert mask. induction Hv as [|u a Hu Hv IH]; intros [|b mask]; simpl;
    try constructor.
  destruct b; [constructor; [done|apply IH]|apply IH].
Qed.

Section Checks.
Context `{NP : NumPy} `{PY : Python}.

(** X12.  In equation mode the checks come in a fixed order, each before the
    expression is looked at: a blank expression, a range field that is
    not a number, an upper bound that is not greater than the lower one
    (which is so when one of them is NaN), fewer than ten points.  The
    first that fails is reported in a dialog and nothing else changes:
    the axes are not cleared and the expression is not evaluated. *)
Theorem draw_chart_equation_checks (seed : entropy) (st : app) :
  mode st <> point_mode ->
  (str_strip (eq_entry st) = ""%string ->
     draw_chart seed st = showerror (ValueError NeedEquation) st) /\
  (str_strip (eq_entry st) <> ""%string ->
     (forall e, read_range st = Raise e -> draw_chart seed st = showerror e st) /\
     (forall xmin xmax npts, read_range st = Ok (xmin, xmax, npts) ->
        (F64.is_nan xmin = true \/ F64.is_nan xmax = true \/ F64.leb xmax xmin = true ->
           draw_chart seed st = showerror (ValueError XmaxNotGreater) st) /\
        (F64.ltb xmin xmax = true -> npts < 10 ->
           draw_chart seed st = showerror (ValueError TooFewPoints) st))).
Proof.
  intros Hm. unfold draw_chart, draw_chart_body.
  destruct (String.eqb_spec (mode st) point_mode) as [|_]; [done|].
  destruct (String.eqb_spec (str_strip (eq_entry st)) "") as [He|He].
  { split; [done|]. intros Hne. done. }
  split; [done|]. intros _. unfold mbind, gui_bind, lift, raise. split.
  - intros e ->. done.
  - intros xmin xmax npts ->. split.
    + intros Hc. apply not_greater_cases in Hc. rewrite Hc. done.
    + intros -> Hn. simpl. destruct (Z.ltb_spec npts 10); [done|lia].
Qed.

(** X13.  The points field goes through [int(float(...))]: a fraction is
    dropped, a NaN is reported with the message for a range that is not
    numeric, and an infinity escapes that message and is reported as the
    OverflowError of [int]. *)
Theorem read_range_points_field (st : app) (xmin xmax f : float) :
  float_of_string (str_strip (xmin_entry st)) = Some xmin ->
  float_of_string (str_strip (xmax_entry st)) = Some xmax ->
  float_of_string (str_strip (npts_entry st)) = Some f ->
  match f with
  | S754_nan => read_range st = Raise (ValueError RangeNotNumeric)
  | S754_infinity _ => read_range st = Raise OverflowError
  | S754_zero _ => read_range st = Ok (xmin, xmax, 0)
  | S754_finite s m e =>
      exists n, read_range st = Ok (xmin, xmax, if s then - n else n) /\
        0 <= n /\ n * 2 ^ Z.max 0 (- e) <= Zpos m * 2 ^ Z.max 0 e
               < (n + 1) * 2 ^ Z.max 0 (- e)
  end.
Proof.
  intros Hmin Hmax Hf. unfold read_range. rewrite Hmin, Hmax, Hf.
  destruct f as [s|s| |s m e]; try done.
  unfold int_of_float. destruct (Z.leb_spec 0 e) as [He|He].
  - exists (Z.shiftl (Z.pos m) e). split; [done|].
    rewrite Z.shiftl_mul_pow2 by done.
    assert (0 < 2 ^ e) by (by apply Z.pow_pos_nonneg).
    replace (Z.max 0 (- e)) with 0 by lia. replace (Z.max 0 e) with e by lia.
    change (2 ^ 0) with 1. nia.
  - exists (Z.shiftr (Z.pos m) (- e)). split; [done|].
    rewrite Z.shiftr_div_pow2 by lia.
    assert (Hp : 0 < 2 ^ (- e)) by (apply Z.pow_pos_nonneg; lia).
    replace (Z.max 0 (- e)) with (- e) by lia. replace (Z.max 0 e) with 0 by lia.
    change (2 ^ 0) with 1.
    pose proof (Z.mul_div_le (Z.pos m) _ Hp).
    pose proof (Z.mul_succ_div_gt (Z.pos m) _ Hp).
    split; [apply Z.div_pos; lia|]. lia.
Qed.

(** X14.  In point mode a table that does not read, or that holds fewer than
    two points, is reported in a dialog and nothing else changes. *)
Theorem draw_chart_point_checks (seed : entropy) (st : app) :
  mode st = point_mode ->
  (forall e, get_data (rows st) = Raise e -> draw_chart seed st = showerror e st) /\
  (forall xs ys, get_data (rows st) = Ok (xs, ys) -> (length xs < 2)%nat ->
     draw_chart seed st = showerror (ValueError NeedTwoPoints) st).
Proof.
  intros Hm. unfold draw_chart, draw_chart_body.
  destruct (String.eqb_spec (mode st) point_mode) as [_|]; [|done].
  unfold mbind, gui_bind, lift, raise. split.
  - intros e ->. done.
  - intros xs ys -> Hn. destruct (Nat.ltb_spec (length xs) 2); [done|lia].
Qed.

(** X15.  A request in point mode that goes through plots the finite pairs of
    the table, and plots them in ascending order of x, whatever the
    order of the rows. *)
Theorem point_mode_plots_ascending (seed : entropy) (st st' : app) :
  mode st = point_mode ->
  draw_chart_body seed st = (Ok (), st') ->
  exists xs ys xf yf rest,
    get_data (rows st) = Ok (xs, ys) /\
    ax st' = base_artists xf yf ++ rest /\
    zip xf yf ≡ₚ filter (fun p => finite_pair p) (zip xs ys) /\
    StronglySorted (fun u v => F64.sort_le u v = true) xf.
Proof.
  intros Hm. unfold draw_chart_body.
  destruct (String.eqb_spec (mode st) point_mode) as [_|]; [|done].
  unfold mbind, gui_bind, lift, raise.
  destruct (get_data (rows st)) as [[xs ys]|ex] eqn:Hdata; [|done].
  destruct (length xs <? 2)%nat; [done|].
  pose proof (get_data_lengths _ _ _ Hdata) as Hlen.
  destruct (sort_by_x_ok xs ys Hlen) as (xs' & ys' & -> & Hx & Hy & Hlx & Hly).
  assert (Hlen' : length xs' = length ys') by lia.
  pose proof (take_pairs_perm xs ys xs' ys' _ Hlen (argsort_perm xs) Hx Hy) as Hperm.
  pose proof (argsort_sorted xs xs' Hx) as Hsorted.
  pose proof (plot_points_cases seed xs' ys' "From x, y values" st Hlen') as Hc.
  pose proof (plot_points_no_finite_data seed xs' ys' "From x, y values" st Hlen') as H0.
  destruct (finite_rows_zip xs' ys' Hlen') as [Hz _].
  pose proof (compress_sorted _ xs' (Np.finite_mask xs' ys') Hsorted) as Hs.
  cbv zeta in Hc.
  set (xf := Np.compress xs' (Np.finite_mask xs' ys')) in *.
  set (yf := Np.compress ys' (Np.finite_mask xs' ys')) in *.
  clearbody xf yf. intros Hrun.
  destruct (decide (xf = [])) as [He|Hne]; [by rewrite (H0 He) in Hrun|].
  destruct (Hc Hne) as [(e & _ & _ & _ & Hr)|(sf & fl & rn & mG & _ & _ & _ & Hr)];
    rewrite Hr in Hrun; [done|].
  inversion Hrun; subst st'. clear Hrun.
  exists xs, ys, xf, yf. eexists. split; [done|]. split; [done|].
  split; [|done]. rewrite Hz. by rewrite Hperm.
Qed.

(** X16.  The best-fit line of a run in point mode on at least two finite
    points joins the points [(x, c0 * x + c1)] of the fitted line over
    the data, taken in ascending order of x. *)
Theorem best_fit_line_ascending
    (seed : entropy) (x y xf yf : list float) (title : string) (st st' : app) :
  finite_rows x y = Ok (xf, yf) ->
  mode st = point_mode -> (2 <= length xf)%nat ->
  _plot_points seed x y title st = (Ok (), st') ->
  exists c0 c1 lx ly,
    polyfit xf yf = Ok (c0, c1) /\
    fit_lines (ax st') = [(lx, ly)] /\
    zip lx ly ≡ₚ zip xf (polyval c0 c1 xf) /\
    StronglySorted (fun u v => F64.sort_le u v = true) lx.
Proof.
  intros (Hlen & -> & ->)%finite_rows_inv Hm H2 Hrun.
  pose proof (plot_points_cases seed x y title st Hlen) as Hc. cbv zeta in Hc.
  set (xf := Np.compress x (Np.finite_mask x y)) in *.
  set (yf := Np.compress y (Np.finite_mask x y)) in *.
  clearbody xf yf.
  destruct Hc as [(e & _ & _ & _ & Hr)|(sf & fl & rn & mG & Hfit & Hrn & _ & Hr)].
  { destruct xf; [simpl in H2; lia|done]. }
  { by rewrite Hr in Hrun. }
  rewrite Hr in Hrun. inversion Hrun; subst st'. clear Hrun Hr.
  destruct Hfit as [(_ & _ & c0 & c1 & Hp & -> & ->)|([?|?] & _ & _)]; [|done|lia].
  destruct (random_step_lines _ _ _ _ Hrn) as [Hl _].
  assert (Hpl : length xf = length (polyval c0 c1 xf)).
  { unfold polyval. by rewrite length_map. }
  pose proof (take_argsort xf xf eq_refl) as Hx.
  pose proof (take_argsort xf (polyval c0 c1 xf) Hpl) as Hy.
  exists c0, c1, (gather xf (argsort xf)), (gather (polyval c0 c1 xf) (argsort xf)).
  split; [done|]. split.
  { simpl. unfold fit_lines in *. rewrite flat_map_app, Hl. done. }
  split.
  - apply (take_pairs_perm xf (polyval c0 c1 xf) _ _ (argsort xf)); try done.
    apply argsort_perm.
  - eapply argsort_sorted; eauto.
Qed.

(** X17.  A run on a single finite point goes through in either mode: it
    draws the point and G, no fitted line and no highlighted sample, and
    shows the slope at G as a dash. *)
Theorem plot_points_single_point
    (seed : entropy) (x y : list float) (u v : float) (title : string) (st : app) :
  finite_rows x y = Ok ([u], [v]) ->
  _plot_points seed x y title st =
    (Ok (),
     finish st
       (base_artists [u] [v]
          ++ [Scatter [mean [u]] [mean [v]] "G Point";
              Title title (mean [u]) (mean [v]) None; Legend])
       (GStatus (mean [u]) (mean [v]) None)).
Proof.
  intros (Hlen & Hu & Hv)%finite_rows_inv.
  pose proof (plot_points_cases seed x y title st Hlen) as Hc. cbv zeta in Hc.
  rewrite <- Hu, <- Hv in Hc.
  destruct Hc as [(e & _ & H2 & _)|(sf & fl & rn & mG & Hfit & Hrn & HmG & ->)];
    [done|simpl in H2; lia|].
  destruct Hfit as [(_ & H2 & _)|(_ & -> & ->)]; [simpl in H2; lia|].
  destruct Hrn as [(H2 & _)|(_ & ->)]; [simpl in H2; lia|].
  unfold slope_at_point in HmG. simpl in HmG. inversion HmG; subst mG. done.
Qed.

End Checks.

(** ** Expressions that leave the x array alone *)

(** The callee is one of the two-argument functions of the table. *)
Definition is_binary_name (f : expr) : bool :=
  match f with
  | EName n => String.eqb n "pow" || String.eqb n "arctan2"
  | _ => false
  end.

(** No call of the expression passes an output array: a call has at most
    one argument, or it is a call of [pow] or [arctan2] with two; and
    nothing is called through the [np] handle. *)
Fixpoint no_output_argument (e : expr) : bool :=
  match e with
  | ENum _ | EName _ => true
  | ENeg a => no_output_argument a
  | EBin _ a b => no_output_argument a && no_output_argument b
  | ECall f args =>
      no_output_argument f && forallb no_output_argument args &&
      ((length args <=? 1)%nat || (is_binary_name f && (length args =? 2)%nat))
  | ENpCall _ _ => false
  end.

Section KeepsHeap.
Context `{NP : NumPy} `{PY : Python}.

(** The run leaves the x array and the state of the library as they were. *)
Definition keeps_heap {A : Type} (m : Eval A) : Prop :=
  forall h, (m h).2 = h.

Lemma keeps_heap_bind {A B : Type} (m : Eval A) (k : A -> Eval B) :
  keeps_heap m -> (forall h a, m h = (Ok a, h) -> (k a h).2 = h) ->
  keeps_heap (ebind m k).
Proof.
  intros Hm Hk h. unfold ebind. specialize (Hm h).
  destruct (m h) as [[a|e] h'] eqn:Hr; simpl in Hm; subst h'; [|done]. by apply Hk.
Qed.

Lemma keeps_heap_neg (v : value) : keeps_heap (apply_neg v).
Proof. intros h. unfold apply_neg. destruct (operand_of h v) as [[[] a|a]|]; done. Qed.

Lemma keeps_heap_binop (op : binop) (v1 v2 : value) : keeps_heap (apply_binop op v1 v2).
Proof. intros h. unfold apply_binop. destruct (operand_of h v1), (operand_of h v2); done. Qed.

Lemma keeps_heap_asarray (v : value) : keeps_heap (asarray_float v).
Proof. intros h. by destruct v. Qed.

Lemma keeps_heap_call_short (f : value) (args : list value) :
  (length args <= 1)%nat -> keeps_heap (call f args).
Proof.
  intros Hn h. unfold call.
  destruct f as [| | | |u|u| |]; try done;
    destruct args as [|a [|b args]]; simpl in Hn; try lia; try done.
  destruct (operand_of h a); done.
Qed.

Lemma keeps_heap_call_binary (u : ufunc2) (args : list value) :
  length args = 2%nat -> keeps_heap (call (VUfunc2 u) args).
Proof.
  intros Hn h. destruct args as [|a [|b [|c args]]]; simpl in Hn; try lia.
  unfold call. destruct (operand_of h a), (operand_of h b); done.
Qed.

Lemma eval_args_length (args : list expr) (h h' : heap) (vs : list value) :
  eval_args args h = (Ok vs, h') -> length vs = length args.
Proof.
  revert h h' vs. induction args as [|e es IH]; intros h h' vs.
  - intros [= <- _]. done.
  - rewrite eval_args_cons. unfold ebind at 1.
    destruct (eval e h) as [[v|ex] h1]; [|done]. unfold ebind at 1.
    destruct (eval_args es h1) as [[vs'|ex] h2] eqn:Hes; [|done].
    intros [= <- _]. simpl. f_equal. eauto.
Qed.

Lemma keeps_heap_args (args : list expr) :
  Forall (fun e => no_output_argument e = true -> keeps_heap (eval e)) args ->
  forallb no_output_argument args = true -> keeps_heap (eval_args args).
Proof.
  induction 1 as [|e es He _ IH]; cbn [forallb]; [done|].
  intros [H1 H2]%andb_true_iff. rewrite eval_args_cons.
  apply keeps_heap_bind; [auto|]. intros h v _.
  apply keeps_heap_bind; [auto|]. done.
Qed.

Lemma eval_keeps_heap (e : expr) : no_output_argument e = true -> keeps_heap (eval e).
Proof.
  induction e as [v|m|a IH|op a b IHa IHb|f args IHf IHargs|path args IHargs]
    using expr_induction; cbn [no_output_argument]; intros Hf.
  - done.
  - done.
  - apply keeps_heap_bind; [auto|]. intros h v _. apply keeps_heap_neg.
  - apply andb_true_iff in Hf as [Ha Hb].
    apply keeps_heap_bind; [auto|]. intros h v1 _.
    apply keeps_heap_bind; [auto|]. intros h' v2 _. apply keeps_heap_binop.
  - apply andb_true_iff in Hf as [Hf Hshape].
    apply andb_true_iff in Hf as [H1 H2]. rewrite eval_call.
    apply keeps_heap_bind; [auto|]. intros h vf Hvf.
    apply keeps_heap_bind; [by apply keeps_heap_args|]. intros h' vs Hvs.
    apply eval_args_length in Hvs.
    apply orb_true_iff in Hshape as [Hshort|[Hbin Htwo]%andb_true_iff].
    + apply keeps_heap_call_short. apply Nat.leb_le in Hshort. lia.
    + apply Nat.eqb_eq in Htwo.
      destruct f as [|n| | | |]; try done. cbn [is_binary_name] in Hbin.
      cbn [eval] in Hvf. unfold elift in Hvf.
      assert (Hu : exists u, vf = VUfunc2 u).
      { apply orb_true_iff in Hbin as [->%String.eqb_eq| ->%String.eqb_eq];
          vm_compute in Hvf; inversion Hvf; eauto. }
      destruct Hu as [u ->]. apply keeps_heap_call_binary. lia.
  - done.
Qed.

(** X18.  Of an expression made of numbers, names, unary minus, the
    operators [+ - * /] and calls: when none of its calls passes an
    output array and it calls nothing through [np], it is evaluated
    without a change to the x array or to the state of the library,
    whether the evaluation succeeds or fails; when it succeeds the
    outcome holds one y value per x value. *)
Theorem evaluate_keeps_x (text : string) (ast : expr) (x : list float) (w : world) :
  parse (replace_caret text) = Some ast ->
  no_output_argument ast = true ->
  (safe_eval_expression text x w).2 = (x, w) /\ (evaluate text x w).2 = (x, w) /\
  forall y, (evaluate text x w).1 = Ok y -> length y = length x.
Proof.
  intros Hparse Hno.
  assert (Hs : (safe_eval_expression text x w).2 = (x, w)).
  { unfold safe_eval_expression, eval_and_convert. rewrite Hparse.
    pose proof (keeps_heap_bind _ _ (eval_keeps_heap ast Hno)
                  (fun h a _ => keeps_heap_asarray a h) (x, w)) as Hk.
    destruct (ebind (eval ast) asarray_float (x, w)) as [[y|ex] h]; done. }
  split; [done|]. unfold evaluate.
  destruct (safe_eval_expression text x w) as [[[v|a]|ex] h]; simpl in *; subst h;
    try done.
  destruct (decide _) as [Hshape|Hshape]; simpl; [|done].
  split; [done|]. intros y [= <-]. by inversion Hshape.
Qed.

End KeepsHeap.

(** ** Expressions without x *)

(** Not an array: a number, a function, the module or the dict. *)
Definition not_an_array (v : value) : bool :=
  match v with
  | VX | VArray _ => false
  | _ => true
  end.

Section Constant.
Context `{NP : NumPy} `{PY : Python}.

(** The run, if it answers, answers something that is not an array. *)
Definition answers_no_array (m : Eval value) : Prop :=
  forall h, match (m h).1 with Ok v => not_an_array v = true | Raise _ => True end.

Lemma resolve_no_array (n : string) (v : value) :
  n <> "x"%string -> resolve n = Ok v -> not_an_array v = true.
Proof.
  intros Hn. unfold resolve.
  destruct (allowed !! n) as [v'|] eqn:Ha.
  - intros [= <-].
    assert (Hin : n ∈ declared_names) by (apply allowed_declared; exists v'; exact Ha).
    unfold declared_names, unary_names in Hin. cbn [Datatypes.app] in Hin.
    repeat (apply elem_of_cons in Hin as [->|Hin];
            [first [exfalso; apply Hn; reflexivity
                   | vm_compute in Ha; inversion Ha; reflexivity]|]).
    exfalso. revert Hin. apply not_elem_of_nil.
  - destruct (eval_globals !! n) as [v'|] eqn:Hg; [|intros H; discriminate H].
    unfold eval_globals in Hg.
    apply lookup_singleton_Some in Hg as [_ <-]. intros [= <-]. reflexivity.
Qed.

Lemma operand_of_no_array (h : heap) (v : value) :
  not_an_array v = true ->
  operand_of h v = None \/ exists py a, operand_of h v = Some (Scalar py a).
Proof. destruct v; simpl; try done; eauto. Qed.

Lemma neg_no_array (v : value) (h : heap) :
  not_an_array v = true ->
  match (apply_neg v h).1 with Ok r => not_an_array r = true | Raise _ => True end.
Proof.
  intros Hv. unfold apply_neg.
  destruct (operand_of_no_array h v Hv) as [->|(py & a & ->)]; [done|]. by destruct py.
Qed.

Lemma binop_no_array (op : binop) (v1 v2 : value) (h : heap) :
  not_an_array v1 = true -> not_an_array v2 = true ->
  match (apply_binop op v1 v2 h).1 with Ok r => not_an_array r = true | Raise _ => True end.
Proof.
  intros H1 H2. unfold apply_binop.
  destruct (operand_of_no_array h v1 H1) as [->|(py1 & a & ->)]; [done|].
  destruct (operand_of_no_array h v2 H2) as [->|(py2 & b & ->)]; [done|].
  unfold operate. destruct (py1 && py2); [|done].
  destruct (_ && _); done.
Qed.

Lemma write_out_no_array (p : operand) (out : value) (h : heap) :
  not_an_array out = true -> (write_out p out h).1 = Raise TypeError.
Proof.
  intros Ho. unfold write_out.
  destruct (operand_of_no_array h out Ho) as [->|(py & a & ->)]; done.
Qed.

Lemma call_no_array (f : value) (args : list value) (h : heap) :
  Forall (fun v => not_an_array v = true) args ->
  match (call f args h).1 with Ok r => not_an_array r = true | Raise _ => True end.
Proof.
  intros Hargs. unfold call.
  destruct f as [| | | |u|u| |]; try done.
  - destruct args as [|a [|out [|]]]; try done.
    + inversion Hargs as [|? ? Ha _]; subst.
      destruct (operand_of_no_array h a Ha) as [->|(py & v & ->)]; done.
    + inversion Hargs as [|? ? Ha Hr]; subst. inversion Hr as [|? ? Ho _]; subst.
      destruct (operand_of h a); [|done]. by rewrite write_out_no_array.
  - destruct args as [|a [|b [|out [|]]]]; try done.
    + inversion Hargs as [|? ? Ha Hr]; subst. inversion Hr as [|? ? Hb _]; subst.
      destruct (operand_of_no_array h a Ha) as [->|(py1 & v1 & ->)]; [done|].
      destruct (operand_of_no_array h b Hb) as [->|(py2 & v2 & ->)]; done.
    + inversion Hargs as [|? ? Ha Hr]; subst. inversion Hr as [|? ? Hb Hr']; subst.
      inversion Hr' as [|? ? Ho _]; subst.
      destruct (operand_of h a), (operand_of h b); try done.
      destruct (ufunc2_on u _ _); [|done]. by rewrite write_out_no_array.
Qed.

Lemma eval_args_no_array (args : list expr) :
  Forall (fun e => answers_no_array (eval e)) args ->
  forall h, match (eval_args args h).1 with
            | Ok vs => Forall (fun v => not_an_array v = true) vs
            | Raise _ => True
            end.
Proof.
  induction 1 as [|e es He _ IH]; intros h; [by constructor|].
  rewrite eval_args_cons. unfold ebind at 1. specialize (He h).
  destruct (eval e h) as [[v|ex] h1]; [|done]. unfold ebind at 1. specialize (IH h1).
  destruct (eval_args es h1) as [[vs|ex] h2]; [|done]. simpl in *. by constructor.
Qed.

Lemma eval_no_array (e : expr) :
  handle_free e = true -> mentions "x" e = false -> answers_no_array (eval e).
Proof.
  induction e as [v|m|a IH|op a b IHa IHb|f args IHf IHargs|path args IHargs]
    using expr_induction; cbn [handle_free mentions]; intros Hf Hx h.
  - done.
  - cbn [eval]. unfold elift. cbn [fst].
    destruct (resolve m) as [v|ex] eqn:Hr; [|exact I].
    apply (resolve_no_array m); [|exact Hr]. intros ->. vm_compute in Hx. discriminate Hx.
  - cbn [eval]. unfold ebind. specialize (IH Hf Hx h).
    destruct (eval a h) as [[v|ex] h1]; [|done]. by apply neg_no_array.
  - apply andb_true_iff in Hf as [Ha Hb].
    apply orb_false_iff in Hx as [Hxa Hxb].
    cbn [eval]. unfold ebind. specialize (IHa Ha Hxa h).
    destruct (eval a h) as [[v1|ex] h1]; [|done]. specialize (IHb Hb Hxb h1).
    destruct (eval b h1) as [[v2|ex] h2]; [|done]. by apply binop_no_array.
  - apply andb_true_iff in Hf as [H1 H2].
    apply orb_false_iff in Hx as [Hxf Hxa].
    rewrite eval_call. unfold ebind at 1.
    destruct (eval f h) as [[vf|ex] h1]; [|done]. unfold ebind at 1.
    assert (Hall : Forall (fun e => answers_no_array (eval e)) args).
    { clear -IHargs H2 Hxa. induction IHargs as [|e es He _ IH]; [constructor|].
      cbn [forallb existsb] in *.
      apply andb_true_iff in H2 as [? ?]. apply orb_false_iff in Hxa as [? ?].
      constructor; auto. }
    pose proof (eval_args_no_array args Hall h1) as Hvs.
    destruct (eval_args args h1) as [[vs|ex] h2]; [|done]. by apply call_no_array.
  - discriminate Hf.
Qed.

(** X19.  An expression made of numbers, names, unary minus, the
    operators [+ - * /] and calls, that does not refer to x and calls
    nothing through the [np] handle, cannot be plotted: whatever it
    evaluates to is not a vector of y values, and the evaluator fails. *)
Theorem constant_expression_rejected
    (text : string) (ast : expr) (x : list float) (w : world) :
  parse (replace_caret text) = Some ast ->
  handle_free ast = true -> mentions "x" ast = false ->
  (exists c, (safe_eval_expression text x w).1 = Raise (ValueError (InvalidExpression c))) \/
  ((exists v, (safe_eval_expression text x w).1 = Ok (A0 v)) /\
   (evaluate text x w).1 = Raise (ValueError NotAVector)).
Proof.
  intros Hparse Hf Hx. unfold evaluate, safe_eval_expression, eval_and_convert.
  rewrite Hparse. unfold ebind.
  pose proof (eval_no_array ast Hf Hx (x, w)) as Hv.
  destruct (eval ast (x, w)) as [[v|ex] h]; [|left; eauto].
  destruct v; try done; simpl; eauto.
Qed.

End Constant.

(** ** The sample of the table *)

(** [str(n)] for a Python integer. *)
Definition str_of_int (n : Z) : string :=
  DecimalString.NilZero.string_of_int (Z.to_int n).

Section Sample.
Context `{NP : NumPy} `{PY : Python}.

(** [GraphApp._load_xy_sample]. *)
Definition _load_xy_sample (st : app) : app :=
  let st := clear st in
  let st :=
    fold_left (fun st xv => add_row (str_of_int xv) (str_of_int (xv * xv)) st)
      [-2; -1; 0; 1; 2] st in
  add_row "" "" st.

(** The text is read as the integer it writes. *)
Definition reads_as (n : Z) : Prop :=
  str_strip (str_of_int n) = str_of_int n /\
  float_of_string (str_of_int n) = Some (F64.of_Z n).

(** X20.  "Load sample" replaces whatever the table held by the five points of
    y = x * x for x from -2 to 2 and a blank row, and touches nothing
    else; read back, the table gives these five points. *)
Theorem load_xy_sample_reads_back (st : app) :
  str_strip "" = ""%string ->
  Forall reads_as [-2; -1; 0; 1; 2; 4] ->
  _load_xy_sample st =
    App (mode st)
        [("-2", "4"); ("-1", "1"); ("0", "0"); ("1", "1"); ("2", "4"); ("", "")]%string
        (eq_entry st) (xmin_entry st) (xmax_entry st) (npts_entry st)
        (ax st) (canvas st) (status st) (dialogs st) (np_state st) /\
  get_data (rows (_load_xy_sample st)) =
    Ok (map F64.of_Z [-2; -1; 0; 1; 2], map F64.of_Z [4; 1; 0; 1; 4]).
Proof.
  intros Hblank Hreads.
  split; [reflexivity|].
  assert (Hrows : rows (_load_xy_sample st) =
    [("-2", "4"); ("-1", "1"); ("0", "0"); ("1", "1"); ("2", "4"); ("", "")]%string)
    by reflexivity.
  rewrite Hrows.
  repeat match goal with
  | H : Forall _ (_ :: _) |- _ => inversion H; subst; clear H
  | H : reads_as _ |- _ => destruct H as [? ?]
  end.
  unfold str_of_int in *. cbn [Z.to_int Pos.to_uint] in *.
  vm_compute DecimalString.NilZero.string_of_int in *.
  unfold get_data. cbn [get_data_loop].
  repeat match goal with
  | H : str_strip _ = _ |- _ => rewrite !H; clear H
  end.
  cbn [String.eqb Ascii.eqb Bool.eqb andb orb].
  repeat match goal with
  | H : float_of_string _ = _ |- _ => rewrite !H; clear H
  end.
  reflexivity.
Qed.

(** The window as [GraphApp.__init__] builds it, the library being in
    state [w]: point mode, an empty table, the equation and range fields
    with their preset texts, the placeholder chart and no dialog. *)
Definition GraphApp_init (w : world) : app :=
  App point_mode [] "sin(x) + 0.5*x" "-10" "10" "400" initial_ax initial_ax NoStatus [] w.

(** The [__main__] block: the window with five blank rows added. *)
Definition main (w : world) : app :=
  Nat.iter 5 (add_row "" "") (GraphApp_init w).

(** X21.  Pressing "Draw the Chart" on the window as the program opens it, or
    after any number of further blank rows have been added, is answered
    with the dialog asking for at least one pair; the placeholder chart
    stays. *)
Theorem first_draw_asks_for_data (seed : entropy) (w : world) (more : nat) :
  str_strip "" = ""%string ->
  let st := Nat.iter more (add_row "" "") (main w) in
  draw_chart seed st = showerror (ValueError NeedOnePair) st /\
  canvas (draw_chart seed st) = initial_ax.
Proof.
  intros Hblank st.
  assert (Hfields : forall n (s : app),
    mode (Nat.iter n (add_row "" "") s) = mode s /\
    canvas (Nat.iter n (add_row "" "") s) = canvas s /\
    rows (Nat.iter n (add_row "" "") s) = rows s ++ replicate n (""%string, ""%string)).
  { induction n as [|n IH]; intros s; simpl.
    - by rewrite app_nil_r.
    - destruct (IH s) as (-> & -> & ->). split; [done|]. split; [done|].
      rewrite <- app_assoc. f_equal. symmetry. apply replicate_cons_app. }
  destruct (Hfields more (main w)) as (Hm & Hc & Hr).
  destruct (Hfields 5%nat (GraphApp_init w)) as (Hm' & Hc' & Hr').
  fold (main w) in Hm', Hc', Hr'. fold st in Hm, Hc, Hr.
  assert (Hdata : get_data (rows st) = Raise (ValueError NeedOnePair)).
  { apply get_data_all_blank.
    assert (Hb : blank_row (""%string, ""%string) = true).
    { unfold blank_row. cbn [fst snd]. by rewrite Hblank. }
    assert (Hrep : forall k, forallb blank_row (replicate k (""%string, ""%string)) = true).
    { induction k as [|k IH]; [done|]. cbn [replicate forallb]. by rewrite Hb. }
    rewrite Hr, Hr'. cbn [rows GraphApp_init]. by rewrite !forallb_app, !Hrep. }
  assert (Hrun : draw_chart seed st = showerror (ValueError NeedOnePair) st).
  { unfold draw_chart, draw_chart_body. rewrite Hm, Hm'. cbn [mode GraphApp_init].
    rewrite String.eqb_refl. unfold mbind, gui_bind, lift. by rewrite Hdata. }
  split; [done|]. rewrite Hrun. simpl. by rewrite Hc, Hc'.
Qed.

End Sample.
(** ** The curve of an equation *)

Section Curve.
Context `{NP : NumPy} `{PY : Python}.

(** X22.  A request in equation mode that goes through has passed the checks
    of the range; it plots the finite pairs of the x array, as the
    evaluation of the expression left it, and the y values of the
    expression; it draws no fitted line, leaves the library in the state
    the evaluation left it in, and ends with the canvas redrawn. *)
Theorem equation_mode_plots_curve (seed : entropy) (st st' : app) :
  mode st <> point_mode ->
  draw_chart_body seed st = (Ok (), st') ->
  exists xmin xmax npts x y w xf yf rest,
    read_range st = Ok (xmin, xmax, npts) /\
    F64.ltb xmin xmax = true /\ 10 <= npts /\
    evaluate (str_strip (eq_entry st)) (linspace xmin xmax npts) (np_state st)
      = (Ok y, (x, w)) /\
    length y = length x /\
    zip xf yf = filter (fun p => finite_pair p) (zip x y) /\
    ax st' = base_artists xf yf ++ rest /\
    fit_lines (ax st') = [] /\
    np_state st' = w /\ canvas st' = ax st'.
Proof.
  intros Hm. unfold draw_chart_body.
  destruct (String.eqb_spec (mode st) point_mode) as [|_]; [done|].
  destruct (String.eqb (str_strip (eq_entry st)) ""); [done|].
  unfold mbind, gui_bind, lift, raise.
  destruct (read_range st) as [[[xmin xmax] npts]|ex]; [|done].
  destruct (F64.ltb xmin xmax) eqn:Hlt; [|done]. cbn [negb].
  destruct (Z.ltb_spec npts 10) as [|Hn]; [done|].
  destruct (evaluate _ _ (np_state st)) as [[y|ex] [x w]] eqn:Hev; [|done].
  assert (Hlen : length x = length y).
  { unfold evaluate in Hev.
    destruct (safe_eval_expression _ _ _) as [[[v|a]|ex] h]; try done.
    destruct (decide _) as [Hshape|]; [|done].
    inversion Hev; subst. by inversion Hshape. }
  set (st0 := set_np_state w st).
  set (title := ("y = " +:+ str_strip (eq_entry st))%string).
  pose proof (plot_points_cases seed x y title st0 Hlen) as Hc.
  pose proof (plot_points_no_finite_data seed x y title st0 Hlen) as H0.
  destruct (finite_rows_zip x y Hlen) as [Hz _].
  cbv zeta in Hc.
  set (xf := Np.compress x (Np.finite_mask x y)) in *.
  set (yf := Np.compress y (Np.finite_mask x y)) in *.
  clearbody xf yf. intros Hrun.
  destruct (decide (xf = [])) as [He|Hne]; [by rewrite (H0 He) in Hrun|].
  destruct (Hc Hne) as [(e & _ & _ & _ & Hr)|(sf & fl & rn & mG & Hfit & Hrn & _ & Hr)];
    rewrite Hr in Hrun; [done|].
  inversion Hrun; subst st'. clear Hrun Hr.
  destruct Hfit as [(Hp & _)|(_ & -> & ->)]; [done|].
  destruct (random_step_lines _ _ _ _ Hrn) as [Hl _].
  exists xmin, xmax, npts, x, y, w, xf, yf. eexists.
  split; [done|]. split; [done|]. split; [done|]. split; [done|].
  split; [done|]. split; [done|]. split; [done|]. split; [|done].
  simpl. unfold fit_lines in *. rewrite flat_map_app, Hl. done.
Qed.

End Curve.
(** * Further properties on concrete inputs *)

(** ** The evaluator *)

(** [x*x] on a vector of three. *)
Lemma evaluate_keeps_x_witness :
  (safe_eval_expression (NP := Reference.numpy) (PY := Reference.python)
     "x*x" (map num [1; 2; 3]) 7%nat).2 = (map num [1; 2; 3], 7%nat) /\
  (evaluate (NP := Reference.numpy) (PY := Reference.python)
     "x*x" (map num [1; 2; 3]) 7%nat).2 = (map num [1; 2; 3], 7%nat) /\
  forall y,
    (evaluate (NP := Reference.numpy) (PY := Reference.python)
       "x*x" (map num [1; 2; 3]) 7%nat).1 = Ok y ->
    length y = length (map num [1; 2; 3]).
Proof.
  apply (evaluate_keeps_x (NP := Reference.numpy) (PY := Reference.python)
           "x*x" (EBin Mul (EName "x") (EName "x"))).
  - reflexivity.
  - reflexivity.
Defined.

(** The constant [2.0]. *)
Lemma constant_expression_rejected_witness :
  (exists c,
     (safe_eval_expression (NP := Reference.numpy) (PY := Reference.python)
        "2.0" (map num [1; 2; 3]) 0%nat).1 = Raise (ValueError (InvalidExpression c))) \/
  ((exists v,
      (safe_eval_expression (NP := Reference.numpy) (PY := Reference.python)
         "2.0" (map num [1; 2; 3]) 0%nat).1 = Ok (A0 v)) /\
   (evaluate (NP := Reference.numpy) (PY := Reference.python)
      "2.0" (map num [1; 2; 3]) 0%nat).1 = Raise (ValueError NotAVector)).
Proof.
  apply (constant_expression_rejected (NP := Reference.numpy) (PY := Reference.python)
           "2.0" (ENum (F64.of_Z 2))).
  - reflexivity.
  - reflexivity.
  - reflexivity.
Defined.

(** ** The local slope *)

(** Three points on a vertical line. *)
Lemma slope_at_point_one_x_value_witness :
  slope_at_point (NP := Reference.numpy) (map num [1; 1; 1]) (map num [1; 2; 3]) (num 1) 3
  = Ok F64.nan.
Proof.
  apply (slope_at_point_one_x_value (NP := Reference.numpy)).
  - simpl. lia.
  - reflexivity.
Defined.

(** Two points, given in either order. *)
Lemma slope_at_point_any_order_witness :
  slope_at_point (NP := Reference.numpy) (map num [2; 1]) (map num [20; 10]) (num 1) 3
  = slope_at_point (NP := Reference.numpy) (map num [1; 2]) (map num [10; 20]) (num 1) 3.
Proof.
  apply (slope_at_point_any_order (NP := Reference.numpy)).
  - reflexivity.
  - reflexivity.
  - apply perm_swap.
  - intros p q Hp Hq Hs. vm_compute in Hp, Hq.
    repeat (apply elem_of_cons in Hp as [->|Hp]);
      repeat (apply elem_of_cons in Hq as [->|Hq]);
      try (by apply elem_of_nil in Hp); try (by apply elem_of_nil in Hq);
      first [reflexivity | vm_compute in Hs; discriminate Hs].
Defined.

(** The window of three around position 4 of ten values, and around
    position 0. *)
Lemma slope_window_size_witness :
  let a := map num [0; 1; 2; 3; 4; 5; 6; 7; 8; 9] in
  ((length (Np.slice a 1 8) <= 2 * 3 + 1)%nat /\
   (Nat.min (length a) (3 + 1) <= length (Np.slice a 1 8))%nat /\
   Np.slice a 1 8 !! 3%nat = a !! 4%nat).
Proof.
  intros a.
  apply (slope_window_size a 4 3). simpl. lia.
Defined.

(** ** The table *)

(** A good row, a row with one blank entry, and a row that is never
    reached. *)
Lemma get_data_first_error_witness :
  get_data (PY := Reference.python) [("1", "2"); ("3", " "); ("a", "b")]%string
  = Raise (ValueError RowNeedsBoth).
Proof.
  apply (get_data_first_error (PY := Reference.python)
           [("1", "2")]%string [("a", "b")]%string ("3", " ")%string).
  - constructor; [reflexivity|constructor].
  - reflexivity.
Defined.

(** A sixth point added to the sample. *)
Lemma add_row_then_get_data_witness :
  (blank_row (PY := Reference.python) ("3", "9")%string = true ->
     get_data (PY := Reference.python) (rows (add_row "3" "9" point_window))
     = Ok (map num [-2; -1; 0; 1; 2], map num [4; 1; 0; 1; 4])) /\
  (forall xv yv, row_holds (PY := Reference.python) ("3", "9")%string (xv, yv) ->
     get_data (PY := Reference.python) (rows (add_row "3" "9" point_window))
     = Ok (map num [-2; -1; 0; 1; 2] ++ [xv], map num [4; 1; 0; 1; 4] ++ [yv])).
Proof.
  apply (add_row_then_get_data (NP := Reference.numpy) (PY := Reference.python)
           "3" "9" point_window).
  reflexivity.
Defined.

(** The reference interpreter reads the integers of the sample. *)
Lemma load_xy_sample_reads_back_witness :
  _load_xy_sample equation_window = Reference.set_rows Reference.sample_rows equation_window /\
  get_data (PY := Reference.python) (rows (_load_xy_sample equation_window))
  = Ok (map F64.of_Z [-2; -1; 0; 1; 2], map F64.of_Z [4; 1; 0; 1; 4]).
Proof.
  apply (load_xy_sample_reads_back (NP := Reference.numpy) (PY := Reference.python)
           equation_window).
  - reflexivity.
  - repeat constructor; reflexivity.
Defined.

(** ** The checks of a request *)

(** A window in equation mode with a blank expression. *)
Definition blank_equation_window : app (NP := Reference.numpy) :=
  Reference.window "Using Equation" [] "  ".

Lemma draw_chart_equation_checks_witness :
  draw_chart (NP := Reference.numpy) (PY := Reference.python) 0%nat blank_equation_window
  = showerror (ValueError NeedEquation) blank_equation_window.
Proof.
  apply (proj1 (draw_chart_equation_checks (NP := Reference.numpy) (PY := Reference.python)
                  0%nat blank_equation_window ltac:(intros H; discriminate H))).
  reflexivity.
Defined.

(** A window asking for infinitely many points. *)
Definition infinite_points_window : app (NP := Reference.numpy) :=
  @App Reference.numpy "Using Equation" [] "x*x" "-10" "10" " inf "
    initial_ax initial_ax NoStatus [] 0%nat.

Lemma read_range_points_field_witness :
  read_range (PY := Reference.python) infinite_points_window = Raise OverflowError.
Proof.
  apply (read_range_points_field (NP := Reference.numpy) (PY := Reference.python)
           infinite_points_window
           (F64.opp (F64.of_Z 10)) (F64.of_Z 10) (S754_infinity false)).
  - reflexivity.
  - reflexivity.
  - reflexivity.
Defined.

(** A table with a single point. *)
Definition one_row_window : app (NP := Reference.numpy) :=
  Reference.window point_mode [("1", "2"); ("", "")]%string "".

Lemma draw_chart_point_checks_witness :
  (forall e, get_data (PY := Reference.python) (rows one_row_window) = Raise e ->
     draw_chart (NP := Reference.numpy) (PY := Reference.python) 0%nat one_row_window
     = showerror e one_row_window) /\
  (forall xs ys, get_data (PY := Reference.python) (rows one_row_window) = Ok (xs, ys) ->
     (length xs < 2)%nat ->
     draw_chart (NP := Reference.numpy) (PY := Reference.python) 0%nat one_row_window
     = showerror (ValueError NeedTwoPoints) one_row_window).
Proof.
  apply (draw_chart_point_checks (NP := Reference.numpy) (PY := Reference.python)).
  reflexivity.
Defined.

(** The window as the program opens it, with two more blank rows. *)
Lemma first_draw_asks_for_data_witness :
  let st := Nat.iter 2 (add_row "" "") (main (NP := Reference.numpy) 0%nat) in
  draw_chart (NP := Reference.numpy) (PY := Reference.python) 0%nat st = showerror (ValueError NeedOnePair) st /\
  canvas (draw_chart (NP := Reference.numpy) (PY := Reference.python) 0%nat st) = initial_ax.
Proof.
  apply (first_draw_asks_for_data (NP := Reference.numpy) (PY := Reference.python)
           0%nat 0%nat 2%nat).
  reflexivity.
Defined.

(** ** The chart *)

(** The rows of the sample given out of order. *)
Definition shuffled_window : app (NP := Reference.numpy) :=
  Reference.window point_mode
    [("2", "4"); ("-1", "1"); ("", ""); ("0", "0"); ("-2", "4"); ("1", "1")]%string "".

Lemma point_mode_plots_ascending_witness :
  exists xs ys xf yf rest,
    get_data (PY := Reference.python) (rows shuffled_window) = Ok (xs, ys) /\
    ax (draw_chart_body (NP := Reference.numpy) (PY := Reference.python) 0%nat shuffled_window).2
      = base_artists xf yf ++ rest /\
    zip xf yf ≡ₚ filter (fun p => finite_pair p) (zip xs ys) /\
    StronglySorted (fun u v => F64.sort_le u v = true) xf.
Proof.
  apply (point_mode_plots_ascending (NP := Reference.numpy) (PY := Reference.python)
           0%nat shuffled_window).
  - reflexivity.
  - reflexivity.
Defined.

Lemma best_fit_line_ascending_witness :
  exists c0 c1 lx ly,
    polyfit (NumPy := Reference.numpy)
      (map num [2; -1; 0; -2; 1]) (map num [4; 1; 0; 4; 1]) = Ok (c0, c1) /\
    fit_lines (ax (_plot_points (NP := Reference.numpy) 0%nat
                     (map num [2; -1; 0; -2; 1]) (map num [4; 1; 0; 4; 1])
                     "From x, y values" point_window).2) = [(lx, ly)] /\
    zip lx ly ≡ₚ zip (map num [2; -1; 0; -2; 1])
                    (polyval c0 c1 (map num [2; -1; 0; -2; 1])) /\
    StronglySorted (fun u v => F64.sort_le u v = true) lx.
Proof.
  apply (best_fit_line_ascending (NP := Reference.numpy) 0%nat
           (map num [2; -1; 0; -2; 1]) (map num [4; 1; 0; 4; 1])
           (map num [2; -1; 0; -2; 1]) (map num [4; 1; 0; 4; 1])
           "From x, y values" point_window).
  - reflexivity.
  - reflexivity.
  - simpl. lia.
  - reflexivity.
Defined.

(** One finite point left of two, in equation mode. *)
Lemma plot_points_single_point_witness :
  _plot_points (NP := Reference.numpy) 0%nat
    [num 1; F64.nan] [num 2; num 3] "y = x*x" equation_window
  = (Ok (),
     finish equation_window
       (base_artists [num 1] [num 2]
          ++ [Scatter [mean (NumPy := Reference.numpy) [num 1]]
                      [mean (NumPy := Reference.numpy) [num 2]] "G Point";
              Title "y = x*x" (mean (NumPy := Reference.numpy) [num 1])
                    (mean (NumPy := Reference.numpy) [num 2]) None; Legend])
       (GStatus (mean (NumPy := Reference.numpy) [num 1])
                (mean (NumPy := Reference.numpy) [num 2]) None)).
Proof.
  apply (plot_points_single_point (NP := Reference.numpy)).
  reflexivity.
Defined.

(** Ten points of the curve y = x * x. *)
Definition ten_points_window : app (NP := Reference.numpy) :=
  @App Reference.numpy "Using Equation" [] "x*x" "-10" "10" "10"
    initial_ax initial_ax NoStatus [] 0%nat.

Lemma equation_mode_plots_curve_witness :
  exists xmin xmax npts x y w xf yf rest,
    read_range (PY := Reference.python) ten_points_window = Ok (xmin, xmax, npts) /\
    F64.ltb xmin xmax = true /\ 10 <= npts /\
    evaluate (NP := Reference.numpy) (PY := Reference.python)
      (str_strip (Python := Reference.python) (eq_entry ten_points_window))
      (linspace (NumPy := Reference.numpy) xmin xmax npts) (np_state ten_points_window)
      = (Ok y, (x, w)) /\
    length y = length x /\
    zip xf yf = filter (fun p => finite_pair p) (zip x y) /\
    ax (draw_chart_body (NP := Reference.numpy) (PY := Reference.python)
          0%nat ten_points_window).2 = base_artists xf yf ++ rest /\
    fit_lines (ax (draw_chart_body (NP := Reference.numpy) (PY := Reference.python)
                     0%nat ten_points_window).2) = [] /\
    np_state (draw_chart_body (NP := Reference.numpy) (PY := Reference.python)
                0%nat ten_points_window).2 = w /\
    canvas (draw_chart_body (NP := Reference.numpy) (PY := Reference.python)
              0%nat ten_points_window).2
    = ax (draw_chart_body (NP := Reference.numpy) (PY := Reference.python)
            0%nat ten_points_window).2.
Proof.
  apply (equation_mode_plots_curve (NP := Reference.numpy) (PY := Reference.python)
           0%nat ten_points_window).
  - intros H. discriminate H.
  - reflexivity.
Defined.

(** ** Cases of the lengths, of the table and of the caret *)

(** Three x values and two y values. *)
Lemma slope_at_point_lengths_witness :
  slope_at_point (NP := Reference.numpy) (map num [1; 2; 3]) (map num [1; 2]) (num 1) 3
  = Raise IndexError.
Proof.
  apply (proj1 (proj2 (slope_at_point_lengths (NP := Reference.numpy)
                         (map num [1; 2; 3]) (map num [1; 2]) (num 1) 3))).
  - simpl. lia.
  - simpl. lia.
Defined.

(** The sample, read. *)
Lemma get_data_ok_iff_witness :
  map num [-2; -1; 0; 1; 2] <> [] /\
  length (map num [-2; -1; 0; 1; 2]) = length (map num [4; 1; 0; 1; 4]) /\
  Forall2 (row_holds (PY := Reference.python))
    (filled_rows (PY := Reference.python) Reference.sample_rows)
    (zip (map num [-2; -1; 0; 1; 2]) (map num [4; 1; 0; 1; 4])).
Proof.
  apply (proj1 (get_data_ok_iff (PY := Reference.python) Reference.sample_rows
                  (map num [-2; -1; 0; 1; 2]) (map num [4; 1; 0; 1; 4]))).
  reflexivity.
Defined.

(** Rows of white space. *)
Lemma get_data_skips_blank_rows_witness :
  get_data (PY := Reference.python) [("", ""); ("  ", ""); (" ", "   ")]%string
  = Raise (ValueError NeedOnePair).
Proof.
  apply (proj1 (proj2 (get_data_skips_blank_rows (NP := Reference.numpy)
                         (PY := Reference.python)
                         [("", ""); ("  ", ""); (" ", "   ")]%string equation_window))).
  reflexivity.
Defined.

(** A text without caret. *)
Lemma replace_caret_normalises_witness :
  replace_caret "sin(x) + 0.5*x" = "sin(x) + 0.5*x"%string.
Proof.
  apply (proj2 (proj2 (proj2 (replace_caret_normalises "sin(x) + 0.5*x" "")))).
  reflexivity.
Defined.
